(** * vanna-mcp-server.js: worker supervision and request correlation

    A shallow embedding of the [VannaMCPServer] class of
    [src/vanna-mcp-server.js]: the fields of the server object, the event
    handlers that [startPython] attaches to the worker process, the timers
    they arm, and the tool functions that hand requests to [sendToVanna].

    Node runs every handler to completion on one event loop, so a handler
    is a function from state to state and a run of the server is a list of
    events.  What the environment decides (whether the worker files exist,
    whether a write or a kill throws, what [JSON.parse] makes of a line)
    is an input of the event.

    Time is left out: an armed timer may fire at any turn, and the events
    of a spawned process may come in any order.  Every run of the real
    server is a run of this model, so what holds of all runs here holds of
    the server.  Numbers that the source only counts with ([requestId],
    [initializationAttempts], the error counts) are integers; a JavaScript
    number is exact on them up to 2^53.  The log file is not modelled;
    of the texts returned to the caller, only the error texts of
    [generateUserFriendlyError] and the health line of [getErrorStats]
    are. *)

From Stdlib Require Import ZArith NArith QArith List Bool Lia String Ascii.
From Stdlib.Strings Require Import Byte.
From Stdlib Require Import Sorted.
Import ListNotations.

Close Scope Q_scope.
Open Scope Z_scope.

(** ** JavaScript strings

    A JavaScript string is a sequence of UTF-16 code units. *)

Definition jsstring := list N.

(** A string literal of the source (ASCII only). *)
Definition js (s : string) : jsstring :=
  map N_of_ascii (list_ascii_of_string s).

Definition jsstring_eq_dec : forall a b : jsstring, {a = b} + {a <> b} :=
  list_eq_dec N.eq_dec.

(** [s.startsWith(prefix)] *)
Fixpoint startsWith (s prefix : jsstring) : bool :=
  match prefix, s with
  | [], _ => true
  | _ :: _, [] => false
  | p :: ps, c :: cs => N.eqb c p && startsWith cs ps
  end.

(** [s.includes(needle)] *)
Fixpoint includes (s needle : jsstring) : bool :=
  match s with
  | [] => startsWith [] needle
  | _ :: r => startsWith s needle || includes r needle
  end.

(** The code units [String.prototype.trim] strips: WhiteSpace and
    LineTerminator of ECMA-262. *)
Definition isWhiteSpace (c : N) : bool :=
  existsb (N.eqb c)
    [9; 10; 11; 12; 13; 32; 160; 5760; 8192; 8193; 8194; 8195; 8196; 8197;
     8198; 8199; 8200; 8201; 8202; 8232; 8233; 8239; 8287; 12288; 65279]%N.

Fixpoint trimStart (s : jsstring) : jsstring :=
  match s with
  | [] => []
  | c :: r => if isWhiteSpace c then trimStart r else s
  end.

Definition trimEnd (s : jsstring) : jsstring := rev (trimStart (rev s)).

(** [s.trim()] *)
Definition trim (s : jsstring) : jsstring := trimEnd (trimStart s).

(** [s.split(sep)] for a separator of one code unit: never empty, the
    last piece is what follows the last separator. *)
Fixpoint split (sep : N) (s : jsstring) : list jsstring :=
  match s with
  | [] => [[]]
  | c :: r =>
      if N.eqb c sep then [] :: split sep r
      else match split sep r with
           | h :: t => (c :: h) :: t
           | [] => [[c]]
           end
  end.

Definition LF : N := 10%N.

(** ** [Buffer.prototype.toString()]

    A ['data'] event of a child's stream carries a [Buffer]; the source
    turns it into a string with [data.toString()], which decodes the bytes
    of that one chunk as UTF-8 and puts U+FFFD for every ill-formed
    sequence, a sequence cut off by the end of the chunk included. *)

Definition U_FFFD : N := 65533%N.

Inductive decoder :=
| Idle
| Continuation (cp : N) (needed : nat) (lower upper : N).

Definition between (lo b hi : N) : bool := N.leb lo b && N.leb b hi.

(** A byte read with no sequence under way. *)
Definition utf8_lead (b : N) : list N * decoder :=
  if N.ltb b 128 then ([b], Idle)
  else if between 194 b 223 then ([], Continuation (N.land b 31) 1 128 191)
  else if between 224 b 239 then
    ([], Continuation (N.land b 15) 2
           (if N.eqb b 224 then 160 else 128)
           (if N.eqb b 237 then 159 else 191))%N
  else if between 240 b 244 then
    ([], Continuation (N.land b 7) 3
           (if N.eqb b 240 then 144 else 128)
           (if N.eqb b 244 then 143 else 191))%N
  else ([U_FFFD], Idle).

Definition utf8_step (st : decoder) (b : N) : list N * decoder :=
  match st with
  | Idle => utf8_lead b
  | Continuation cp n lo hi =>
      if between lo b hi then
        let cp' := N.lor (N.shiftl cp 6) (N.land b 63) in
        match n with
        | S (S n') => ([], Continuation cp' (S n') 128 191)
        | _ => ([cp'], Idle)
        end
      else
        let '(out, st') := utf8_lead b in (U_FFFD :: out, st')
  end.

(** The code points of a byte sequence. *)
Fixpoint utf8_decode (st : decoder) (bs : list N) : list N :=
  match bs with
  | [] => match st with Idle => [] | Continuation _ _ _ _ => [U_FFFD] end
  | b :: r => let '(out, st') := utf8_step st b in out ++ utf8_decode st' r
  end.

(** A code point as UTF-16 code units. *)
Definition utf16 (cp : N) : list N :=
  if N.ltb cp 65536 then [cp]
  else [55296 + (cp - 65536) / 1024; 56320 + (cp - 65536) mod 1024]%N.

Definition toString (data : list byte) : jsstring :=
  flat_map utf16 (utf8_decode Idle (map Byte.to_N data)).

(** ** The line framer

    The ['data'] listener of the worker's stdout (lines 152-157):
<<
      buffer += data.toString();
      const lines = buffer.split('\n');
      buffer = lines.pop() || '';
>>
    [frame] returns the complete lines and the new buffer. *)

Definition frame_string (buffer chunk : jsstring) : list jsstring * jsstring :=
  let lines := split LF (buffer ++ chunk) in
  (removelast lines, last lines []).

Definition frame (buffer : jsstring) (data : list byte)
  : list jsstring * jsstring :=
  frame_string buffer (toString data).

(** The framer run over the chunks of a stream, from a given buffer: all
    the lines it hands on, and the buffer it is left with. *)
Fixpoint frame_all (buffer : jsstring) (chunks : list (list byte))
  : list jsstring * jsstring :=
  match chunks with
  | [] => ([], buffer)
  | data :: rest =>
      let '(lines, buffer') := frame buffer data in
      let '(lines', buffer'') := frame_all buffer' rest in
      (lines ++ lines', buffer'')
  end.

Fixpoint frame_all_string (buffer : jsstring) (chunks : list jsstring)
  : list jsstring * jsstring :=
  match chunks with
  | [] => ([], buffer)
  | chunk :: rest =>
      let '(lines, buffer') := frame_string buffer chunk in
      let '(lines', buffer'') := frame_all_string buffer' rest in
      (lines ++ lines', buffer'')
  end.


(** ** JSON values

    What [JSON.parse] returns.  A number is the rational its double
    stands for, or an infinity ([JSON.parse("1e999")]). *)

#[warnings="-register-all"]
Inductive json :=
| JNull
| JBool (b : bool)
| JNum (q : Q)
| JInfinity (negative : bool)
| JStr (s : jsstring)
| JArr (items : list json)
| JObj (fields : list (jsstring * json)).

(** A JavaScript value that may be [undefined] is an [option json].
    [truthy] is ToBoolean. *)
Definition truthy (v : option json) : bool :=
  match v with
  | None | Some JNull => false
  | Some (JBool b) => b
  | Some (JNum q) => negb (Qeq_bool q 0)
  | Some (JStr s) => match s with [] => false | _ :: _ => true end
  | Some (JInfinity _) | Some (JArr _) | Some (JObj _) => true
  end.

Fixpoint lookup_field (name : jsstring) (fields : list (jsstring * json))
  : option json :=
  match fields with
  | [] => None
  | (k, v) :: r => if jsstring_eq_dec k name then Some v else lookup_field name r
  end.

(** [v.name] for the names the source reads ([id], [error], [message]),
    of a value other than [null]: own properties of an object, and
    [undefined] of anything else. *)
Definition prop (name : jsstring) (v : json) : option json :=
  match v with
  | JObj fields => lookup_field name fields
  | _ => None
  end.

(** The keys of [pendingRequests] are the integers [requestId++] hands
    out; [Map] compares keys by SameValueZero, so a value is one of the
    keys only when it is a number equal to that integer. *)
Definition as_key (v : option json) : option Z :=
  match v with
  | Some (JNum q) =>
      if Z.eqb (Qnum q mod Zpos (Qden q)) 0
      then Some (Qnum q / Zpos (Qden q))%Z
      else None
  | _ => None
  end.

(** ** Numbers

    A JavaScript number other than NaN and the infinities is the rational
    its double stands for. *)

Inductive number :=
| Finite (q : Q)
| NaN
| Infinite (negative : bool).

Definition integer (z : Z) : number := Finite (inject_Z z).

Coercion integer : Z >-> number.

Definition negate (x : number) : number :=
  match x with
  | Finite q => Finite (Qopp q)
  | NaN => NaN
  | Infinite negative => Infinite (negb negative)
  end.

(** [Math.min] and [Math.max] of two numbers. *)
Definition Math_min (a b : number) : number :=
  match a, b with
  | NaN, _ | _, NaN => NaN
  | Infinite true, _ | _, Infinite true => Infinite true
  | Infinite false, x | x, Infinite false => x
  | Finite p, Finite q => if Qle_bool p q then a else b
  end.

Definition Math_max (a b : number) : number :=
  match a, b with
  | NaN, _ | _, NaN => NaN
  | Infinite false, _ | _, Infinite false => Infinite false
  | Infinite true, x | x, Infinite true => x
  | Finite p, Finite q => if Qle_bool p q then b else a
  end.

(** *** The double nearest to a rational

    Ties go to the even significand; a double has 53 bits of precision,
    exponents down to -1074, and is an infinity from 2^1024 on. *)

(** [n / d] to the nearest integer, for [0 <= n] and [0 < d]. *)
Definition round_half_even (n d : Z) : Z :=
  let floor := n / d in
  match 2 * (n mod d) ?= d with
  | Lt => floor
  | Gt => floor + 1
  | Eq => if Z.even floor then floor else floor + 1
  end.

(** The [k] with [2^k <= n / d < 2^(k+1)], for [0 < n] and [0 < d]. *)
Definition binary_exponent (n d : Z) : Z :=
  let k := Z.log2 n - Z.log2 d in
  if (if 0 <=? k then d * 2 ^ k <=? n else d <=? n * 2 ^ (- k))
  then k else k - 1.

Definition round_double (q : Q) : number :=
  let n := Z.abs (Qnum q) in
  let d := Zpos (Qden q) in
  if n =? 0 then Finite 0
  else
    let k := binary_exponent n d in
    let p := Z.max (k - 52) (-1074) in
    let m := if 0 <=? p then round_half_even n (d * 2 ^ p)
             else round_half_even (n * 2 ^ (- p)) d in
    if (0 <=? p) && (2 ^ (1024 - p) <=? m) then Infinite (Qnum q <? 0)
    else
      let a := if 0 <=? p then inject_Z (m * 2 ^ p)
               else Qmake m (Z.to_pos (2 ^ (- p))) in
      Finite (Qred (if Qnum q <? 0 then Qopp a else a)).

(** *** StringToNumber (ECMA-262, 7.1.4.1.1)

    The text is trimmed; nothing is 0; then it is [0x], [0o] or [0b] with
    digits of that base, or a decimal literal with an optional sign:
    [Infinity], or digits with an optional point and an optional exponent.
    Anything else is NaN. *)

Definition digit_value (c : N) : option N :=
  if between 48 c 57 then Some (c - 48)%N
  else if between 97 c 102 then Some (c - 87)%N
  else if between 65 c 70 then Some (c - 55)%N
  else None.

(** The digits of [base] at the head of [s]: their value after [value],
    their number after [count], and what follows them. *)
Fixpoint take_digits (base : N) (s : jsstring) (value : N) (count : nat)
  : N * nat * jsstring :=
  match s with
  | [] => (value, count, s)
  | c :: r =>
      match digit_value c with
      | Some v =>
          if N.ltb v base
          then take_digits base r (value * base + v)%N (S count)
          else (value, count, s)
      | None => (value, count, s)
      end
  end.

(** [0x...], [0o...] and [0b...]: [None] when [s] has no such prefix. *)
Definition radix_literal (s : jsstring) : option number :=
  match s with
  | zero :: c :: r =>
      let base :=
        if N.eqb c 120 || N.eqb c 88 then Some 16%N
        else if N.eqb c 111 || N.eqb c 79 then Some 8%N
        else if N.eqb c 98 || N.eqb c 66 then Some 2%N
        else None in
      match N.eqb zero 48, base with
      | true, Some b =>
          let '(v, n, rest) := take_digits b r 0%N 0%nat in
          Some match n, rest with
               | S _, [] => round_double (inject_Z (Z.of_N v))
               | _, _ => NaN
               end
      | _, _ => None
      end
  | _ => None
  end.

(** An exponent part, or nothing: the exponent. *)
Definition exponent_part (s : jsstring) : option Z :=
  match s with
  | [] => Some 0
  | c :: r =>
      if N.eqb c 101 || N.eqb c 69 then
        let '(negative, r) :=
          match r with
          | sign :: t =>
              if N.eqb sign 43 then (false, t)
              else if N.eqb sign 45 then (true, t)
              else (false, r)
          | [] => (false, r)
          end in
        let '(v, n, rest) := take_digits 10 r 0%N 0%nat in
        match n, rest with
        | S _, [] => Some (if negative then - Z.of_N v else Z.of_N v)
        | _, _ => None
        end
      else None
  end.

Definition unsigned_decimal (s : jsstring) : number :=
  if jsstring_eq_dec s (js "Infinity") then Infinite false
  else
    let '(whole, n_whole, r) := take_digits 10 s 0%N 0%nat in
    let '(mantissa, n_fraction, r) :=
      match r with
      | c :: t =>
          if N.eqb c 46
          then let '(m, n, r') := take_digits 10 t whole 0%nat in (m, n, r')
          else (whole, 0%nat, r)
      | [] => (whole, 0%nat, r)
      end in
    match n_whole, n_fraction with
    | O, O => NaN
    | _, _ =>
        match exponent_part r with
        | None => NaN
        | Some e =>
            let scale := e - Z.of_nat n_fraction in
            round_double
              (if 0 <=? scale then inject_Z (Z.of_N mantissa * 10 ^ scale)
               else Qmake (Z.of_N mantissa) (Z.to_pos (10 ^ (- scale))))
        end
    end.

Definition StringToNumber (s : jsstring) : number :=
  let t := trim s in
  match t with
  | [] => Finite 0
  | c :: r =>
      match radix_literal t with
      | Some n => n
      | None =>
          if N.eqb c 43 then unsigned_decimal r
          else if N.eqb c 45 then negate (unsigned_decimal r)
          else unsigned_decimal t
      end
  end.

(** *** ToNumber of a JSON value

    Of an array it is StringToNumber of the array's [toString()], and of an
    object that of ["[object Object]"], unless making the string throws a
    TypeError: an object from [JSON.parse] with a property [toString] of
    its own has no function there, and [valueOf] gives the object back. *)

Fixpoint unprintable (v : json) : bool :=
  match v with
  | JObj fields =>
      match lookup_field (js "toString") fields with
      | Some _ => true
      | None => false
      end
  | JArr items => existsb unprintable items
  | _ => false
  end.

(** StringToNumber of the text [join] makes of an element of an array,
    and of an array: nothing for [null], a comma between two elements,
    and the text of a number reads back as that number. *)
Fixpoint printed_number (v : json) : number :=
  match v with
  | JNull => Finite 0
  | JBool _ => NaN
  | JNum q => Finite q
  | JInfinity negative => Infinite negative
  | JStr s => StringToNumber s
  | JArr [] => Finite 0
  | JArr [x] => printed_number x
  | JArr (_ :: _ :: _) => NaN
  | JObj _ => NaN
  end.

(** [None]: a TypeError. *)
Definition ToNumber (v : json) : option number :=
  if unprintable v then None
  else
    Some match v with
         | JNull => Finite 0
         | JBool b => if b then Finite 1 else Finite 0
         | JNum q => Finite q
         | JInfinity negative => Infinite negative
         | JStr s => StringToNumber s
         | JArr _ => printed_number v
         | JObj _ => NaN
         end.

(** ** The server object and the event loop *)

Definition pid := nat.      (* a ChildProcess object, by order of spawn *)
Definition promise := nat.  (* a Promise made by sendToVanna, by order of creation *)

Inductive error :=
| Error (message : string)          (* new Error('...') *)
| ErrorOf (message : option json).  (* new Error(response.error.message) *)

Inductive outcome :=
| Resolved (response : json)
| Rejected (e : error).

(** The [arguments] of a request; [JSON.stringify] writes a limit that is
    NaN as [null]. *)
Inductive tool_args :=
| no_arguments
| limit_argument (limit : number)
| question_argument (question : jsstring).

(** The request object of the tool functions:
    [{ jsonrpc: "2.0", id, method: "tools/call", params: { name, arguments } }]. *)
Record request := mkRequest {
  req_id : Z;
  req_name : string;
  req_arguments : tool_args
}.

(** Timers: [initTimer] of a spawn (60 s), a scheduled [startPython]
    (5 s), the timeout of a request (30 s). *)
Inductive timer :=
| initTimer (p : pid)
| restartTimer
| requestTimer (id : Z) (pr : promise).

Definition delay (t : timer) : Z :=
  match t with
  | initTimer _ => 60000
  | restartTimer => 5000
  | requestTimer _ _ => 30000
  end.

Definition timer_eq_dec : forall a b : timer, {a = b} + {a <> b}.
Proof. decide equality; auto using Nat.eq_dec, Z.eq_dec. Defined.

(** [this.errorCounts] *)
Record counts := mkCounts {
  total : Z;
  validation : Z;
  database : Z;
  python : Z;
  timeout : Z
}.

Inductive error_type :=
| type_validation | type_database | type_python | type_timeout.

(** [this.errorCounts.total++; this.errorCounts[type] = (this.errorCounts[type] || 0) + 1] *)
Definition count (type : error_type) (c : counts) : counts :=
  match type with
  | type_validation =>
      mkCounts (total c + 1) (validation c + 1) (database c) (python c) (timeout c)
  | type_database =>
      mkCounts (total c + 1) (validation c) (database c + 1) (python c) (timeout c)
  | type_python =>
      mkCounts (total c + 1) (validation c) (database c) (python c + 1) (timeout c)
  | type_timeout =>
      mkCounts (total c + 1) (validation c) (database c) (python c) (timeout c + 1)
  end.

Record state := mkState {
  (* the fields of the VannaMCPServer object (lines 17-23) *)
  pythonProcess : option pid;
  isVannaReady : bool;
  initializationAttempts : Z;
  requestId : Z;
  pendingRequests : list (Z * promise);   (* a Map, in insertion order *)
  errorCounts : counts;
  (* the event loop, and the closures of startPython *)
  timers : list timer;                    (* armed, not yet fired or cleared *)
  buffers : list (pid * jsstring);        (* [let buffer] of each spawn *)
  spawned : nat;                          (* worker processes spawned so far *)
  promises : nat;                         (* promises made by sendToVanna so far *)
  hostExited : bool;                      (* process.exit(0) was called *)
  (* what the handlers did, oldest first *)
  settlements : list (promise * outcome); (* calls of resolve and reject *)
  written : list (pid * request);         (* pythonProcess.stdin.write *)
  signalled : list pid;                   (* pythonProcess.kill('SIGTERM') *)
  issued : list Z                         (* values of this.requestId++ *)
}.

Definition set_pythonProcess (v : option pid) (s : state) : state :=
  mkState v (isVannaReady s) (initializationAttempts s) (requestId s)
    (pendingRequests s) (errorCounts s) (timers s) (buffers s) (spawned s)
    (promises s) (hostExited s) (settlements s) (written s) (signalled s)
    (issued s).

Definition set_isVannaReady (v : bool) (s : state) : state :=
  mkState (pythonProcess s) v (initializationAttempts s) (requestId s)
    (pendingRequests s) (errorCounts s) (timers s) (buffers s) (spawned s)
    (promises s) (hostExited s) (settlements s) (written s) (signalled s)
    (issued s).

Definition set_initializationAttempts (v : Z) (s : state) : state :=
  mkState (pythonProcess s) (isVannaReady s) v (requestId s)
    (pendingRequests s) (errorCounts s) (timers s) (buffers s) (spawned s)
    (promises s) (hostExited s) (settlements s) (written s) (signalled s)
    (issued s).

Definition set_requestId (v : Z) (s : state) : state :=
  mkState (pythonProcess s) (isVannaReady s) (initializationAttempts s) v
    (pendingRequests s) (errorCounts s) (timers s) (buffers s) (spawned s)
    (promises s) (hostExited s) (settlements s) (written s) (signalled s)
    (issued s).

Definition set_pendingRequests (v : list (Z * promise)) (s : state) : state :=
  mkState (pythonProcess s) (isVannaReady s) (initializationAttempts s)
    (requestId s) v (errorCounts s) (timers s) (buffers s) (spawned s)
    (promises s) (hostExited s) (settlements s) (written s) (signalled s)
    (issued s).

Definition set_errorCounts (v : counts) (s : state) : state :=
  mkState (pythonProcess s) (isVannaReady s) (initializationAttempts s)
    (requestId s) (pendingRequests s) v (timers s) (buffers s) (spawned s)
    (promises s) (hostExited s) (settlements s) (written s) (signalled s)
    (issued s).

Definition set_timers (v : list timer) (s : state) : state :=
  mkState (pythonProcess s) (isVannaReady s) (initializationAttempts s)
    (requestId s) (pendingRequests s) (errorCounts s) v (buffers s) (spawned s)
    (promises s) (hostExited s) (settlements s) (written s) (signalled s)
    (issued s).

Definition set_buffers (v : list (pid * jsstring)) (s : state) : state :=
  mkState (pythonProcess s) (isVannaReady s) (initializationAttempts s)
    (requestId s) (pendingRequests s) (errorCounts s) (timers s) v (spawned s)
    (promises s) (hostExited s) (settlements s) (written s) (signalled s)
    (issued s).

Definition set_spawned (v : nat) (s : state) : state :=
  mkState (pythonProcess s) (isVannaReady s) (initializationAttempts s)
    (requestId s) (pendingRequests s) (errorCounts s) (timers s) (buffers s) v
    (promises s) (hostExited s) (settlements s) (written s) (signalled s)
    (issued s).

Definition set_promises (v : nat) (s : state) : state :=
  mkState (pythonProcess s) (isVannaReady s) (initializationAttempts s)
    (requestId s) (pendingRequests s) (errorCounts s) (timers s) (buffers s)
    (spawned s) v (hostExited s) (settlements s) (written s) (signalled s)
    (issued s).

Definition set_hostExited (v : bool) (s : state) : state :=
  mkState (pythonProcess s) (isVannaReady s) (initializationAttempts s)
    (requestId s) (pendingRequests s) (errorCounts s) (timers s) (buffers s)
    (spawned s) (promises s) v (settlements s) (written s) (signalled s)
    (issued s).

Definition set_settlements (v : list (promise * outcome)) (s : state) : state :=
  mkState (pythonProcess s) (isVannaReady s) (initializationAttempts s)
    (requestId s) (pendingRequests s) (errorCounts s) (timers s) (buffers s)
    (spawned s) (promises s) (hostExited s) v (written s) (signalled s)
    (issued s).

Definition set_written (v : list (pid * request)) (s : state) : state :=
  mkState (pythonProcess s) (isVannaReady s) (initializationAttempts s)
    (requestId s) (pendingRequests s) (errorCounts s) (timers s) (buffers s)
    (spawned s) (promises s) (hostExited s) (settlements s) v (signalled s)
    (issued s).

Definition set_signalled (v : list pid) (s : state) : state :=
  mkState (pythonProcess s) (isVannaReady s) (initializationAttempts s)
    (requestId s) (pendingRequests s) (errorCounts s) (timers s) (buffers s)
    (spawned s) (promises s) (hostExited s) (settlements s) (written s) v
    (issued s).

Definition set_issued (v : list Z) (s : state) : state :=
  mkState (pythonProcess s) (isVannaReady s) (initializationAttempts s)
    (requestId s) (pendingRequests s) (errorCounts s) (timers s) (buffers s)
    (spawned s) (promises s) (hostExited s) (settlements s) (written s)
    (signalled s) v.

(** The initial fields (lines 17-23): no process, not ready, no attempts,
    [requestId] 1, nothing pending. *)
Definition constructed : state :=
  {| pythonProcess := None;
     isVannaReady := false;
     initializationAttempts := 0;
     requestId := 1;
     pendingRequests := [];
     errorCounts := mkCounts 0 0 0 0 0;
     timers := [];
     buffers := [];
     spawned := 0;
     promises := 0;
     hostExited := false;
     settlements := [];
     written := [];
     signalled := [];
     issued := [] |}.

Definition maxAttempts : Z := 3.

(** *** [Map] operations on [pendingRequests] *)

Fixpoint map_get (k : Z) (m : list (Z * promise)) : option promise :=
  match m with
  | [] => None
  | (k', v) :: r => if Z.eqb k' k then Some v else map_get k r
  end.

Definition map_has (k : Z) (m : list (Z * promise)) : bool :=
  match map_get k m with Some _ => true | None => false end.

(** [m.set(k, v)]: a key already there keeps its place. *)
Fixpoint map_set (k : Z) (v : promise) (m : list (Z * promise))
  : list (Z * promise) :=
  match m with
  | [] => [(k, v)]
  | (k', v') :: r =>
      if Z.eqb k' k then (k, v) :: r else (k', v') :: map_set k v r
  end.

Definition map_delete (k : Z) (m : list (Z * promise)) : list (Z * promise) :=
  filter (fun e => negb (Z.eqb (fst e) k)) m.

(** *** Timers *)

Definition setTimeout (t : timer) (s : state) : state :=
  set_timers (timers s ++ [t]) s.

Definition clearTimeout (t : timer) (s : state) : state :=
  set_timers (remove timer_eq_dec t (timers s)) s.

(** A timer that fires leaves the armed ones. *)
Fixpoint disarm (t : timer) (l : list timer) : list timer :=
  match l with
  | [] => []
  | t' :: r => if timer_eq_dec t' t then r else t' :: disarm t r
  end.

Definition armed (t : timer) (s : state) : bool :=
  if in_dec timer_eq_dec t (timers s) then true else false.

Definition fired (t : timer) (s : state) : state :=
  set_timers (disarm t (timers s)) s.

(** *** [logError] (lines 44-48); the log file is not modelled *)

Definition logError (type : error_type) (s : state) : state :=
  set_errorCounts (count type (errorCounts s)) s.

(** *** [resolve] and [reject] of a promise of [sendToVanna]

    Each call is recorded.  The tool function that awaits the promise
    (testStatus, listUsers, queryDatabase) catches a rejection and calls
    [logError('database', ...)]; a promise settles once, so only its first
    call has that effect. *)

Definition settled_before (pr : promise) (s : state) : bool :=
  existsb (fun c => Nat.eqb (fst c) pr) (settlements s).

Definition settle (pr : promise) (o : outcome) (s : state) : state :=
  let s' := set_settlements (settlements s ++ [(pr, o)]) s in
  match o with
  | Resolved _ => s'
  | Rejected _ => if settled_before pr s then s' else logError type_database s'
  end.

Definition resolve (pr : promise) (response : json) : state -> state :=
  settle pr (Resolved response).

Definition reject (pr : promise) (e : error) : state -> state :=
  settle pr (Rejected e).

(** *** [startPython] (lines 113-196)

    [files_exist] is [fs.existsSync(scriptPath) && fs.existsSync(pythonPath)].
    The listeners it attaches are [on_stderr], [on_stdout], [on_error]
    and [on_exit] below, each with the [pid] of the spawn whose closure it
    lives in. *)

Definition startPython (files_exist : bool) (s : state) : state :=
  if (maxAttempts <=? initializationAttempts s)%Z then logError type_python s
  else
    let s := set_initializationAttempts (initializationAttempts s + 1) s in
    if negb files_exist then logError type_python s
    else
      let p := spawned s in
      let s := set_spawned (S p) (set_pythonProcess (Some p) s) in
      setTimeout (initTimer p) s.

(** *** [killPython] (lines 198-208); [kill_throws]: [kill] raised *)

Definition killPython (kill_throws : bool) (s : state) : state :=
  match pythonProcess s with
  | None => s
  | Some p =>
      if kill_throws then logError type_python s
      else
        set_isVannaReady false
          (set_pythonProcess None (set_signalled (signalled s ++ [p]) s))
  end.

(** The callback of [initTimer] (lines 134-138). *)
Definition on_initTimer (kill_throws : bool) (s : state) : state :=
  setTimeout restartTimer (killPython kill_throws (logError type_timeout s)).

(** The ['data'] listener of stderr (lines 140-150). *)
Definition on_stderr (p : pid) (data : list byte) (s : state) : state :=
  let output := toString data in
  if includes output (js "MCP_SERVER_READY") || includes output (js "ready")
  then
    set_initializationAttempts 0
      (set_isVannaReady true (clearTimeout (initTimer p) s))
  else s.

(** The ['error'] listener (lines 175-180). *)
Definition on_error (p : pid) (s : state) : state :=
  setTimeout restartTimer
    (set_isVannaReady false
       (logError type_python (clearTimeout (initTimer p) s))).

(** [for (const [, { reject }] of this.pendingRequests) reject(...)] *)
Definition reject_all (e : error) (s : state) : state :=
  fold_left (fun s entry => reject (snd entry) e s) (pendingRequests s) s.

Definition is_SIGTERM (signal : option string) : bool :=
  match signal with
  | Some sg => String.eqb sg "SIGTERM"
  | None => false
  end.

Definition is_zero (code : option Z) : bool :=
  match code with
  | Some c => Z.eqb c 0
  | None => false
  end.

(** The ['exit'] listener (lines 182-195); [code] and [signal] are [null]
    ([None]) or a value. *)
Definition on_exit (p : pid) (code : option Z) (signal : option string)
    (s : state) : state :=
  let s := set_isVannaReady false
             (logError type_python (clearTimeout (initTimer p) s)) in
  let s := reject_all (Error "Python process exited") s in
  let s := set_pendingRequests [] s in
  if negb (is_SIGTERM signal) && negb (is_zero code)
     && (initializationAttempts s <? maxAttempts)%Z
  then setTimeout restartTimer s
  else s.

(** *** [sendToVanna] (lines 210-236); [write_throws]: [stdin.write] raised *)

Inductive sent :=
| Threw (e : error)          (* the async function rejected at once *)
| Promised (pr : promise).

Definition sendToVanna (request : request) (write_throws : bool) (s : state)
  : sent * state :=
  match pythonProcess s, isVannaReady s with
  | Some p, true =>
      let id := req_id request in
      let pr := promises s in
      let s := set_promises (S pr) s in
      let s := set_pendingRequests (map_set id pr (pendingRequests s)) s in
      let s := setTimeout (requestTimer id pr) s in
      if write_throws then
        let s := clearTimeout (requestTimer id pr) s in
        let s := set_pendingRequests (map_delete id (pendingRequests s)) s in
        let s := logError type_python s in
        (Promised pr, reject pr (Error "Communication error. Please try again.") s)
      else
        (Promised pr, set_written (written s ++ [(p, request)]) s)
  | _, _ => (Threw (Error "System initializing. Please wait and try again."), s)
  end.

(** The callback of a request's timer (lines 219-225). *)
Definition on_requestTimer (id : Z) (pr : promise) (s : state) : state :=
  if map_has id (pendingRequests s) then
    let s := set_pendingRequests (map_delete id (pendingRequests s)) s in
    let s := logError type_timeout s in
    reject pr (Error "Request timeout. Try simpler question.") s
  else s.

(** *** The tool functions

    [id: this.requestId++] of the request object. *)
Definition next_request (name : string) (args : tool_args) (s : state)
  : request * state :=
  (mkRequest (requestId s) name args,
   set_issued (issued s ++ [requestId s]) (set_requestId (requestId s + 1) s)).

(** [await this.sendToVanna(request)] inside [try]: when the call
    rejected at once, [catch] logs a database error. *)
Definition awaited (r : sent * state) : state :=
  match r with
  | (Threw _, s) => logError type_database s
  | (Promised _, s) => s
  end.

(** [testStatus] (lines 396-432) *)
Definition testStatus (write_throws : bool) (s : state) : state :=
  if negb (isVannaReady s) then s
  else
    let '(request, s) := next_request "test_vanna_status" no_arguments s in
    awaited (sendToVanna request write_throws s).

(** [Math.max(1, Math.min(50, args.limit || 10))] (line 436), for
    [args.limit] [undefined] ([None]) or any JSON value; [None] when
    ToNumber throws. *)
Definition clamp_limit (limit : option json) : option number :=
  let l := match limit with
           | Some v => if truthy limit then ToNumber v else Some (integer 10)
           | None => Some (integer 10)
           end in
  match l with
  | Some x => Some (Math_max 1 (Math_min 50 x))
  | None => None
  end.

(** [listUsers] (lines 434-459); a TypeError of line 436 is caught by
    [catch] like a rejection, before an identifier is taken. *)
Definition listUsers (limit : option json) (write_throws : bool) (s : state)
  : state :=
  match clamp_limit limit with
  | None => logError type_database s
  | Some l =>
      let '(request, s) :=
        next_request "list_active_users" (limit_argument l) s in
      awaited (sendToVanna request write_throws s)
  end.

(** [queryDatabase] (lines 461-519); [valid] is
    [this.validateInput(args.question, 'question').isValid]. *)
Definition queryDatabase (question : jsstring) (valid : bool)
    (write_throws : bool) (s : state) : state :=
  if negb valid then logError type_validation s
  else if negb (isVannaReady s) then logError type_validation s
  else
    let '(request, s) :=
      next_request "query_totara_db" (question_argument question) s in
    awaited (sendToVanna request write_throws s).

(** The tools of the CallTool handler (lines 281-299).  [arguments] is an
    object or [undefined], as the request schema of the SDK admits it;
    [limit] is [args.limit], whatever it holds. *)
Inductive tool_call :=
| query_totara_db (question : jsstring) (valid : bool)
| test_vanna_status
| get_help
| list_active_users (limit : option json)
| get_error_stats
| test_vanna_server
| unknown_tool.

Definition callTool (call : tool_call) (write_throws : bool) (s : state)
  : state :=
  match call with
  | query_totara_db question valid => queryDatabase question valid write_throws s
  | test_vanna_status => testStatus write_throws s
  | list_active_users limit => listUsers limit write_throws s
  | get_help | get_error_stats | test_vanna_server => s
  | unknown_tool => logError type_validation s
  end.

(** *** The stdout listener and the event loop *)

Fixpoint get_buffer (p : pid) (l : list (pid * jsstring)) : jsstring :=
  match l with
  | [] => []
  | (q, b) :: r => if Nat.eqb q p then b else get_buffer p r
  end.

Definition put_buffer (p : pid) (b : jsstring) (l : list (pid * jsstring))
  : list (pid * jsstring) :=
  (p, b) :: filter (fun e => negb (Nat.eqb (fst e) p)) l.

(** How a worker process ends: [code] is a number and [signal] is [null],
    or the other way round. *)
Inductive exit_status :=
| exited (code : Z)
| killed (signal : string).

Definition code_of (st : exit_status) : option Z :=
  match st with exited c => Some c | killed _ => None end.

Definition signal_of (st : exit_status) : option string :=
  match st with exited _ => None | killed sg => Some sg end.

Inductive event :=
| ToolCall (call : tool_call) (write_throws : bool)
| StderrData (p : pid) (data : list byte)
| StdoutData (p : pid) (data : list byte)
| ProcessError (p : pid)
| ProcessExit (p : pid) (status : exit_status)
| InitTimerFires (p : pid) (kill_throws : bool)
| RestartTimerFires (files_exist : bool)
| RequestTimerFires (id : Z) (pr : promise)
| HostSignal (kill_throws : bool).

Section Server.

(** [JSON.parse]; [None] when it throws. *)
Variable JSON_parse : jsstring -> option json.

(** The body of the loop over the lines (lines 158-172).  Reading a
    property of [null] throws inside [try], like a syntax error. *)
Definition handle_line (line : jsstring) (s : state) : state :=
  let trimmed := trim line in
  if match trimmed with [] => false | _ :: _ => true end
     && startsWith trimmed (js "{")
  then
    match JSON_parse trimmed with
    | None | Some JNull => logError type_python s
    | Some response =>
        let id := prop (js "id") response in
        match (if truthy id then as_key id else None) with
        | None => s
        | Some k =>
            match map_get k (pendingRequests s) with
            | None => s
            | Some pr =>
                let s := set_pendingRequests
                           (map_delete k (pendingRequests s)) s in
                match prop (js "error") response with
                | Some e =>
                    if truthy (Some e)
                    then reject pr (ErrorOf (prop (js "message") e)) s
                    else resolve pr response s
                | None => resolve pr response s
                end
            end
        end
    end
  else s.

(** The ['data'] listener of stdout (lines 153-173). *)
Definition on_stdout (p : pid) (data : list byte) (s : state) : state :=
  let '(lines, buffer) := frame (get_buffer p (buffers s)) data in
  fold_left (fun s line => handle_line line s) lines
    (set_buffers (put_buffer p buffer (buffers s)) s).

(** One turn of the event loop.  A listener runs only for a process that
    was spawned, a timer fires only while armed, and the handlers of
    SIGINT and SIGTERM (lines 302-308) end the host. *)
Definition handle (e : event) (s : state) : state :=
  match e with
  | ToolCall call write_throws => callTool call write_throws s
  | StderrData p data =>
      if Nat.ltb p (spawned s) then on_stderr p data s else s
  | StdoutData p data =>
      if Nat.ltb p (spawned s) then on_stdout p data s else s
  | ProcessError p =>
      if Nat.ltb p (spawned s) then on_error p s else s
  | ProcessExit p status =>
      if Nat.ltb p (spawned s)
      then on_exit p (code_of status) (signal_of status) s
      else s
  | InitTimerFires p kill_throws =>
      if armed (initTimer p) s
      then on_initTimer kill_throws (fired (initTimer p) s)
      else s
  | RestartTimerFires files_exist =>
      if armed restartTimer s
      then startPython files_exist (fired restartTimer s)
      else s
  | RequestTimerFires id pr =>
      if armed (requestTimer id pr) s
      then on_requestTimer id pr (fired (requestTimer id pr) s)
      else s
  | HostSignal kill_throws => set_hostExited true (killPython kill_throws s)
  end.

Definition step (s : state) (e : event) : state :=
  if hostExited s then s else handle e s.

Definition run (s : state) (trace : list event) : state :=
  fold_left step trace s.

End Server.

(** [initializeVanna] (lines 89-93): the first [startPython]. *)
Definition boot (files_exist : bool) : state :=
  startPython files_exist constructed.

(** ** Regular expressions of the source

    The subset the source writes: alternatives of sequences of literal
    characters and [\s+], all with the flag [i] and without [u] or [g].
    Under [i] a pattern character, here always ASCII, matches the
    characters equal to it up to ASCII case: Canonicalize keeps a
    character from outside ASCII whose upper case is an ASCII letter. *)

Inductive atom :=
| Lit (c : N)
| Space.

Inductive item :=
| One (a : atom)
| Many (a : atom).

Definition sequence := list item.
Definition regex := list sequence.

Definition fold_case (c : N) : N :=
  if (N.leb 97 c && N.leb c 122)%bool then (c - 32)%N else c.

Definition atom_matches (a : atom) (c : N) : bool :=
  match a with
  | Lit p => N.eqb (fold_case c) (fold_case p)
  | Space => isWhiteSpace c
  end.

(** One or more characters of [a] at the head of [s], then [k]. *)
Fixpoint match_many (a : atom) (k : jsstring -> bool) (s : jsstring) : bool :=
  match s with
  | [] => false
  | c :: r => atom_matches a c && (match_many a k r || k r)
  end.

(** The sequence matches at the head of [s]. *)
Fixpoint match_sequence (items : sequence) (s : jsstring) : bool :=
  match items with
  | [] => true
  | One a :: rest =>
      match s with
      | [] => false
      | c :: r => atom_matches a c && match_sequence rest r
      end
  | Many a :: rest => match_many a (match_sequence rest) s
  end.

(** [r.test(s)]: some alternative matches at some position. *)
Fixpoint regex_test (r : regex) (s : jsstring) : bool :=
  existsb (fun alt => match_sequence alt s) r
  || match s with
     | [] => false
     | _ :: t => regex_test r t
     end.

(** The characters of a literal word of a pattern. *)
Definition word (s : string) : sequence :=
  map (fun c => One (Lit c)) (js s).

(** ** [validateInput] (lines 50-68) *)

(** [/drop\s+table|delete\s+from|truncate|alter\s+table|create\s+table|insert\s+into|update\s+set/i] *)
Definition dangerous : regex :=
  [word "drop" ++ [Many Space] ++ word "table";
   word "delete" ++ [Many Space] ++ word "from";
   word "truncate";
   word "alter" ++ [Many Space] ++ word "table";
   word "create" ++ [Many Space] ++ word "table";
   word "insert" ++ [Many Space] ++ word "into";
   word "update" ++ [Many Space] ++ word "set"].

(** [{ isValid, error }] *)
Record validity := mkValidity {
  isValid : bool;
  validation_error : option string
}.

Definition invalid (text : string) : validity := mkValidity false (Some text).

Definition validateInput (input : option json) (type : string) : validity :=
  if negb (truthy input) then invalid "ERROR: Missing input"
  else if String.eqb type "question" then
    match input with
    | Some (JStr s) =>
        let trimmed := trim s in
        if Nat.ltb (List.length trimmed) 5
        then invalid "ERROR: Question too short (min 5 chars)"
        else if Nat.ltb 500 (List.length trimmed)
        then invalid "ERROR: Question too long (max 500 chars)"
        else if regex_test dangerous trimmed
        then invalid "ERROR: Unsafe operations not allowed. Only SELECT queries permitted."
        else mkValidity true None
    | _ => invalid "ERROR: Question must be text"
    end
  else mkValidity true None.

(** ** [generateUserFriendlyError] (lines 70-87)

    [message] is [error.message] of an [Error]; when it is empty,
    [error.toString()] gives ["Error"]. *)

Definition patterns : list (regex * string) :=
  [([word "timeout"], "Request timeout. Try simpler question or wait.");
   ([word "connection"; word "network"], "Connection issue. Please try again.");
   ([word "syntax error"; word "invalid sql"],
    "Query error. Please rephrase clearly.");
   ([word "permission"; word "access denied"],
    "Access denied to requested data.");
   ([word "not found"; word "doesn't exist"], "Requested data not found.");
   ([word "python process"], "System restarting. Try again shortly.")]%string.

Definition BULLET : N := 8226%N.

Definition advice : jsstring :=
  [LF; LF] ++ js "Try:" ++ [LF; BULLET] ++ js " Rephrase question"
  ++ [LF; BULLET] ++ js " Use 'get help'"
  ++ [LF; BULLET] ++ js " Check system with 'test vanna status'".

(** [error.message || error.toString()] *)
Definition errorMessage (message : jsstring) : jsstring :=
  match message with
  | [] => js "Error"
  | _ :: _ => message
  end.

Definition generateUserFriendlyError (message : jsstring) : jsstring :=
  match find (fun p => regex_test (fst p) (errorMessage message)) patterns with
  | Some (_, response) => js response
  | None => js "Error: " ++ errorMessage message ++ advice
  end.

(** The text of the reply to a call of a tool that the [switch] of the
    CallTool handler does not know (lines 293-297):
    [generateUserFriendlyError(new Error(`Unknown tool: ${name}`))]. *)
Definition unknown_tool_text (name : jsstring) : jsstring :=
  generateUserFriendlyError (js "Unknown tool: " ++ name).

(** ** [getErrorStats] (lines 341-362): the health line

    [total < 5 ? 'Excellent' : total < 15 ? 'Good' : 'Needs Attention'] *)
Definition health (c : counts) : string :=
  if total c <? 5 then "Excellent"
  else if total c <? 15 then "Good"
  else "Needs Attention".

(** ** [ensureFiles] (lines 95-111) and [initializeVanna] (lines 89-93)

    The disk as [fs.existsSync] and [fs.copyFileSync] see it: the content
    of every path that holds a file. *)

Definition path := string.
Definition disk := path -> option (list byte).

Definition existsSync (d : disk) (p : path) : bool :=
  match d p with
  | Some _ => true
  | None => false
  end.

(** [fs.copyFileSync(source, target)] when it returns. *)
Definition copyFileSync (source target : path) (d : disk) : disk :=
  fun p => if String.eqb p target then d source else d p.

Record file := mkFile {
  source : path;
  target : path
}.

(** The body of the loop over [files]; [copy_throws]: [copyFileSync]
    raised, and left the disk as it was. *)
Definition ensureFile (f : file) (copy_throws : bool) (w : disk * state)
  : disk * state :=
  let '(d, s) := w in
  if negb (existsSync d (target f)) && existsSync d (source f) then
    if copy_throws then (d, logError type_python s)
    else (copyFileSync (source f) (target f) d, s)
  else (d, s).

Definition script_source : path :=
  "C:\Users\Nikhil-HL\mcp-test\minimal_mcp_server.py"%string.

Definition env_source : path := "C:\Users\Nikhil-HL\mcp-test\.env"%string.

Definition pythonPath : path :=
  "C:\Users\Nikhil-HL\AppData\Local\Programs\Python\Python313\python.exe"%string.

(** [scriptPath] and [envPath] are [path.join(__dirname, ...)] of the two
    file names. *)
Definition ensureFiles (scriptPath envPath : path)
    (script_throws env_throws : bool) (w : disk * state) : disk * state :=
  ensureFile (mkFile env_source envPath) env_throws
    (ensureFile (mkFile script_source scriptPath) script_throws w).

(** [await this.ensureFiles(); this.startPython()] on the fresh object:
    [startPython] looks for the script and the interpreter on the disk
    that [ensureFiles] leaves. *)
Definition initializeVanna (scriptPath envPath : path)
    (script_throws env_throws : bool) (d : disk) : disk * state :=
  let '(d', s) :=
    ensureFiles scriptPath envPath script_throws env_throws (d, constructed) in
  (d', startPython (existsSync d' scriptPath && existsSync d' pythonPath) s).

(** ** Vocabulary of the statements *)

Definition bytes_of (s : string) : list byte :=
  map byte_of_ascii (list_ascii_of_string s).

Definition is_ascii (data : list byte) : Prop :=
  Forall (fun b => (Byte.to_N b < 128)%N) data.

Definition NotReady : error :=
  Error "System initializing. Please wait and try again.".

Definition ProcessExited : error := Error "Python process exited".

Definition RequestTimedOut : error :=
  Error "Request timeout. Try simpler question.".

Definition WriteFailed : error :=
  Error "Communication error. Please try again.".

(** What the loop body makes of a line: not looked at (empty after
    [trim], or not starting with an opening brace), caught by [catch], or
    a parsed response. *)
Inductive line_kind :=
| not_a_message
| unparsable
| message (response : json).

Definition classify (JSON_parse : jsstring -> option json) (line : jsstring)
  : line_kind :=
  let trimmed := trim line in
  if match trimmed with [] => false | _ :: _ => true end
     && startsWith trimmed (js "{")
  then
    match JSON_parse trimmed with
    | None | Some JNull => unparsable
    | Some response => message response
    end
  else not_a_message.

(** [response.id], when it is truthy and can be a key of the table. *)
Definition response_key (response : json) : option Z :=
  if truthy (prop (js "id") response)
  then as_key (prop (js "id") response)
  else None.

(** [response.error ? reject(new Error(response.error.message)) : resolve(response)] *)
Definition response_outcome (response : json) : outcome :=
  match prop (js "error") response with
  | Some e =>
      if truthy (Some e)
      then Rejected (ErrorOf (prop (js "message") e))
      else Resolved response
  | None => Resolved response
  end.

(** The number of scheduled [startPython] calls. *)
Definition restarts (s : state) : nat :=
  count_occ timer_eq_dec (timers s) restartTimer.

(** The event is a stderr chunk that the listener takes for the readiness
    signal. *)
Definition is_ready_signal (e : event) : bool :=
  match e with
  | StderrData _ data =>
      includes (toString data) (js "MCP_SERVER_READY")
      || includes (toString data) (js "ready")
  | _ => false
  end.

(** The fields the restart policy reads and writes. *)
Definition same_supervision (s s' : state) : Prop :=
  initializationAttempts s' = initializationAttempts s
  /\ spawned s' = spawned s
  /\ isVannaReady s' = isVannaReady s
  /\ timers s' = timers s.

(** What a pattern matches, apart from the matcher: the strings a
    sequence matches in full. *)
Inductive matches : sequence -> jsstring -> Prop :=
| matches_nil : matches [] []
| matches_one a c rest w :
    atom_matches a c = true -> matches rest w ->
    matches (One a :: rest) (c :: w)
| matches_many a c cs rest w :
    atom_matches a c = true ->
    Forall (fun x => atom_matches a x = true) cs ->
    matches rest w ->
    matches (Many a :: rest) (c :: cs ++ w).

(** [s] has a piece that some alternative of [r] matches. *)
Definition found (r : regex) (s : jsstring) : Prop :=
  exists alt pre w suf, In alt r /\ s = pre ++ w ++ suf /\ matches alt w.

(** The same letters up to ASCII case. *)
Definition same_word (w : jsstring) (pat : string) : Prop :=
  map fold_case w = map fold_case (js pat).

Definition contains_word (s : jsstring) (pat : string) : Prop :=
  exists pre w suf, s = pre ++ w ++ suf /\ same_word w pat.

Definition whitespace (ws : jsstring) : Prop :=
  Forall (fun c => isWhiteSpace c = true) ws.

Definition contains_words (s : jsstring) (pat1 pat2 : string) : Prop :=
  exists pre w1 ws w2 suf,
    s = pre ++ w1 ++ ws ++ w2 ++ suf
    /\ same_word w1 pat1 /\ ws <> [] /\ whitespace ws /\ same_word w2 pat2.

(** An ASCII letter of a pattern, in lower case. *)
Definition letter (c : N) : bool := N.leb 97 c && N.leb c 122.

Definition solid (i : item) : bool :=
  match i with
  | One (Lit p) => letter p
  | _ => false
  end.

(** The sequence starts and ends with a letter. *)
Definition solid_start (items : sequence) : bool :=
  match items with
  | i :: _ => solid i
  | [] => false
  end.

Definition solid_end (items : sequence) : bool :=
  match rev items with
  | i :: _ => solid i
  | [] => false
  end.

(** One of the patterns of [dangerous] occurs in [s]. *)
Definition unsafe (s : jsstring) : Prop :=
  contains_words s "drop" "table" \/ contains_words s "delete" "from"
  \/ contains_word s "truncate" \/ contains_words s "alter" "table"
  \/ contains_words s "create" "table" \/ contains_words s "insert" "into"
  \/ contains_words s "update" "set".

(** The stdout chunks of worker [p] in a trace, in order. *)
Fixpoint stdout_of (p : pid) (trace : list event) : list (list byte) :=
  match trace with
  | [] => []
  | StdoutData q data :: rest =>
      if Nat.eqb q p then data :: stdout_of p rest else stdout_of p rest
  | _ :: rest => stdout_of p rest
  end.

(** No count of [c'] is below that of [c]. *)
Definition counts_le (c c' : counts) : Prop :=
  total c <= total c' /\ validation c <= validation c'
  /\ database c <= database c' /\ python c <= python c'
  /\ timeout c <= timeout c'.

(** The total is the sum of the four categories. *)
Definition balanced (c : counts) : Prop :=
  total c = validation c + database c + python c + timeout c.

(** From [c] to [c'] errors were logged, each in one category. *)
Definition logged (c c' : counts) : Prop :=
  counts_le c c'
  /\ total c' - total c
     = (validation c' - validation c) + (database c' - database c)
       + (python c' - python c) + (timeout c' - timeout c).

(** The readiness signals of a trace. *)
Definition ready_signals (trace : list event) : nat :=
  List.length (filter is_ready_signal trace).

(** Nothing has gone to a worker yet: not ready, no request pending,
    written or settled, no promise made. *)
Definition idle (s : state) : Prop :=
  isVannaReady s = false /\ pendingRequests s = [] /\ written s = []
  /\ settlements s = [] /\ promises s = 0%nat.

(** The request a tool call builds when the server is ready: its name and
    its arguments. *)
Definition request_of (call : tool_call) : option (string * tool_args) :=
  match call with
  | query_totara_db question valid =>
      if valid then Some ("query_totara_db"%string, question_argument question)
      else None
  | test_vanna_status => Some ("test_vanna_status"%string, no_arguments)
  | list_active_users limit =>
      match clamp_limit limit with
      | Some l => Some ("list_active_users"%string, limit_argument l)
      | None => None
      end
  | get_help | get_error_stats | test_vanna_server | unknown_tool => None
  end.

(** A limit as [listUsers] sends it: NaN, or between 1 and 50. *)
Definition clamped (l : number) : Prop :=
  l = NaN \/ exists q, l = Finite q /\ (1 <= q <= 50)%Q.

(** The requests the tool functions build. *)
Definition well_formed (r : request) : Prop :=
  (req_name r = "test_vanna_status"%string /\ req_arguments r = no_arguments)
  \/ (req_name r = "list_active_users"%string
      /\ exists l, req_arguments r = limit_argument l /\ clamped l)
  \/ (req_name r = "query_totara_db"%string
      /\ exists q, req_arguments r = question_argument q).

(** The [valid] of a query call is the verdict of [validateInput] on its
    question, as in [queryDatabase]. *)
Definition validated (e : event) : Prop :=
  match e with
  | ToolCall (query_totara_db question valid) _ =>
      valid = isValid (validateInput (Some (JStr question)) "question")
  | _ => True
  end.

(** Where a settlement comes from: the timeout of the request, the exit of
    the worker, a failed write, or a response line with the identifier of
    a request that was issued. *)
Definition explained (s : state) (x : promise * outcome) : Prop :=
  snd x = Rejected RequestTimedOut \/ snd x = Rejected ProcessExited
  \/ snd x = Rejected WriteFailed
  \/ exists response id,
       snd x = response_outcome response
       /\ response_key response = Some id /\ In id (issued s).

(** The same for one handler, from the state it starts in: a response line
    settles the promise the table holds for its identifier. *)
Definition settled_by (s : state) (x : promise * outcome) : Prop :=
  snd x = Rejected RequestTimedOut \/ snd x = Rejected ProcessExited
  \/ snd x = Rejected WriteFailed
  \/ exists response id,
       snd x = response_outcome response
       /\ response_key response = Some id
       /\ In (id, fst x) (pendingRequests s).

(** ** The invariant of the request table

    What every reachable state satisfies, and the pieces a handler is made
    of as far as the table, the settlements and the identifiers go. *)

Record Inv (s : state) : Prop := {
  inv_keys : NoDup (map fst (pendingRequests s));
  inv_promises : NoDup (map snd (pendingRequests s));
  inv_pending : forall id pr,
      In (id, pr) (pendingRequests s) ->
      In id (issued s) /\ (pr < promises s)%nat
      /\ ~ In pr (map fst (settlements s))
      /\ In (requestTimer id pr) (timers s);
  inv_timers : forall id pr,
      In (requestTimer id pr) (timers s) ->
      In id (issued s) /\ (pr < promises s)%nat
      /\ forall pr', In (id, pr') (pendingRequests s) -> pr' = pr;
  inv_settled : NoDup (map fst (settlements s));
  inv_settled_bound : forall pr,
      In pr (map fst (settlements s)) -> (pr < promises s)%nat;
  inv_issued : StronglySorted Z.lt (issued s);
  inv_issued_bound : forall id, In id (issued s) -> id < requestId s
}.

Arguments inv_keys {s}.
Arguments inv_promises {s}.
Arguments inv_pending {s}.
Arguments inv_timers {s}.
Arguments inv_settled {s}.
Arguments inv_settled_bound {s}.
Arguments inv_issued {s}.
Arguments inv_issued_bound {s}.

(** Request timers only leave, and not while their request is pending. *)
Definition timers_kept (s s' : state) : Prop :=
  (forall id pr, In (requestTimer id pr) (timers s') ->
                 In (requestTimer id pr) (timers s))
  /\ (forall id pr, In (id, pr) (pendingRequests s') ->
                    In (requestTimer id pr) (timers s) ->
                    In (requestTimer id pr) (timers s')).

(** What one piece of a handler does to the request table. *)
Inductive request_step (s s' : state) : Prop :=
| step_frame :
    pendingRequests s' = pendingRequests s ->
    settlements s' = settlements s ->
    promises s' = promises s ->
    issued s' = issued s ->
    requestId s' = requestId s ->
    timers_kept s s' ->
    request_step s s'
| step_settle id pr o :
    In (id, pr) (pendingRequests s) ->
    pendingRequests s' = map_delete id (pendingRequests s) ->
    settlements s' = settlements s ++ [(pr, o)] ->
    promises s' = promises s ->
    issued s' = issued s ->
    requestId s' = requestId s ->
    timers_kept s s' ->
    request_step s s'
| step_purge e :
    pendingRequests s' = [] ->
    settlements s'
    = settlements s
      ++ map (fun x : Z * promise => (snd x, Rejected e)) (pendingRequests s) ->
    promises s' = promises s ->
    issued s' = issued s ->
    requestId s' = requestId s ->
    timers_kept s s' ->
    request_step s s'
| step_issue :
    pendingRequests s' = pendingRequests s ->
    settlements s' = settlements s ->
    promises s' = promises s ->
    issued s' = issued s ++ [requestId s] ->
    requestId s' = requestId s + 1 ->
    timers_kept s s' ->
    request_step s s'
| step_submit :
    pendingRequests s'
    = map_set (requestId s) (promises s) (pendingRequests s) ->
    settlements s' = settlements s ->
    promises s' = S (promises s) ->
    issued s' = issued s ++ [requestId s] ->
    requestId s' = requestId s + 1 ->
    (forall t, In t (timers s') <->
               In t (timers s) \/ t = requestTimer (requestId s) (promises s)) ->
    request_step s s'.

Inductive request_steps (s : state) : state -> Prop :=
| steps_none : request_steps s s
| steps_more s1 s2 :
    request_steps s s1 -> request_step s1 s2 -> request_steps s s2.

(** ** Sample runs *)

Definition quote : N := 34%N.

(** The line [{"id":1}] as the worker writes it. *)
Definition line_id_1 : jsstring :=
  js "{" ++ [quote] ++ js "id" ++ [quote] ++ js ":1}".

Definition chunk_id_1 : list byte :=
  bytes_of "{" ++ [x22] ++ bytes_of "id" ++ [x22] ++ bytes_of ":1}" ++ [x0a].

(** [JSON.parse] on the line of the sample runs; they feed it no other
    text. *)
Definition JSON_parse_sample (text : jsstring) : option json :=
  if jsstring_eq_dec text line_id_1
  then Some (JObj [(js "id", JNum 1%Q)])
  else None.

(** A worker that started and signalled readiness. *)
Definition ready_trace : list event :=
  [StderrData 0%nat (bytes_of "MCP_SERVER_READY")].

Definition ready_state : state :=
  run JSON_parse_sample (boot true) ready_trace.

(** Then one tool call, whose request is pending. *)
Definition one_pending_trace : list event :=
  ready_trace ++ [ToolCall (list_active_users None) false].

Definition one_pending : state :=
  run JSON_parse_sample (boot true) one_pending_trace.

(** Or three of them. *)
Definition three_pending : state :=
  run JSON_parse_sample ready_state
    [ToolCall (list_active_users None) false;
     ToolCall test_vanna_status false;
     ToolCall (query_totara_db (js "Show me all active users") true) false].

(** Three launches, each but the last ended by an exit with code 1. *)
Definition third_attempt : state :=
  run JSON_parse_sample (boot true)
    [ProcessExit 0%nat (exited 1); RestartTimerFires true;
     ProcessExit 1%nat (exited 1); RestartTimerFires true].

(** * Properties *)

(** ** Strings and decoding *)

Example toString_ascii : toString [x68; x69; x0a] = js "hi" ++ [LF].
Proof. reflexivity. Qed.

Example toString_two_byte_character : toString [xc3; xa9] = [233%N].
Proof. reflexivity. Qed.

Example toString_cut_character :
  toString [xc3] = [U_FFFD] /\ toString [xa9; x0a] = [U_FFFD; LF].
Proof. split; reflexivity. Qed.

Example toString_surrogate_pair :
  toString [xf0; x9f; x98; x80] = [55357; 56832]%N.
Proof. reflexivity. Qed.

Example split_lines :
  split LF (js "ab" ++ [LF] ++ js "c") = [js "ab"; js "c"]
  /\ split LF (js "ab" ++ [LF]) = [js "ab"; []]
  /\ split LF [] = [[]].
Proof. repeat split; reflexivity. Qed.

Example trim_line : trim (js "  {a}" ++ [13%N]) = js "{a}".
Proof. reflexivity. Qed.

Example includes_ready :
  includes (js "already") (js "ready") = true
  /\ includes (js "read") (js "ready") = false.
Proof. split; reflexivity. Qed.

Lemma split_not_nil sep s : split sep s <> [].
Proof.
  destruct s as [|c r]; simpl; [discriminate|].
  destruct (N.eqb c sep); [discriminate|].
  destruct (split sep r); discriminate.
Qed.

Lemma split_without_separator sep s : ~ In sep s -> split sep s = [s].
Proof.
  induction s as [|c r IH]; simpl; intros H; [reflexivity|].
  destruct (N.eqb_spec c sep) as [->|_]; [exfalso; auto|].
  rewrite IH by tauto. reflexivity.
Qed.

Lemma split_pieces_without_separator sep s piece :
  In piece (split sep s) -> ~ In sep piece.
Proof.
  revert piece. induction s as [|c r IH]; simpl; intros piece H.
  - destruct H as [<-|[]]. auto.
  - destruct (N.eqb_spec c sep) as [->|Hne].
    + destruct H as [<-|H]; auto.
    + destruct (split sep r) as [|h t] eqn:E.
      * destruct H as [<-|[]]. simpl; intuition.
      * destruct H as [<-|H].
        -- simpl. intros [->|Hin]; [congruence|].
           revert Hin. apply IH. now left.
        -- apply IH. now right.
Qed.

Lemma last_In {A : Type} (l : list A) (d : A) : l <> [] -> In (last l d) l.
Proof.
  induction l as [|x [|y r] IH]; intros H; [contradiction| now left |].
  right. apply IH. discriminate.
Qed.

Lemma last_split_without_separator sep s : ~ In sep (last (split sep s) []).
Proof.
  apply split_pieces_without_separator with (s := s).
  apply last_In, split_not_nil.
Qed.

(** Splitting a concatenation: the complete pieces of the first part,
    then the pieces of its last piece followed by the second part. *)
Lemma split_app sep a b :
  split sep (a ++ b)
  = removelast (split sep a) ++ split sep (last (split sep a) [] ++ b).
Proof.
  induction a as [|c r IH]; [reflexivity|].
  cbn [app split].
  destruct (N.eqb_spec c sep) as [->|Hne].
  - rewrite IH.
    destruct (split sep r) as [|x l] eqn:E; [now apply split_not_nil in E|].
    reflexivity.
  - rewrite IH.
    destruct (split sep r) as [|x [|y l]] eqn:E; [now apply split_not_nil in E| |].
    + cbn [removelast last app split].
      destruct (N.eqb_spec c sep); [contradiction|]. reflexivity.
    + reflexivity.
Qed.

Lemma frame_all_string_concat chunks : forall buffer,
  ~ In LF buffer ->
  frame_all_string buffer chunks = frame_string buffer (List.concat chunks).
Proof.
  induction chunks as [|chunk rest IH]; intros buffer Hb.
  - unfold frame_string. cbn [frame_all_string List.concat].
    rewrite app_nil_r, split_without_separator by assumption. reflexivity.
  - cbn [frame_all_string List.concat].
    unfold frame_string at 1.
    rewrite IH by apply last_split_without_separator.
    unfold frame_string.
    rewrite app_assoc, (split_app LF (buffer ++ chunk)).
    set (tail := split LF (last (split LF (buffer ++ chunk)) [] ++ List.concat rest)).
    assert (Ht : tail <> []) by apply split_not_nil.
    rewrite removelast_app by assumption.
    f_equal.
    destruct (exists_last Ht) as (l' & a & ->).
    rewrite app_assoc, !last_last. reflexivity.
Qed.

Lemma utf8_decode_ascii a : forall b,
  Forall (fun x => (x < 128)%N) a ->
  utf8_decode Idle (a ++ b) = a ++ utf8_decode Idle b.
Proof.
  induction a as [|x r IH]; intros b H; [reflexivity|].
  inversion H as [|? ? Hx Hr]; subst.
  cbn [app utf8_decode utf8_step]. unfold utf8_lead.
  apply N.ltb_lt in Hx. rewrite Hx. cbn [app]. now rewrite IH.
Qed.

Lemma toString_ascii_app a b :
  is_ascii a -> toString (a ++ b) = toString a ++ toString b.
Proof.
  intros H. unfold toString.
  assert (H' : Forall (fun x => (x < 128)%N) (map Byte.to_N a)).
  { unfold is_ascii in H. rewrite Forall_forall in *. intros x Hx.
    apply in_map_iff in Hx as (y & <- & Hy). auto. }
  rewrite map_app, utf8_decode_ascii by assumption.
  rewrite flat_map_app.
  rewrite <- (app_nil_r (map Byte.to_N a)) at 2.
  rewrite utf8_decode_ascii by assumption.
  cbn [utf8_decode]. now rewrite app_nil_r.
Qed.

Lemma toString_ascii_concat chunks :
  Forall is_ascii chunks ->
  toString (List.concat chunks) = List.concat (map toString chunks).
Proof.
  induction 1 as [|c r Hc Hr IH]; [reflexivity|].
  cbn [List.concat map]. now rewrite toString_ascii_app, IH.
Qed.

Lemma frame_all_as_strings chunks : forall buffer,
  frame_all buffer chunks = frame_all_string buffer (map toString chunks).
Proof.
  induction chunks as [|c r IH]; intros buffer; [reflexivity|].
  cbn [frame_all frame_all_string map]. unfold frame.
  destruct (frame_string buffer (toString c)) as [lines buffer'].
  now rewrite IH.
Qed.

(** ** The line framer (lines 152-157) *)

Lemma frame_all_decoded chunks :
  frame_all [] chunks = frame_string [] (List.concat (map toString chunks)).
Proof.
  rewrite frame_all_as_strings. apply frame_all_string_concat. intros [].
Qed.

(** After decoding, the framer does not depend on the chunking: the
    lines handed on over a run of chunks are the complete lines of the
    concatenated chunk strings, and the buffer is what follows the last
    newline. *)
Theorem framer_independent_of_chunking_after_decoding chunks :
  frame_all [] chunks
  = (removelast (split LF (List.concat (map toString chunks))),
     last (split LF (List.concat (map toString chunks))) []).
Proof. apply frame_all_decoded. Qed.

(** For a stream of ASCII bytes the framer hands on the same lines, and
    keeps the same trailing fragment, however the stream is cut into
    chunks. *)
Theorem framer_ascii_chunk_independent chunks :
  Forall is_ascii chunks ->
  frame_all [] chunks = frame [] (List.concat chunks)
  /\ snd (frame_all [] chunks)
     = last (split LF (toString (List.concat chunks))) [].
Proof.
  intros H. rewrite frame_all_decoded.
  rewrite <- toString_ascii_concat by assumption.
  split; reflexivity.
Qed.

Lemma framer_ascii_chunk_independent_witness :
  frame_all [] [[x61; x62]; [x63; x0a; x64]]
  = frame [] [x61; x62; x63; x0a; x64]
  /\ frame [] [x61; x62; x63; x0a; x64] = ([js "abc"], js "d").
Proof.
  split.
  - apply (framer_ascii_chunk_independent [[x61; x62]; [x63; x0a; x64]]).
    repeat constructor; vm_compute; reflexivity.
  - reflexivity.
Defined.

(** C9: the lines the framer produces depend on where the chunk
    boundaries fall.  The three bytes of "é\n" arriving as one chunk give
    the line "é"; the same bytes arriving as [c3] and then [a9 0a] give a
    line of two U+FFFD, because each chunk is decoded by itself. *)
Theorem framer_lines_depend_on_chunk_boundaries :
  List.concat [[xc3; xa9; x0a]] = List.concat [[xc3]; [xa9; x0a]]
  /\ frame_all [] [[xc3; xa9; x0a]] = ([[233%N]], [])
  /\ frame_all [] [[xc3]; [xa9; x0a]] = ([[U_FFFD; U_FFFD]], [])
  /\ fst (frame_all [] [[xc3; xa9; x0a]]) <> fst (frame_all [] [[xc3]; [xa9; x0a]]).
Proof.
  repeat split; try reflexivity. vm_compute. discriminate.
Qed.

(** ** Readiness (lines 140-150) *)

Lemma remove_not_In (t : timer) l : ~ In t (remove timer_eq_dec t l).
Proof. apply remove_In. Qed.

(** C10: a stderr chunk whose text contains "MCP_SERVER_READY" or
    "ready" anywhere makes the server ready: the init timer of that spawn
    is cleared, the attempt counter is zero, [isVannaReady] is true, and
    [sendToVanna] accepts requests as long as a process is set.  Any other
    chunk changes nothing. *)
Theorem stderr_chunk_containing_ready_makes_ready p data s :
  let s' := on_stderr p data s in
  (includes (toString data) (js "MCP_SERVER_READY") = true
   \/ includes (toString data) (js "ready") = true ->
   ~ In (initTimer p) (timers s')
   /\ initializationAttempts s' = 0
   /\ isVannaReady s' = true
   /\ pythonProcess s' = pythonProcess s
   /\ forall q request write_throws,
        pythonProcess s = Some q ->
        fst (sendToVanna request write_throws s') = Promised (promises s))
  /\ (includes (toString data) (js "MCP_SERVER_READY") = false ->
      includes (toString data) (js "ready") = false ->
      s' = s).
Proof.
  unfold on_stderr.
  destruct (includes (toString data) (js "MCP_SERVER_READY")) eqn:E1;
    destruct (includes (toString data) (js "ready")) eqn:E2;
    cbv beta iota zeta delta [orb]; (split; [|try discriminate; reflexivity]);
    intros H;
    try (destruct H; discriminate);
    (repeat split; [apply remove_not_In|]);
    intros q request write_throws Hq; unfold sendToVanna;
    cbn [pythonProcess isVannaReady set_initializationAttempts
         set_isVannaReady clearTimeout set_timers promises];
    rewrite Hq; now destruct write_throws.
Qed.

Lemma stderr_ready_inside_already :
  let s := boot true in
  let s' := on_stderr 0%nat (bytes_of "worker already running") s in
  includes (toString (bytes_of "worker already running")) (js "ready") = true
  /\ armed (initTimer 0%nat) s = true
  /\ initializationAttempts s = 1
  /\ ~ In (initTimer 0%nat) (timers s')
  /\ initializationAttempts s' = 0
  /\ isVannaReady s' = true.
Proof.
  repeat split; try reflexivity;
    apply (stderr_chunk_containing_ready_makes_ready 0%nat
             (bytes_of "worker already running") (boot true));
    right; reflexivity.
Defined.

(** ** Frames of the settlement functions *)

Lemma settle_spec pr o s :
  exists c,
    settle pr o s
    = set_errorCounts c (set_settlements (settlements s ++ [(pr, o)]) s).
Proof.
  unfold settle. destruct o; [|destruct (settled_before pr s)];
    eexists; destruct s; reflexivity.
Qed.

Lemma reject_each_spec e l : forall s,
  exists c,
    fold_left (fun s entry => reject (snd entry) e s) l s
    = set_errorCounts c
        (set_settlements
           (settlements s
            ++ map (fun x : Z * promise => (snd x, Rejected e)) l) s).
Proof.
  induction l as [|x l IH]; intros s; cbn [fold_left map].
  - exists (errorCounts s). rewrite app_nil_r. now destruct s.
  - destruct (IH (reject (snd x) e s)) as [c ->].
    unfold reject. destruct (settle_spec (snd x) (Rejected e) s) as [c' ->].
    exists c. cbn. now rewrite <- app_assoc.
Qed.

Lemma reject_all_spec e s :
  exists c,
    reject_all e s
    = set_errorCounts c
        (set_settlements
           (settlements s
            ++ map (fun x : Z * promise => (snd x, Rejected e))
                 (pendingRequests s)) s).
Proof. apply reject_each_spec. Qed.

(** ** Requests while not ready (lines 210-213) *)

Lemma sendToVanna_not_ready request write_throws s :
  pythonProcess s = None \/ isVannaReady s = false ->
  sendToVanna request write_throws s = (Threw NotReady, s).
Proof.
  unfold sendToVanna.
  intros [-> | ->]; [reflexivity|]. now destruct (pythonProcess s).
Qed.

(** C3: while there is no process or the readiness flag is false,
    [sendToVanna] rejects at once with the "System initializing" error and
    leaves the state as it was; no tool call registers a pending request,
    arms a timer, settles anything or writes to the worker. *)
Theorem not_ready_rejects_without_registering_or_writing s :
  pythonProcess s = None \/ isVannaReady s = false ->
  (forall request write_throws,
      sendToVanna request write_throws s = (Threw NotReady, s))
  /\ (forall call write_throws,
        let s' := callTool call write_throws s in
        pendingRequests s' = pendingRequests s
        /\ written s' = written s
        /\ timers s' = timers s
        /\ settlements s' = settlements s).
Proof.
  intros H. split.
  - intros. now apply sendToVanna_not_ready.
  - intros call write_throws.
    assert (Hs : forall name args,
               let '(request, s1) := next_request name args s in
               let s' := awaited (sendToVanna request write_throws s1) in
               pendingRequests s' = pendingRequests s
               /\ written s' = written s
               /\ timers s' = timers s
               /\ settlements s' = settlements s).
    { intros name args. cbn [next_request].
      rewrite sendToVanna_not_ready by exact H. cbn. auto. }
    destruct call as [question valid| | |limit| | |]; cbn; auto.
    + unfold queryDatabase.
      destruct valid; cbn; auto.
      destruct (isVannaReady s) eqn:E; cbn; auto. apply Hs.
    + unfold testStatus. destruct (isVannaReady s) eqn:E; cbn; auto. apply Hs.
    + unfold listUsers. destruct (clamp_limit limit) as [l|]; [apply Hs|].
      cbn. auto.
Qed.

Lemma not_ready_witness :
  sendToVanna (mkRequest 1 "list_active_users" (limit_argument 10)) false
    (boot true)
  = (Threw NotReady, boot true)
  /\ written (callTool (list_active_users None) false (boot true)) = [].
Proof.
  assert (H : pythonProcess (boot true) = None
              \/ isVannaReady (boot true) = false) by (right; reflexivity).
  split.
  - apply (proj1 (not_ready_rejects_without_registering_or_writing
                    (boot true) H)).
  - apply (proj2 (not_ready_rejects_without_registering_or_writing
                    (boot true) H) (list_active_users None) false).
Defined.

(** ** The exit listener (lines 182-195) *)

Lemma on_exit_spec p code signal s :
  exists c,
    on_exit p code signal s
    = let s1 :=
        set_pendingRequests []
          (set_errorCounts c
             (set_settlements
                (settlements s
                 ++ map (fun x : Z * promise => (snd x, Rejected ProcessExited))
                      (pendingRequests s))
                (set_isVannaReady false (clearTimeout (initTimer p) s)))) in
      if negb (is_SIGTERM signal) && negb (is_zero code)
         && (initializationAttempts s <? maxAttempts)
      then setTimeout restartTimer s1 else s1.
Proof.
  unfold on_exit.
  destruct (reject_all_spec ProcessExited
              (set_isVannaReady false
                 (logError type_python (clearTimeout (initTimer p) s))))
    as [c Hc].
  fold ProcessExited. rewrite Hc. exists c. reflexivity.
Qed.

Lemma In_restartTimer_remove p l :
  In restartTimer (remove timer_eq_dec (initTimer p) l ++ [restartTimer]).
Proof. apply in_or_app. right. now left. Qed.

(** C4: when a worker exits with a non-zero code while the attempt
    counter is below [maxAttempts], every pending request is rejected with
    "Python process exited" (one rejection per entry, in the order of the
    table), the table is emptied, a [startPython] is scheduled with the
    fixed delay of 5000 ms, and when that timer fires the attempt counter
    is one more than it was. *)
Theorem exit_nonzero_rejects_pending_and_schedules_relaunch
    JSON_parse p code files_exist s :
  code <> 0 ->
  initializationAttempts s < maxAttempts ->
  let s1 := on_exit p (code_of (exited code)) (signal_of (exited code)) s in
  let s2 := handle JSON_parse (RestartTimerFires files_exist) s1 in
  settlements s1
  = settlements s
    ++ map (fun x => (snd x, Rejected ProcessExited)) (pendingRequests s)
  /\ pendingRequests s1 = []
  /\ timers s1 = remove timer_eq_dec (initTimer p) (timers s) ++ [restartTimer]
  /\ delay restartTimer = 5000
  /\ initializationAttempts s1 = initializationAttempts s
  /\ initializationAttempts s2 = initializationAttempts s + 1.
Proof.
  intros Hcode Hlt s1 s2.
  assert (E : s1 = setTimeout restartTimer
                     (set_pendingRequests []
                        (set_errorCounts (errorCounts s1)
                           (set_settlements
                              (settlements s
                               ++ map (fun x : Z * promise =>
                                         (snd x, Rejected ProcessExited))
                                    (pendingRequests s))
                              (set_isVannaReady false
                                 (clearTimeout (initTimer p) s)))))).
  { subst s1. destruct (on_exit_spec p (code_of (exited code))
                          (signal_of (exited code)) s) as [c Hc].
    rewrite Hc. cbn [code_of signal_of is_SIGTERM is_zero negb andb].
    apply Z.eqb_neq in Hcode. apply Z.ltb_lt in Hlt.
    rewrite Hcode, Hlt. reflexivity. }
  assert (Ht : timers s1
               = remove timer_eq_dec (initTimer p) (timers s) ++ [restartTimer])
    by (rewrite E; reflexivity).
  assert (Ha : initializationAttempts s1 = initializationAttempts s)
    by (rewrite E; reflexivity).
  repeat split; try (rewrite E; reflexivity); try assumption.
  subst s2. unfold handle, armed.
  destruct (in_dec timer_eq_dec restartTimer (timers s1)) as [_|Hn].
  - unfold startPython, fired.
    cbn [initializationAttempts set_timers]. rewrite Ha.
    assert (Hle : (maxAttempts <=? initializationAttempts s) = false)
      by (apply Z.leb_gt; assumption).
    rewrite Hle. now destruct files_exist.
  - exfalso. apply Hn. rewrite Ht. apply In_restartTimer_remove.
Qed.

Lemma exit_nonzero_witness :
  pendingRequests three_pending = [(1, 0%nat); (2, 1%nat); (3, 2%nat)]
  /\ let s1 := on_exit 0%nat (Some 1) None three_pending in
     let s2 := handle JSON_parse_sample (RestartTimerFires true) s1 in
     settlements s1
     = [(0%nat, Rejected ProcessExited); (1%nat, Rejected ProcessExited);
        (2%nat, Rejected ProcessExited)]
     /\ pendingRequests s1 = []
     /\ In restartTimer (timers s1)
     /\ initializationAttempts s1 = 0
     /\ initializationAttempts s2 = 1.
Proof.
  split; [reflexivity|].
  assert (H1 : 1 <> 0) by discriminate.
  assert (H2 : initializationAttempts three_pending < maxAttempts)
    by reflexivity.
  pose proof (exit_nonzero_rejects_pending_and_schedules_relaunch
                JSON_parse_sample 0%nat 1 true three_pending H1 H2)
    as (Hs & Hp & Ht & _ & Ha1 & Ha2).
  cbn [code_of signal_of] in Hs, Hp, Ht, Ha1, Ha2.
  cbv zeta.
  rewrite Hs, Hp, Ht, Ha1, Ha2.
  split; [reflexivity|]. split; [reflexivity|].
  split; [apply In_restartTimer_remove|]. split; reflexivity.
Defined.

(** ** Response lines (lines 158-172) *)

Lemma handle_line_eq JSON_parse line s :
  handle_line JSON_parse line s
  = match classify JSON_parse line with
    | not_a_message => s
    | unparsable => logError type_python s
    | message response =>
        match response_key response with
        | None => s
        | Some k =>
            match map_get k (pendingRequests s) with
            | None => s
            | Some pr =>
                settle pr (response_outcome response)
                  (set_pendingRequests (map_delete k (pendingRequests s)) s)
            end
        end
    end.
Proof.
  unfold handle_line, classify, response_key, response_outcome, reject, resolve.
  destruct (match trim line with [] => false | _ :: _ => true end
            && startsWith (trim line) (js "{")); [|reflexivity].
  destruct (JSON_parse (trim line)) as [[]|]; try reflexivity;
    match goal with
    | |- context [truthy (prop (js "id") ?r)] =>
        destruct (truthy (prop (js "id") r)); try reflexivity;
        destruct (as_key (prop (js "id") r)) as [k|]; try reflexivity;
        destruct (map_get k (pendingRequests s)); try reflexivity;
        destruct (prop (js "error") r) as [e|]; try reflexivity;
        destruct (truthy (Some e)); reflexivity
    end.
Qed.






(** ** The error listener (lines 175-180) *)

(** C7: the ['error'] listener rejects nothing and leaves the table of
    pending requests as it was; it only clears the init timer, marks the
    server not ready and schedules a [startPython].  In the sample run,
    request 1 is still pending and unsettled after the error event, while
    the exit event in the same state rejects it and empties the table. *)
Theorem error_event_leaves_pending_requests :
  (forall p s,
      pendingRequests (on_error p s) = pendingRequests s
      /\ settlements (on_error p s) = settlements s
      /\ isVannaReady (on_error p s) = false
      /\ In restartTimer (timers (on_error p s)))
  /\ let s' := handle JSON_parse_sample (ProcessError 0%nat) one_pending in
     let s'' := handle JSON_parse_sample (ProcessExit 0%nat (exited 1))
                  one_pending in
     pendingRequests one_pending = [(1, 0%nat)]
     /\ pendingRequests s' = [(1, 0%nat)]
     /\ settlements s' = []
     /\ pendingRequests s'' = []
     /\ settlements s'' = [(0%nat, Rejected ProcessExited)].
Proof.
  split.
  - intros p s. unfold on_error. cbn. repeat split.
    apply in_or_app. right. now left.
  - vm_compute. repeat split; reflexivity.
Qed.

(** ** Deliberate shutdown (lines 198-208 and 192-194) *)

Lemma count_restart_remove_init p l :
  count_occ timer_eq_dec (remove timer_eq_dec (initTimer p) l) restartTimer
  = count_occ timer_eq_dec l restartTimer.
Proof.
  induction l as [|t r IH]; [reflexivity|].
  cbn [remove].
  destruct (timer_eq_dec (initTimer p) t) as [<-|Hne].
  - rewrite IH. cbn [count_occ].
    destruct (timer_eq_dec (initTimer p) restartTimer); [discriminate|].
    reflexivity.
  - cbn [count_occ]. rewrite IH. reflexivity.
Qed.

Lemma on_exit_SIGTERM p code s :
  exists c,
    on_exit p code (Some "SIGTERM"%string) s
    = set_pendingRequests []
        (set_errorCounts c
           (set_settlements
              (settlements s
               ++ map (fun x : Z * promise => (snd x, Rejected ProcessExited))
                    (pendingRequests s))
              (set_isVannaReady false (clearTimeout (initTimer p) s)))).
Proof.
  destruct (on_exit_spec p code (Some "SIGTERM"%string) s) as [c Hc].
  exists c. rewrite Hc. reflexivity.
Qed.

Lemma run_hostExited JSON_parse trace : forall s,
  hostExited s = true -> run JSON_parse s trace = s.
Proof.
  induction trace as [|e t IH]; intros s H; [reflexivity|].
  cbn [run fold_left]. unfold step at 2. rewrite H. apply IH, H.
Qed.

(** C8: [killPython] schedules nothing, spawns nothing and settles
    nothing, and once it has sent the signal a second call does nothing.
    The exit of a worker with signal SIGTERM schedules no [startPython],
    whatever the code and the attempt counter; a second such exit finds the
    table empty and rejects nothing.  After the host's own SIGINT or
    SIGTERM handler has run, no event changes the state. *)
Theorem deliberate_shutdown_schedules_no_relaunch s :
  (forall kill_throws,
      let s' := killPython kill_throws s in
      timers s' = timers s /\ spawned s' = spawned s
      /\ pendingRequests s' = pendingRequests s
      /\ settlements s' = settlements s)
  /\ (forall kill_throws,
        killPython kill_throws (killPython false s) = killPython false s)
  /\ (forall p code,
        let s' := on_exit p code (Some "SIGTERM"%string) s in
        restarts s' = restarts s /\ spawned s' = spawned s
        /\ pendingRequests s' = [])
  /\ (forall p q code code',
        let s1 := on_exit p code (Some "SIGTERM"%string) s in
        let s2 := on_exit q code' (Some "SIGTERM"%string) s1 in
        settlements s2 = settlements s1 /\ pendingRequests s2 = []
        /\ restarts s2 = restarts s /\ spawned s2 = spawned s)
  /\ (forall p code kill_throws,
        let s1 := killPython false s in
        let s' := on_exit p code (Some "SIGTERM"%string)
                    (killPython kill_throws s1) in
        restarts s' = restarts s /\ spawned s' = spawned s
        /\ signalled s' = signalled s1)
  /\ (forall JSON_parse kill_throws trace,
        let s' := handle JSON_parse (HostSignal kill_throws) s in
        run JSON_parse s' trace = s').
Proof.
  assert (Hkill : forall k s0,
             timers (killPython k s0) = timers s0
             /\ spawned (killPython k s0) = spawned s0
             /\ pendingRequests (killPython k s0) = pendingRequests s0
             /\ settlements (killPython k s0) = settlements s0).
  { intros k s0. unfold killPython.
    destruct (pythonProcess s0); [destruct k|]; cbn; auto. }
  assert (Hidem : forall k s0,
             killPython k (killPython false s0) = killPython false s0).
  { intros k s0. unfold killPython.
    destruct (pythonProcess s0) eqn:E; cbn; [reflexivity|].
    now rewrite E. }
  assert (Hexit : forall p code s0,
             restarts (on_exit p code (Some "SIGTERM"%string) s0) = restarts s0
             /\ spawned (on_exit p code (Some "SIGTERM"%string) s0) = spawned s0
             /\ pendingRequests (on_exit p code (Some "SIGTERM"%string) s0) = []
             /\ (pendingRequests s0 = [] ->
                 settlements (on_exit p code (Some "SIGTERM"%string) s0)
                 = settlements s0)
             /\ signalled (on_exit p code (Some "SIGTERM"%string) s0)
                = signalled s0).
  { intros p code s0. destruct (on_exit_SIGTERM p code s0) as [c ->].
    unfold restarts. cbn. rewrite count_restart_remove_init.
    repeat split. intros ->. cbn. apply app_nil_r. }
  split; [intros k; apply Hkill|].
  split; [intros k; apply Hidem|].
  split.
  { intros p code. cbv zeta. destruct (Hexit p code s) as (R & S & P & _).
    split; [exact R|]. split; [exact S|exact P]. }
  split.
  { intros p q code code'. cbv zeta.
    destruct (Hexit p code s) as (R1 & S1 & P1 & _ & _).
    destruct (Hexit q code' (on_exit p code (Some "SIGTERM"%string) s))
      as (R2 & S2 & P2 & T2 & _).
    split; [now apply T2|]. split; [exact P2|]. split; congruence. }
  split.
  { intros p code k. cbv zeta. rewrite Hidem.
    destruct (Hexit p code (killPython false s)) as (R1 & S1 & _ & _ & G1).
    destruct (Hkill false s) as (T & S & _ & _).
    split; [rewrite R1; unfold restarts; now rewrite T|].
    split; [congruence|exact G1]. }
  intros JSON_parse k trace. cbv zeta. apply run_hostExited. reflexivity.
Qed.

Example shutdown_sent_twice :
  let s := killPython false (killPython false ready_state) in
  let s' := on_exit 0%nat None (Some "SIGTERM"%string) s in
  signalled s = [0%nat] /\ pythonProcess s = None
  /\ restarts s' = 0%nat /\ spawned s' = 1%nat /\ settlements s' = [].
Proof. vm_compute. repeat split; reflexivity. Qed.

(** ** The table of pending requests: list facts *)

Lemma map_get_In k m v : map_get k m = Some v -> In (k, v) m.
Proof.
  induction m as [|[k' v'] r IH]; cbn [map_get]; [discriminate|].
  destruct (Z.eqb_spec k' k) as [->|_].
  - intros [= ->]. now left.
  - intros H. right. auto.
Qed.

Lemma map_get_None k m : map_get k m = None -> forall v, ~ In (k, v) m.
Proof.
  induction m as [|[k' v'] r IH]; cbn [map_get]; intros H v; [intros []|].
  destruct (Z.eqb_spec k' k) as [->|Hne]; [discriminate|].
  intros [E|Hin]; [inversion E; subst; now apply Hne|]. now apply (IH H v).
Qed.


Lemma In_map_delete k m k' v :
  In (k', v) (map_delete k m) <-> In (k', v) m /\ k' <> k.
Proof.
  unfold map_delete. rewrite filter_In. cbn [fst].
  rewrite negb_true_iff, Z.eqb_neq. reflexivity.
Qed.

Lemma map_set_fresh k v m :
  (forall v', ~ In (k, v') m) -> map_set k v m = m ++ [(k, v)].
Proof.
  induction m as [|[k' v'] r IH]; intros H; [reflexivity|].
  cbn [map_set app].
  destruct (Z.eqb_spec k' k) as [->|_].
  - exfalso. apply (H v'). now left.
  - f_equal. apply IH. intros w Hw. apply (H w). now right.
Qed.

Lemma In_map_set k v m : In (k, v) (map_set k v m).
Proof.
  induction m as [|[k' v'] r IH]; cbn [map_set]; [now left|].
  destruct (Z.eqb k' k); [now left | now right].
Qed.

Lemma NoDup_map_filter {A B : Type} (f : A -> B) (p : A -> bool) l :
  NoDup (map f l) -> NoDup (map f (filter p l)).
Proof.
  induction l as [|x r IH]; cbn [map filter]; intros H; [constructor|].
  inversion H as [|? ? Hx Hr]; subst.
  destruct (p x); [|auto].
  cbn [map]. constructor; [|auto].
  intros Hin. apply Hx. apply in_map_iff in Hin as (y & <- & Hy).
  apply in_map. apply filter_In in Hy. tauto.
Qed.

Lemma NoDup_snd_functional {A B : Type} (l : list (A * B)) a a' b :
  NoDup (map snd l) -> In (a, b) l -> In (a', b) l -> a = a'.
Proof.
  induction l as [|[x y] r IH]; cbn [map snd]; intros H H1 H2; [destruct H1|].
  inversion H as [|? ? Hy Hr]; subst.
  destruct H1 as [E1|H1], H2 as [E2|H2].
  - congruence.
  - inversion E1; subst. exfalso. apply Hy.
    change b with (snd (a', b)). now apply in_map.
  - inversion E2; subst. exfalso. apply Hy.
    change b with (snd (a, b)). now apply in_map.
  - auto.
Qed.

Lemma In_disarm t t' l : In t' (disarm t l) -> In t' l.
Proof.
  induction l as [|x r IH]; cbn [disarm]; [auto|].
  destruct (timer_eq_dec x t); [now right|].
  intros [->|H]; [now left | right; auto].
Qed.

Lemma In_disarm_other t t' l : t' <> t -> In t' l -> In t' (disarm t l).
Proof.
  intros Hne. induction l as [|x r IH]; cbn [disarm]; [auto|].
  intros [->|H].
  - destruct (timer_eq_dec t' t); [contradiction | now left].
  - destruct (timer_eq_dec x t); [assumption | right; auto].
Qed.

Lemma StronglySorted_snoc l a :
  StronglySorted Z.lt l -> (forall x, In x l -> x < a) ->
  StronglySorted Z.lt (l ++ [a]).
Proof.
  induction 1 as [|x r Hr IH Hx]; intros H; cbn [app].
  - repeat constructor.
  - constructor.
    + apply IH. intros y Hy. apply H. now right.
    + rewrite Forall_forall in *. intros y Hy.
      apply in_app_or in Hy as [Hy|[<-|[]]]; [auto|]. apply H. now left.
Qed.

Lemma StronglySorted_lt_NoDup l : StronglySorted Z.lt l -> NoDup l.
Proof.
  induction 1 as [|x r Hr IH Hx]; constructor; [|assumption].
  intros Hin. rewrite Forall_forall in Hx. specialize (Hx x Hin). lia.
Qed.

Lemma Inv_fresh s :
  Inv s ->
  (forall v, ~ In (requestId s, v) (pendingRequests s))
  /\ (forall v, ~ In (requestTimer (requestId s) v) (timers s))
  /\ ~ In (promises s) (map snd (pendingRequests s))
  /\ ~ In (promises s) (map fst (settlements s)).
Proof.
  intros I. repeat split.
  - intros v H. apply (inv_pending I) in H as (H & _).
    apply (inv_issued_bound I) in H. lia.
  - intros v H. apply (inv_timers I) in H as (H & _).
    apply (inv_issued_bound I) in H. lia.
  - intros H. apply in_map_iff in H as ([id pr] & E & H). cbn in E. subst pr.
    apply (inv_pending I) in H as (_ & H & _). lia.
  - intros H. apply (inv_settled_bound I) in H. lia.
Qed.

Ltac splits := repeat match goal with |- _ /\ _ => split end.

Lemma request_step_Inv s s' : Inv s -> request_step s s' -> Inv s'.
Proof.
  intros I [Hp Hs Hn Hi Hr [K1 K2]
           |id pr o Hin Hp Hs Hn Hi Hr [K1 K2]
           |e Hp Hs Hn Hi Hr [K1 K2]
           |Hp Hs Hn Hi Hr [K1 K2]
           |Hp Hs Hn Hi Hr Ht].
  - (* frame *)
    constructor; rewrite ?Hp, ?Hs, ?Hn, ?Hi, ?Hr; try apply I.
    + intros id pr H. destruct (inv_pending I id pr H) as (A & B & C & D).
      splits; auto. apply K2; [now rewrite Hp|assumption].
    + intros id pr H. apply (inv_timers I), K1, H.
  - (* settle *)
    destruct (inv_pending I id pr Hin) as (A0 & B0 & C0 & D0).
    constructor; rewrite ?Hp, ?Hs, ?Hn, ?Hi, ?Hr; try apply I.
    + apply NoDup_map_filter, I.
    + apply NoDup_map_filter, I.
    + intros id2 pr2 H. pose proof H as H'.
      apply In_map_delete in H as (H & Hne).
      destruct (inv_pending I id2 pr2 H) as (A & B & C & D).
      splits; [exact A|exact B| |].
      * rewrite map_app, in_app_iff. cbn. intros [X|[X|[]]]; [auto|].
        subst pr2. apply Hne.
        apply (NoDup_snd_functional (pendingRequests s) id2 id pr
                 (inv_promises I)); assumption.
      * apply K2; [now rewrite Hp|assumption].
    + intros id2 pr2 H. apply K1 in H.
      destruct (inv_timers I id2 pr2 H) as (A & B & C).
      splits; auto. intros pr' H'. apply In_map_delete in H' as (H' & _).
      auto.
    + rewrite map_app. cbn. apply NoDup_app; [apply I|repeat constructor; auto|].
      intros a Ha [<-|[]]. auto.
    + intros x. rewrite map_app, in_app_iff. cbn.
      intros [X|[<-|[]]]; [now apply (inv_settled_bound I)|assumption].
  - (* purge *)
    constructor; rewrite ?Hp, ?Hs, ?Hn, ?Hi, ?Hr; try apply I.
    + constructor.
    + constructor.
    + intros id pr [].
    + intros id pr H. apply K1 in H.
      destruct (inv_timers I id pr H) as (A & B & C).
      splits; auto. intros pr' [].
    + rewrite map_app, map_map. cbn [fst].
      apply NoDup_app; [apply I|apply I|].
      intros a Ha Hb. apply in_map_iff in Hb as ([id pr] & E & Hb).
      cbn in E. subst a. now apply (inv_pending I) in Hb as (_ & _ & Hb & _).
    + intros x. rewrite map_app, map_map, in_app_iff. cbn [fst].
      intros [X|X]; [now apply (inv_settled_bound I)|].
      apply in_map_iff in X as ([id pr] & E & X). cbn in E. subst x.
      now apply (inv_pending I) in X as (_ & X & _).
  - (* issue *)
    constructor; rewrite ?Hp, ?Hs, ?Hn, ?Hi, ?Hr; try apply I.
    + intros id pr H. destruct (inv_pending I id pr H) as (A & B & C & D).
      splits; [apply in_or_app; now left|exact B|exact C|].
      apply K2; [now rewrite Hp|assumption].
    + intros id pr H. apply K1 in H.
      destruct (inv_timers I id pr H) as (A & B & C).
      splits; [apply in_or_app; now left|exact B|exact C].
    + apply StronglySorted_snoc; [apply I|apply (inv_issued_bound I)].
    + intros id H. apply in_app_or in H as [H|[<-|[]]]; [|lia].
      apply (inv_issued_bound I) in H. lia.
  - (* submit *)
    destruct (Inv_fresh s I) as (F1 & F2 & F3 & F4).
    rewrite map_set_fresh in Hp by assumption.
    constructor; rewrite ?Hp, ?Hs, ?Hn, ?Hi, ?Hr; try apply I.
    + rewrite map_app. cbn. apply NoDup_app; [apply I|repeat constructor; auto|].
      intros a Ha [<-|[]]. apply in_map_iff in Ha as ([id pr] & E & Ha).
      cbn in E. subst id. now apply (F1 pr).
    + rewrite map_app. cbn. apply NoDup_app; [apply I|repeat constructor; auto|].
      intros a Ha [<-|[]]. auto.
    + intros id pr H. apply in_app_or in H as [H|[E|[]]].
      * destruct (inv_pending I id pr H) as (A & B & C & D).
        splits; [apply in_or_app; now left|lia|exact C|apply Ht; now left].
      * inversion E; subst.
        splits; [apply in_or_app; right; now left|lia|exact F4
              |apply Ht; now right].
    + intros id pr H. apply Ht in H as [H|E].
      * destruct (inv_timers I id pr H) as (A & B & C).
        splits; [apply in_or_app; now left|lia|].
        -- intros pr' H'. apply in_app_or in H' as [H'|[E|[]]]; [auto|].
           inversion E; subst. apply (inv_issued_bound I) in A. lia.
      * inversion E; subst.
        splits; [apply in_or_app; right; now left|lia|].
        -- intros pr' H'. apply in_app_or in H' as [H'|[E'|[]]].
           ++ now apply F1 in H'.
           ++ now inversion E'.
    + intros x H. apply (inv_settled_bound I) in H. lia.
    + apply StronglySorted_snoc; [apply I|apply (inv_issued_bound I)].
    + intros id H. apply in_app_or in H as [H|[<-|[]]]; [|lia].
      apply (inv_issued_bound I) in H. lia.
Qed.

(** ** Every handler is a sequence of request steps *)

Lemma In_snoc_other (t t' : timer) l : t' <> t -> In t' (l ++ [t]) <-> In t' l.
Proof.
  intros Hne. rewrite in_app_iff. cbn. intuition congruence.
Qed.

Lemma In_remove_other (t t' : timer) l :
  t' <> t -> In t' (remove timer_eq_dec t l) <-> In t' l.
Proof.
  intros Hne. split.
  - intros H. now apply in_remove in H.
  - intros H. now apply in_in_remove.
Qed.

Lemma In_disarm_iff (t t' : timer) l :
  t' <> t -> In t' (disarm t l) <-> In t' l.
Proof.
  intros Hne. split; [apply In_disarm | now apply In_disarm_other].
Qed.

Lemma timers_kept_same s s' :
  (forall id pr, In (requestTimer id pr) (timers s')
                 <-> In (requestTimer id pr) (timers s)) ->
  timers_kept s s'.
Proof. intros H. split; intros id pr; [apply H | intros _; apply H]. Qed.

Ltac request_timers :=
  apply timers_kept_same; intros; cbn;
  rewrite ?In_snoc_other, ?In_remove_other, ?In_disarm_iff by discriminate;
  reflexivity.

Ltac frame := apply step_frame; [reflexivity .. | request_timers].

Lemma steps_one s s' : request_step s s' -> request_steps s s'.
Proof. intros H. eapply steps_more; [apply steps_none | exact H]. Qed.

Lemma steps_trans s s1 s2 :
  request_steps s s1 -> request_steps s1 s2 -> request_steps s s2.
Proof.
  intros H1 H2. induction H2 as [|s2 s3 _ IH H3]; [assumption|].
  eapply steps_more; eassumption.
Qed.

Lemma request_steps_Inv s s' : Inv s -> request_steps s s' -> Inv s'.
Proof.
  intros I H. induction H as [|s1 s2 _ IH H]; [assumption|].
  eapply request_step_Inv; eassumption.
Qed.

Lemma startPython_frame files_exist s :
  request_step s (startPython files_exist s).
Proof.
  unfold startPython.
  destruct (maxAttempts <=? initializationAttempts s); [frame|].
  destruct files_exist; cbn [negb]; frame.
Qed.

Lemma on_stderr_frame p data s : request_step s (on_stderr p data s).
Proof.
  unfold on_stderr.
  destruct (includes (toString data) (js "MCP_SERVER_READY")
            || includes (toString data) (js "ready")); frame.
Qed.

Lemma on_error_frame p s : request_step s (on_error p s).
Proof. unfold on_error. frame. Qed.

Lemma on_initTimer_frame p kill_throws s :
  request_step s (on_initTimer kill_throws (fired (initTimer p) s)).
Proof.
  unfold on_initTimer, killPython. cbn [pythonProcess logError fired set_timers set_errorCounts].
  destruct (pythonProcess s); [destruct kill_throws|]; frame.
Qed.

Lemma restart_frame files_exist s :
  request_step s (startPython files_exist (fired restartTimer s)).
Proof.
  unfold startPython. cbn [initializationAttempts fired set_timers].
  destruct (maxAttempts <=? initializationAttempts s); [frame|].
  destruct files_exist; cbn [negb]; frame.
Qed.

Lemma on_exit_step p code signal s : request_step s (on_exit p code signal s).
Proof.
  destruct (on_exit_spec p code signal s) as [c ->]. cbv zeta.
  destruct (negb (is_SIGTERM signal) && negb (is_zero code)
            && (initializationAttempts s <? maxAttempts));
    apply (step_purge _ _ ProcessExited); try reflexivity; request_timers.
Qed.

Lemma handle_line_step JSON_parse line s :
  request_step s (handle_line JSON_parse line s).
Proof.
  rewrite handle_line_eq.
  destruct (classify JSON_parse line) as [| |response]; [frame|frame|].
  destruct (response_key response) as [k|]; [|frame].
  destruct (map_get k (pendingRequests s)) as [pr|] eqn:E; [|frame].
  destruct (settle_spec pr (response_outcome response)
              (set_pendingRequests (map_delete k (pendingRequests s)) s))
    as [c ->].
  apply (step_settle _ _ k pr (response_outcome response));
    try reflexivity; [now apply map_get_In | request_timers].
Qed.

Lemma handle_lines_steps JSON_parse lines : forall s,
  request_steps s (fold_left (fun s line => handle_line JSON_parse line s) lines s).
Proof.
  induction lines as [|line r IH]; intros s; cbn [fold_left]; [apply steps_none|].
  eapply steps_trans; [apply steps_one, handle_line_step | apply IH].
Qed.

Lemma on_stdout_steps JSON_parse p data s :
  request_steps s (on_stdout JSON_parse p data s).
Proof.
  unfold on_stdout. destruct (frame (get_buffer p (buffers s)) data) as [lines buffer].
  eapply steps_trans; [|apply handle_lines_steps].
  apply steps_one. frame.
Qed.

Lemma on_requestTimer_step id pr s :
  Inv s -> In (requestTimer id pr) (timers s) ->
  request_step s (on_requestTimer id pr (fired (requestTimer id pr) s)).
Proof.
  intros I Ht. unfold on_requestTimer, map_has.
  cbn [pendingRequests fired set_timers].
  destruct (map_get id (pendingRequests s)) as [pr'|] eqn:E.
  - pose proof (map_get_In _ _ _ E) as Hin.
    destruct (inv_timers I id pr Ht) as (_ & _ & Hf).
    assert (Epr : pr' = pr) by (apply Hf, Hin). subst pr'. clear Hf.
    unfold reject.
    match goal with
    | |- request_step _ (settle ?p ?o ?s0) =>
        destruct (settle_spec p o s0) as [c ->]
    end.
    apply (step_settle _ _ id pr
             (Rejected (Error "Request timeout. Try simpler question.")));
      try reflexivity; [assumption|].
    split; cbn; intros id' pr' H.
    + now apply In_disarm in H.
    + intros H'. apply In_disarm_other; [|assumption].
      apply In_map_delete in H as (_ & Hne). congruence.
  - apply step_frame; try reflexivity.
    split; cbn; intros id' pr' H.
    + now apply In_disarm in H.
    + intros H'. apply In_disarm_other; [|assumption].
      intros [= -> ->]. now apply (map_get_None _ _ E pr).
Qed.

Lemma sendToVanna_steps name args write_throws s :
  let '(request, s1) := next_request name args s in
  request_steps s (awaited (sendToVanna request write_throws s1)).
Proof.
  cbn [next_request]. unfold sendToVanna.
  cbn [pythonProcess isVannaReady set_issued set_requestId req_id promises].
  destruct (pythonProcess s) as [p|]; [destruct (isVannaReady s)|];
    cbn [awaited];
    try (apply steps_one, step_issue; try reflexivity; request_timers).
  destruct write_throws; cbn [awaited].
  - eapply steps_more.
    + apply steps_one.
      apply step_submit
        with (s' := setTimeout (requestTimer (requestId s) (promises s))
                      (set_pendingRequests
                         (map_set (requestId s) (promises s) (pendingRequests s))
                         (set_promises (S (promises s))
                            (set_issued (issued s ++ [requestId s])
                               (set_requestId (requestId s + 1) s)))));
        try reflexivity.
      intros t. cbn. rewrite in_app_iff. cbn. intuition.
    + unfold reject.
      match goal with
      | |- request_step _ (settle ?p ?o ?s0) =>
          destruct (settle_spec p o s0) as [c ->]
      end.
      apply (step_settle _ _ (requestId s) (promises s)
               (Rejected (Error "Communication error. Please try again.")));
        try reflexivity; [apply In_map_set|].
      split; cbn; intros id' pr' H.
      * now apply in_remove in H.
      * intros H'. apply in_in_remove; [|assumption].
        apply In_map_delete in H as (_ & Hne). congruence.
  - apply steps_one, step_submit; try reflexivity.
    intros t. cbn. rewrite in_app_iff. cbn. intuition.
Qed.

Lemma callTool_steps call write_throws s :
  request_steps s (callTool call write_throws s).
Proof.
  destruct call as [question valid| | |limit| | |]; cbn [callTool];
    try apply steps_none; try (apply steps_one; frame).
  - unfold queryDatabase.
    destruct valid; cbn [negb]; [|apply steps_one; frame].
    destruct (isVannaReady s); cbn [negb]; [|apply steps_one; frame].
    apply (sendToVanna_steps "query_totara_db" (question_argument question)).
  - unfold testStatus.
    destruct (isVannaReady s); cbn [negb]; [|apply steps_none].
    apply (sendToVanna_steps "test_vanna_status" no_arguments).
  - unfold listUsers.
    destruct (clamp_limit limit) as [l|]; [|apply steps_one; frame].
    apply (sendToVanna_steps "list_active_users" (limit_argument l)).
Qed.

Lemma handle_steps JSON_parse e s :
  Inv s -> request_steps s (handle JSON_parse e s).
Proof.
  intros I.
  destruct e as [call w|p data|p data|p|p status|p k|f|id pr|k]; cbn [handle].
  - apply callTool_steps.
  - destruct (Nat.ltb p (spawned s)); [apply steps_one, on_stderr_frame|apply steps_none].
  - destruct (Nat.ltb p (spawned s)); [apply on_stdout_steps|apply steps_none].
  - destruct (Nat.ltb p (spawned s)); [apply steps_one, on_error_frame|apply steps_none].
  - destruct (Nat.ltb p (spawned s)); [apply steps_one, on_exit_step|apply steps_none].
  - destruct (armed (initTimer p) s); [apply steps_one, on_initTimer_frame|apply steps_none].
  - destruct (armed restartTimer s); [apply steps_one, restart_frame|apply steps_none].
  - unfold armed.
    destruct (in_dec timer_eq_dec (requestTimer id pr) (timers s)) as [H|_];
      [apply steps_one, on_requestTimer_step; assumption|apply steps_none].
  - apply steps_one. unfold killPython.
    destruct (pythonProcess s); [destruct k|]; frame.
Qed.

Lemma step_steps JSON_parse e s :
  Inv s -> request_steps s (step JSON_parse s e).
Proof.
  intros I. unfold step. destruct (hostExited s); [apply steps_none|].
  now apply handle_steps.
Qed.

Lemma run_steps JSON_parse trace : forall s,
  Inv s -> request_steps s (run JSON_parse s trace).
Proof.
  induction trace as [|e t IH]; intros s I; cbn [run fold_left]; [apply steps_none|].
  eapply steps_trans; [apply step_steps, I|].
  apply IH. eapply request_steps_Inv; [exact I | now apply step_steps].
Qed.

Lemma constructed_Inv : Inv constructed.
Proof.
  constructor; cbn; try (intros ? ? []); try (intros ? []); constructor.
Qed.

Lemma boot_Inv files_exist : Inv (boot files_exist).
Proof.
  eapply request_step_Inv; [apply constructed_Inv | apply startPython_frame].
Qed.

Lemma run_Inv JSON_parse files_exist trace :
  Inv (run JSON_parse (boot files_exist) trace).
Proof.
  eapply request_steps_Inv; [apply boot_Inv | apply run_steps, boot_Inv].
Qed.

(** ** Single settlement and fresh identifiers *)




Lemma request_step_issued s s' :
  request_step s s' -> exists new, issued s' = issued s ++ new.
Proof.
  intros [? ? ? Hi ? ?|? ? ? ? ? ? ? Hi ? ?|? ? ? ? Hi ? ?|? ? ? Hi ? ?|? ? ? Hi ? ?];
    rewrite Hi; eauto using app_nil_r.
  all: exists []; now rewrite app_nil_r.
Qed.

Lemma request_steps_issued s s' :
  request_steps s s' -> exists new, issued s' = issued s ++ new.
Proof.
  induction 1 as [|s1 s2 _ [new1 E1] H]; [exists []; now rewrite app_nil_r|].
  destruct (request_step_issued _ _ H) as [new2 E2].
  exists (new1 ++ new2). now rewrite E2, E1, app_assoc.
Qed.



Lemma StronglySorted_app_lt a : forall b x y,
  StronglySorted Z.lt (a ++ b) -> In x a -> In y b -> x < y.
Proof.
  induction a as [|h r IH]; intros b x y H Hx Hy; [destruct Hx|].
  cbn [app] in H. apply StronglySorted_inv in H as [Hr Hh].
  destruct Hx as [->|Hx]; [|eauto].
  rewrite Forall_forall in Hh. apply Hh. apply in_or_app. now right.
Qed.









Lemma run_app JSON_parse s t1 t2 :
  run JSON_parse s (t1 ++ t2) = run JSON_parse (run JSON_parse s t1) t2.
Proof. unfold run. apply fold_left_app. Qed.

Example identifiers_across_a_restart :
  let s := run JSON_parse_sample three_pending
             [ProcessExit 0%nat (exited 1); RestartTimerFires true;
              StderrData 1%nat (bytes_of "ready");
              ToolCall test_vanna_status false] in
  issued three_pending = [1; 2; 3]
  /\ issued s = [1; 2; 3; 4]
  /\ pendingRequests s = [(4, 3%nat)]
  /\ requestId s = 5.
Proof. vm_compute. repeat split; reflexivity. Qed.

(** ** The attempt counter (lines 113-119, 144-149, 192-194) *)

Lemma handle_line_supervision JSON_parse line s :
  same_supervision s (handle_line JSON_parse line s).
Proof.
  rewrite handle_line_eq. unfold same_supervision.
  destruct (classify JSON_parse line) as [| |response]; cbn; auto.
  destruct (response_key response) as [k|]; auto.
  destruct (map_get k (pendingRequests s)) as [pr|]; auto.
  destruct (settle_spec pr (response_outcome response)
              (set_pendingRequests (map_delete k (pendingRequests s)) s))
    as [c ->].
  cbn. auto.
Qed.

Lemma handle_lines_supervision JSON_parse lines : forall s,
  same_supervision s
    (fold_left (fun s line => handle_line JSON_parse line s) lines s).
Proof.
  induction lines as [|line r IH]; intros s; cbn [fold_left].
  - unfold same_supervision. auto.
  - destruct (IH (handle_line JSON_parse line s)) as (A & B & C & D).
    destruct (handle_line_supervision JSON_parse line s) as (A' & B' & C' & D').
    unfold same_supervision. repeat split; congruence.
Qed.

Lemma on_stdout_supervision JSON_parse p data s :
  same_supervision s (on_stdout JSON_parse p data s).
Proof.
  unfold on_stdout.
  destruct (frame (get_buffer p (buffers s)) data) as [lines buffer].
  apply (handle_lines_supervision JSON_parse lines
           (set_buffers (put_buffer p buffer (buffers s)) s)).
Qed.

Lemma count_restart_remove_request id pr l :
  count_occ timer_eq_dec (remove timer_eq_dec (requestTimer id pr) l)
    restartTimer
  = count_occ timer_eq_dec l restartTimer.
Proof.
  induction l as [|t r IH]; [reflexivity|].
  cbn [remove].
  destruct (timer_eq_dec (requestTimer id pr) t) as [<-|Hne].
  - rewrite IH. cbn [count_occ].
    destruct (timer_eq_dec (requestTimer id pr) restartTimer); [discriminate|].
    reflexivity.
  - cbn [count_occ]. rewrite IH. reflexivity.
Qed.

Lemma settle_supervision pr o s :
  initializationAttempts (settle pr o s) = initializationAttempts s
  /\ spawned (settle pr o s) = spawned s
  /\ isVannaReady (settle pr o s) = isVannaReady s
  /\ timers (settle pr o s) = timers s.
Proof. destruct (settle_spec pr o s) as [c ->]. cbn. auto. Qed.

Lemma sendToVanna_supervision name args write_throws s :
  let '(request, s1) := next_request name args s in
  let s' := awaited (sendToVanna request write_throws s1) in
  initializationAttempts s' = initializationAttempts s
  /\ spawned s' = spawned s
  /\ isVannaReady s' = isVannaReady s
  /\ restarts s' = restarts s.
Proof.
  cbn [next_request]. unfold sendToVanna, restarts.
  cbn [pythonProcess isVannaReady set_issued set_requestId req_id promises].
  destruct (pythonProcess s) as [p|]; [destruct (isVannaReady s) eqn:R|];
    cbn [awaited]; try (cbn; now auto).
  destruct write_throws; cbn [awaited].
  - unfold reject.
    match goal with
    | |- context [settle ?p ?o ?s0] =>
        destruct (settle_supervision p o s0) as (A & B & C & D)
    end.
    rewrite A, B, C, D. cbn.
    rewrite count_restart_remove_request, count_occ_app. cbn.
    repeat split; auto; lia.
  - cbn. rewrite count_occ_app. cbn. repeat split; auto; lia.
Qed.

Lemma callTool_supervision call write_throws s :
  let s' := callTool call write_throws s in
  initializationAttempts s' = initializationAttempts s
  /\ spawned s' = spawned s
  /\ isVannaReady s' = isVannaReady s
  /\ restarts s' = restarts s.
Proof.
  destruct call as [question valid| | |limit| | |]; cbn [callTool]; cbv zeta;
    try (cbn; now auto).
  - unfold queryDatabase.
    destruct valid; cbn [negb]; [|cbn; now auto].
    destruct (isVannaReady s) eqn:R; cbn [negb]; [|cbn; now auto].
    pose proof (sendToVanna_supervision "query_totara_db"
                  (question_argument question) write_throws s) as H.
    rewrite R in H. exact H.
  - unfold testStatus.
    destruct (isVannaReady s) eqn:R; cbn [negb]; [|now auto].
    pose proof (sendToVanna_supervision "test_vanna_status" no_arguments
                  write_throws s) as H.
    rewrite R in H. exact H.
  - unfold listUsers.
    destruct (clamp_limit limit) as [l|]; [|cbn; now auto].
    apply (sendToVanna_supervision "list_active_users" (limit_argument l)).
Qed.

Lemma handle_supervision JSON_parse e s :
  let s' := handle JSON_parse e s in
  (spawned s' = spawned s
   \/ (spawned s' = S (spawned s)
       /\ initializationAttempts s' = initializationAttempts s + 1))
  /\ (initializationAttempts s' = initializationAttempts s
      \/ (initializationAttempts s' = initializationAttempts s + 1
          /\ initializationAttempts s < maxAttempts)
      \/ (is_ready_signal e = true
          /\ initializationAttempts s' = 0 /\ isVannaReady s' = true))
  /\ (maxAttempts <= initializationAttempts s -> spawned s' = spawned s)
  /\ (forall p status, e = ProcessExit p status ->
        maxAttempts <= initializationAttempts s -> restarts s' = restarts s).
Proof.
  cbv zeta.
  destruct e as [call w|p data|p data|p|p status|p k|f|id pr|k]; cbn [handle].
  - destruct (callTool_supervision call w s) as (A & B & _).
    rewrite A, B. repeat split; auto; discriminate.
  - destruct (Nat.ltb p (spawned s)); [|repeat split; auto; discriminate].
    unfold on_stderr, is_ready_signal.
    destruct (includes (toString data) (js "MCP_SERVER_READY")
              || includes (toString data) (js "ready"));
      cbn; repeat split; auto; discriminate.
  - destruct (Nat.ltb p (spawned s)); [|repeat split; auto; discriminate].
    destruct (on_stdout_supervision JSON_parse p data s) as (A & B & _).
    rewrite A, B. repeat split; auto; discriminate.
  - destruct (Nat.ltb p (spawned s)); cbn; repeat split; auto; discriminate.
  - destruct (Nat.ltb p (spawned s)); [|repeat split; auto].
    destruct (on_exit_spec p (code_of status) (signal_of status) s) as [c ->].
    cbv zeta.
    destruct (initializationAttempts s <? maxAttempts) eqn:L.
    + apply Z.ltb_lt in L.
      destruct (negb (is_SIGTERM (signal_of status))
                && negb (is_zero (code_of status)));
        cbn; repeat split; auto; intros; lia.
    + rewrite andb_false_r. unfold restarts. cbn.
      rewrite count_restart_remove_init. repeat split; auto.
  - destruct (armed (initTimer p) s); [|repeat split; auto; discriminate].
    unfold on_initTimer, killPython. cbn [pythonProcess logError fired set_timers set_errorCounts].
    destruct (pythonProcess s); [destruct k|]; cbn;
      repeat split; auto; discriminate.
  - destruct (armed restartTimer s); [|repeat split; auto; discriminate].
    unfold startPython. cbn [initializationAttempts fired set_timers].
    destruct (maxAttempts <=? initializationAttempts s) eqn:L.
    + cbn. repeat split; auto; discriminate.
    + apply Z.leb_gt in L.
      destruct f; cbn; repeat split; auto; try discriminate; intros; lia.
  - destruct (armed (requestTimer id pr) s); [|repeat split; auto; discriminate].
    unfold on_requestTimer. cbn [pendingRequests fired set_timers].
    destruct (map_has id (pendingRequests s));
      [|cbn; repeat split; auto; discriminate].
    unfold reject.
    match goal with
    | |- context [settle ?p ?o ?s0] =>
        destruct (settle_supervision p o s0) as (A & B & _)
    end.
    rewrite A, B. cbn. repeat split; auto; discriminate.
  - unfold killPython. destruct (pythonProcess s); [destruct k|]; cbn;
      repeat split; auto; discriminate.
Qed.

Lemma step_supervision JSON_parse e s :
  let s' := step JSON_parse s e in
  (spawned s' = spawned s
   \/ (spawned s' = S (spawned s)
       /\ initializationAttempts s' = initializationAttempts s + 1))
  /\ (initializationAttempts s' = initializationAttempts s
      \/ (initializationAttempts s' = initializationAttempts s + 1
          /\ initializationAttempts s < maxAttempts)
      \/ (is_ready_signal e = true
          /\ initializationAttempts s' = 0 /\ isVannaReady s' = true))
  /\ (maxAttempts <= initializationAttempts s -> spawned s' = spawned s)
  /\ (forall p status, e = ProcessExit p status ->
        maxAttempts <= initializationAttempts s -> restarts s' = restarts s).
Proof.
  unfold step. destruct (hostExited s); [|apply handle_supervision].
  cbv zeta. repeat split; auto.
Qed.

Lemma run_at_maximum JSON_parse trace : forall s,
  maxAttempts <= initializationAttempts s ->
  Forall (fun e => is_ready_signal e = false) trace ->
  spawned (run JSON_parse s trace) = spawned s
  /\ initializationAttempts (run JSON_parse s trace) = initializationAttempts s.
Proof.
  induction trace as [|e t IH]; intros s Hmax Hall; [split; reflexivity|].
  inversion Hall as [|? ? He Ht]; subst.
  destruct (step_supervision JSON_parse e s) as (_ & Ha & Hs & _).
  assert (Ea : initializationAttempts (step JSON_parse s e)
               = initializationAttempts s).
  { destruct Ha as [Ha|[[_ Ha]|[Ha _]]]; [exact Ha|lia|congruence]. }
  cbn [run fold_left].
  destruct (IH (step JSON_parse s e)) as [A B]; [lia|exact Ht|].
  unfold run in A, B. rewrite A, B, Ea, (Hs Hmax). split; reflexivity.
Qed.

(** C5 (as the code has it): the attempt counter goes up by one with
    every worker that is launched, and it changes in no other way than by
    such a step up or by a readiness signal on stderr setting it to zero.
    While it is at [maxAttempts] or above, no event launches a worker and
    the exit listener schedules no [startPython]; it stays there, and no
    worker is launched, over any run of events that holds no readiness
    signal. *)
Theorem attempt_counter_gates_relaunch JSON_parse s :
  (forall e,
      let s' := step JSON_parse s e in
      (spawned s' <> spawned s ->
       spawned s' = S (spawned s)
       /\ initializationAttempts s' = initializationAttempts s + 1)
      /\ (initializationAttempts s' <> initializationAttempts s ->
          initializationAttempts s' = initializationAttempts s + 1
          \/ (is_ready_signal e = true
              /\ initializationAttempts s' = 0 /\ isVannaReady s' = true))
      /\ (maxAttempts <= initializationAttempts s ->
          spawned s' = spawned s
          /\ (is_ready_signal e = false ->
              initializationAttempts s' = initializationAttempts s)
          /\ (forall p status,
                e = ProcessExit p status -> restarts s' = restarts s)))
  /\ (forall trace,
        maxAttempts <= initializationAttempts s ->
        Forall (fun e => is_ready_signal e = false) trace ->
        spawned (run JSON_parse s trace) = spawned s
        /\ initializationAttempts (run JSON_parse s trace)
           = initializationAttempts s).
Proof.
  split; [|intros trace; apply run_at_maximum].
  intros e s'.
  destruct (step_supervision JSON_parse e s) as (Hs & Ha & Hm & Hx).
  fold s' in Hs, Ha, Hm, Hx.
  split; [|split].
  - intros Hne. destruct Hs as [Hs|Hs]; [contradiction|exact Hs].
  - intros Hne. destruct Ha as [Ha|[[Ha _]|Ha]]; [contradiction|now left|now right].
  - intros Hmax. split; [exact (Hm Hmax)|]. split.
    + intros Hr. destruct Ha as [Ha|[[_ Ha]|[Ha _]]]; [exact Ha|lia|congruence].
    + intros p status E. exact (Hx p status E Hmax).
Qed.

Lemma attempt_counter_witness :
  initializationAttempts third_attempt = maxAttempts
  /\ let later := [ProcessExit 2%nat (exited 1); ProcessError 2%nat;
                   RestartTimerFires true; RestartTimerFires true] in
     spawned (run JSON_parse_sample third_attempt later) = 3%nat
     /\ initializationAttempts (run JSON_parse_sample third_attempt later) = 3.
Proof.
  split; [reflexivity|]. cbv zeta.
  apply (proj2 (attempt_counter_gates_relaunch JSON_parse_sample third_attempt)).
  - vm_compute. discriminate.
  - repeat constructor.
Defined.

(** C5 as stated fails: the third launch brings the counter to
    [maxAttempts]; in that state the error listener still schedules a
    [startPython]; and when the third worker signals readiness the counter
    is back at zero, so its exit with code 1 schedules a relaunch, which
    spawns a fourth worker. *)
Lemma relaunch_after_counter_reached_maximum :
  initializationAttempts third_attempt = maxAttempts
  /\ spawned third_attempt = 3%nat
  /\ restarts third_attempt = 0%nat
  /\ restarts (step JSON_parse_sample third_attempt (ProcessError 2%nat)) = 1%nat
  /\ let s4 := run JSON_parse_sample third_attempt
                 [StderrData 2%nat (bytes_of "MCP_SERVER_READY");
                  ProcessExit 2%nat (exited 1)] in
     initializationAttempts s4 = 0
     /\ restarts s4 = 1%nat
     /\ let s5 := step JSON_parse_sample s4 (RestartTimerFires true) in
        spawned s5 = 4%nat /\ pythonProcess s5 = Some 3%nat.
Proof. vm_compute. repeat split; reflexivity. Qed.

(** ** Further properties of the handlers *)

Ltac fields :=
  cbn [pythonProcess isVannaReady initializationAttempts requestId
       pendingRequests errorCounts timers buffers spawned promises hostExited
       settlements written signalled issued
       set_pythonProcess set_isVannaReady set_initializationAttempts
       set_requestId set_pendingRequests set_errorCounts set_timers
       set_buffers set_spawned set_promises set_hostExited set_settlements
       set_written set_signalled set_issued
       setTimeout clearTimeout logError fired fst snd].

Lemma settle_counts pr o s :
  timeout (errorCounts (settle pr o s)) = timeout (errorCounts s)
  /\ python (errorCounts (settle pr o s)) = python (errorCounts s)
  /\ validation (errorCounts (settle pr o s)) = validation (errorCounts s).
Proof.
  unfold settle. destruct o; [|destruct (settled_before pr s)]; cbn; auto.
Qed.

(** The timer of a request that is still in the table rejects that
    request with the timeout error, removes its entry and no other, counts
    one timeout error, and leaves the worker, the readiness flag, the
    attempt counter and the timers alone. *)
Theorem request_timeout_rejects_that_request_only id pr s :
  map_has id (pendingRequests s) = true ->
  let s' := on_requestTimer id pr s in
  pendingRequests s' = map_delete id (pendingRequests s)
  /\ (forall id' pr', id' <> id ->
        In (id', pr') (pendingRequests s) -> In (id', pr') (pendingRequests s'))
  /\ settlements s' = settlements s ++ [(pr, Rejected RequestTimedOut)]
  /\ timeout (errorCounts s') = timeout (errorCounts s) + 1
  /\ pythonProcess s' = pythonProcess s
  /\ isVannaReady s' = isVannaReady s
  /\ initializationAttempts s' = initializationAttempts s
  /\ spawned s' = spawned s
  /\ timers s' = timers s.
Proof.
  intros H s'. subst s'. unfold on_requestTimer. rewrite H.
  unfold reject. fold RequestTimedOut.
  set (s1 := logError type_timeout
               (set_pendingRequests (map_delete id (pendingRequests s)) s)).
  destruct (settle_counts pr (Rejected RequestTimedOut) s1) as (Ct & _).
  destruct (settle_spec pr (Rejected RequestTimedOut) s1) as [c E].
  rewrite Ct. rewrite E. cbn.
  repeat match goal with |- _ /\ _ => split end; try reflexivity.
  intros id' pr' Hne Hin. apply In_map_delete. now split.
Qed.

Lemma request_timeout_witness :
  let s' := on_requestTimer 1 0%nat one_pending in
  map_has 1 (pendingRequests one_pending) = true
  /\ pendingRequests s' = []
  /\ settlements s' = [(0%nat, Rejected RequestTimedOut)]
  /\ timeout (errorCounts s') = 1
  /\ isVannaReady s' = true.
Proof.
  assert (H : map_has 1 (pendingRequests one_pending) = true)
    by (vm_compute; reflexivity).
  destruct (request_timeout_rejects_that_request_only 1 0%nat one_pending H)
    as (Hp & _ & Hs & Hc & _ & Hr & _).
  cbv zeta. rewrite Hp, Hs, Hc, Hr.
  repeat match goal with |- _ /\ _ => split end; vm_compute; reflexivity.
Defined.

Lemma map_delete_set_fresh k v m :
  (forall v', ~ In (k, v') m) -> map_delete k (map_set k v m) = m.
Proof.
  unfold map_delete. induction m as [|[k' v'] r IH]; intros H.
  - cbn. now rewrite Z.eqb_refl.
  - cbn [map_set]. destruct (Z.eqb_spec k' k) as [->|Hne].
    + exfalso. apply (H v'). now left.
    + cbn [filter fst]. apply Z.eqb_neq in Hne. rewrite Hne. cbn [negb].
      f_equal. apply IH. intros w Hw. apply (H w). now right.
Qed.

Lemma remove_snoc_fresh (t : timer) l :
  ~ In t l -> remove timer_eq_dec t (l ++ [t]) = l.
Proof.
  intros H. rewrite remove_app, notin_remove by assumption.
  cbn [remove]. destruct (timer_eq_dec t t); [|contradiction].
  apply app_nil_r.
Qed.

(** A write that throws undoes the registration: the promise is
    rejected with the communication error, the table and the timers are
    as before the call, and nothing is recorded as written. *)
Theorem failed_write_unregisters request p s :
  pythonProcess s = Some p ->
  isVannaReady s = true ->
  (forall pr, ~ In (req_id request, pr) (pendingRequests s)) ->
  ~ In (requestTimer (req_id request) (promises s)) (timers s) ->
  let r := sendToVanna request true s in
  fst r = Promised (promises s)
  /\ pendingRequests (snd r) = pendingRequests s
  /\ timers (snd r) = timers s
  /\ written (snd r) = written s
  /\ settlements (snd r) = settlements s ++ [(promises s, Rejected WriteFailed)]
  /\ python (errorCounts (snd r)) = python (errorCounts s) + 1.
Proof.
  intros Hp Hr Hfresh Ht r. subst r. unfold sendToVanna. rewrite Hp, Hr.
  cbn [fst snd]. unfold reject. fold WriteFailed.
  match goal with
  | |- context [settle ?q ?o ?s0] =>
      destruct (settle_counts q o s0) as (_ & Cp & _);
      destruct (settle_spec q o s0) as [c E]
  end.
  rewrite Cp, E. fields.
  assert (Hd : map_delete (req_id request)
                 (map_set (req_id request) (promises s) (pendingRequests s))
               = pendingRequests s) by now apply map_delete_set_fresh.
  assert (Hrm : remove timer_eq_dec (requestTimer (req_id request) (promises s))
                  (timers s ++ [requestTimer (req_id request) (promises s)])
                = timers s) by now apply remove_snoc_fresh.
  rewrite Hd, Hrm. cbn [count python].
  repeat match goal with |- _ /\ _ => split end; reflexivity.
Qed.

Lemma failed_write_witness :
  let r := sendToVanna (mkRequest 1 "list_active_users" (limit_argument 10))
             true ready_state in
  fst r = Promised 0%nat
  /\ pendingRequests (snd r) = []
  /\ timers (snd r) = []
  /\ written (snd r) = []
  /\ settlements (snd r) = [(0%nat, Rejected WriteFailed)].
Proof.
  assert (H1 : pythonProcess ready_state = Some 0%nat) by (vm_compute; reflexivity).
  assert (H2 : isVannaReady ready_state = true) by (vm_compute; reflexivity).
  assert (H3 : forall pr, ~ In (1, pr) (pendingRequests ready_state))
    by (intros pr; vm_compute; auto).
  assert (H4 : ~ In (requestTimer 1 (promises ready_state)) (timers ready_state))
    by (vm_compute; auto).
  destruct (failed_write_unregisters
              (mkRequest 1 "list_active_users" (limit_argument 10))
              0%nat ready_state H1 H2 H3 H4) as (A & B & C & D & E & _).
  cbv zeta. rewrite A, B, C, D, E.
  repeat match goal with |- _ /\ _ => split end; vm_compute; reflexivity.
Defined.

(** [startPython] with the script or the interpreter missing counts the
    attempt and a python error, and does nothing else: no process, no
    timer, no retry scheduled. *)
Theorem startPython_without_files_fails_closed s :
  initializationAttempts s < maxAttempts ->
  let s' := startPython false s in
  initializationAttempts s' = initializationAttempts s + 1
  /\ python (errorCounts s') = python (errorCounts s) + 1
  /\ spawned s' = spawned s
  /\ pythonProcess s' = pythonProcess s
  /\ timers s' = timers s
  /\ isVannaReady s' = isVannaReady s.
Proof.
  intros H s'. subst s'. unfold startPython.
  apply Z.leb_gt in H. rewrite H. cbn.
  repeat match goal with |- _ /\ _ => split end; reflexivity.
Qed.

Lemma startPython_without_files_witness :
  initializationAttempts (boot false) = 1
  /\ spawned (boot false) = 0%nat
  /\ pythonProcess (boot false) = None
  /\ timers (boot false) = [].
Proof.
  assert (H : initializationAttempts constructed < maxAttempts) by reflexivity.
  destruct (startPython_without_files_fails_closed constructed H)
    as (A & _ & B & C & D & _).
  unfold boot. rewrite A, B, C, D.
  repeat match goal with |- _ /\ _ => split end; reflexivity.
Defined.

(** An exit with nothing pending rejects nothing. *)
Theorem exit_with_nothing_pending_rejects_nothing p code signal s :
  pendingRequests s = [] ->
  settlements (on_exit p code signal s) = settlements s
  /\ pendingRequests (on_exit p code signal s) = []
  /\ isVannaReady (on_exit p code signal s) = false.
Proof.
  intros H. destruct (on_exit_spec p code signal s) as [c ->]. cbv zeta.
  rewrite H.
  destruct (negb (is_SIGTERM signal) && negb (is_zero code)
            && (initializationAttempts s <? maxAttempts));
    cbn; rewrite app_nil_r; auto.
Qed.

Lemma exit_with_nothing_pending_witness :
  settlements (on_exit 0%nat (Some 1) None ready_state) = []
  /\ pendingRequests (on_exit 0%nat (Some 1) None ready_state) = [].
Proof.
  assert (H : pendingRequests ready_state = []) by (vm_compute; reflexivity).
  destruct (exit_with_nothing_pending_rejects_nothing 0%nat (Some 1) None
              ready_state H) as (A & B & _).
  rewrite A, B. split; vm_compute; reflexivity.
Defined.

(** A line that starts with an opening brace and does not parse is
    counted as a python error and otherwise ignored; a line that is empty
    after [trim] or starts with anything else is ignored altogether. *)
Theorem unparsable_line_is_logged_and_dropped JSON_parse line s :
  (classify JSON_parse line = unparsable ->
   handle_line JSON_parse line s = logError type_python s)
  /\ (classify JSON_parse line = not_a_message ->
      handle_line JSON_parse line s = s).
Proof.
  split; intros H; now rewrite handle_line_eq, H.
Qed.

Lemma unparsable_line_witness :
  handle_line JSON_parse_sample (js "{oops") one_pending
  = logError type_python one_pending
  /\ handle_line JSON_parse_sample (js "Loading model...") one_pending
     = one_pending.
Proof.
  split.
  - apply (proj1 (unparsable_line_is_logged_and_dropped JSON_parse_sample
                    (js "{oops") one_pending)).
    vm_compute. reflexivity.
  - apply (proj2 (unparsable_line_is_logged_and_dropped JSON_parse_sample
                    (js "Loading model...") one_pending)).
    vm_compute. reflexivity.
Defined.

Lemma map_get_set_same k v m : map_get k (map_set k v m) = Some v.
Proof.
  induction m as [|[k' v'] r IH]; cbn [map_set map_get].
  - now rewrite Z.eqb_refl.
  - destruct (Z.eqb_spec k' k) as [->|Hne]; cbn [map_get].
    + now rewrite Z.eqb_refl.
    + apply Z.eqb_neq in Hne. now rewrite Hne.
Qed.

(** A request sent while ready is registered under its identifier, gets a
    30 s timer of its own, and is written to the current worker. *)
Theorem ready_request_is_registered_and_written request p s :
  pythonProcess s = Some p ->
  isVannaReady s = true ->
  let r := sendToVanna request false s in
  fst r = Promised (promises s)
  /\ pendingRequests (snd r)
     = map_set (req_id request) (promises s) (pendingRequests s)
  /\ map_get (req_id request) (pendingRequests (snd r)) = Some (promises s)
  /\ timers (snd r) = timers s ++ [requestTimer (req_id request) (promises s)]
  /\ delay (requestTimer (req_id request) (promises s)) = 30000
  /\ written (snd r) = written s ++ [(p, request)]
  /\ settlements (snd r) = settlements s.
Proof.
  intros Hp Hr r. subst r. unfold sendToVanna. rewrite Hp, Hr. fields.
  repeat match goal with |- _ /\ _ => split end; try reflexivity.
  apply map_get_set_same.
Qed.

Lemma ready_request_witness :
  let r := sendToVanna (mkRequest 1 "list_active_users" (limit_argument 10))
             false ready_state in
  fst r = Promised 0%nat
  /\ pendingRequests (snd r) = [(1, 0%nat)]
  /\ timers (snd r) = [requestTimer 1 0%nat]
  /\ written (snd r)
     = [(0%nat, mkRequest 1 "list_active_users" (limit_argument 10))].
Proof.
  assert (H1 : pythonProcess ready_state = Some 0%nat) by (vm_compute; reflexivity).
  assert (H2 : isVannaReady ready_state = true) by (vm_compute; reflexivity).
  destruct (ready_request_is_registered_and_written
              (mkRequest 1 "list_active_users" (limit_argument 10))
              0%nat ready_state H1 H2) as (A & B & _ & C & _ & D & _).
  cbv zeta. rewrite A, B, C, D.
  repeat match goal with |- _ /\ _ => split end; vm_compute; reflexivity.
Defined.

(** ** Input validation and error texts (lines 50-87) *)

Example dangerous_examples :
  regex_test dangerous (js "please DROP   TaBle users") = true
  /\ regex_test dangerous (js "droptable users") = false
  /\ regex_test dangerous (js "Show truncated names") = true
  /\ regex_test dangerous (js "Show me all active users") = false.
Proof. vm_compute. repeat split; reflexivity. Qed.

Example validateInput_examples :
  validateInput None "question" = invalid "ERROR: Missing input"
  /\ validateInput (Some (JNum 5%Q)) "question"
     = invalid "ERROR: Question must be text"
  /\ validateInput (Some (JStr (js "  help  "))) "question"
     = invalid "ERROR: Question too short (min 5 chars)"
  /\ validateInput (Some (JStr (js "Delete  FROM users"))) "question"
     = invalid
         "ERROR: Unsafe operations not allowed. Only SELECT queries permitted."
  /\ validateInput (Some (JStr (js "Show me all active users"))) "question"
     = mkValidity true None.
Proof. vm_compute. repeat split; reflexivity. Qed.

Example generateUserFriendlyError_examples :
  generateUserFriendlyError (js "read ECONNRESET: Connection lost")
  = js "Connection issue. Please try again."
  /\ generateUserFriendlyError (js "Table doesn't exist after TIMEOUT")
     = js "Request timeout. Try simpler question or wait."
  /\ generateUserFriendlyError [] = js "Error: Error" ++ advice.
Proof. vm_compute. repeat split; reflexivity. Qed.

(** ** Whitespace and [trim] *)

Lemma trimStart_whitespace ws s :
  whitespace ws -> trimStart (ws ++ s) = trimStart s.
Proof.
  induction 1 as [|c ws Hc _ IH]; [reflexivity|].
  cbn [app trimStart]. now rewrite Hc.
Qed.

Lemma trimStart_fixed c r : isWhiteSpace c = false -> trimStart (c :: r) = c :: r.
Proof. intros H. cbn [trimStart]. now rewrite H. Qed.

Lemma trimStart_split s :
  exists ws, whitespace ws /\ s = ws ++ trimStart s
             /\ match trimStart s with
                | [] => True
                | c :: _ => isWhiteSpace c = false
                end.
Proof.
  induction s as [|c r IH].
  - exists []. repeat split. constructor.
  - cbn [trimStart]. destruct (isWhiteSpace c) eqn:E.
    + destruct IH as (ws & Hws & Hs & Hh). exists (c :: ws). splits.
      * now constructor.
      * cbn [app]. now f_equal.
      * exact Hh.
    + exists []. splits; [constructor | reflexivity | exact E].
Qed.

Lemma trimStart_app s x :
  trimStart s <> [] -> trimStart (s ++ x) = trimStart s ++ x.
Proof.
  induction s as [|c r IH]; [intros H; now elim H|].
  cbn [app trimStart]. destruct (isWhiteSpace c); [exact IH | reflexivity].
Qed.

Lemma trimStart_nil_whitespace s : trimStart s = [] -> whitespace s.
Proof.
  induction s as [|c r IH]; [constructor|].
  cbn [trimStart]. destruct (isWhiteSpace c) eqn:E; [|discriminate].
  intros H. constructor; [exact E | now apply IH].
Qed.

Lemma whitespace_trimStart_nil s : whitespace s -> trimStart s = [].
Proof.
  intros H. rewrite <- (app_nil_r s). now rewrite trimStart_whitespace.
Qed.

Lemma whitespace_rev ws : whitespace ws -> whitespace (rev ws).
Proof. unfold whitespace. intros H. now apply Forall_rev. Qed.

Lemma whitespace_app a b : whitespace a -> whitespace b -> whitespace (a ++ b).
Proof. unfold whitespace. intros. apply Forall_app. now split. Qed.

Lemma trimEnd_whitespace s ws : whitespace ws -> trimEnd (s ++ ws) = trimEnd s.
Proof.
  intros H. unfold trimEnd. rewrite rev_app_distr.
  now rewrite trimStart_whitespace by now apply whitespace_rev.
Qed.

Lemma trimEnd_split s :
  exists ws, whitespace ws /\ s = trimEnd s ++ ws.
Proof.
  unfold trimEnd. destruct (trimStart_split (rev s)) as (ws & Hws & Hs & _).
  exists (rev ws). split; [now apply whitespace_rev|].
  rewrite <- rev_app_distr, <- Hs. now rewrite rev_involutive.
Qed.

(** A string is whitespace, its trimmed form, whitespace. *)
Lemma trim_split s :
  exists ws1 ws2, whitespace ws1 /\ whitespace ws2 /\ s = ws1 ++ trim s ++ ws2.
Proof.
  destruct (trimStart_split s) as (ws1 & H1 & Hs & _).
  destruct (trimEnd_split (trimStart s)) as (ws2 & H2 & Ht).
  exists ws1, ws2. splits; auto. unfold trim. now rewrite <- Ht.
Qed.

Lemma trim_whitespace ws1 s ws2 :
  whitespace ws1 -> whitespace ws2 -> trim (ws1 ++ s ++ ws2) = trim s.
Proof.
  intros H1 H2. unfold trim. rewrite trimStart_whitespace by assumption.
  destruct (trimStart s) as [|c r] eqn:E.
  - assert (Hs : whitespace s) by now apply trimStart_nil_whitespace.
    rewrite whitespace_trimStart_nil by now apply whitespace_app.
    reflexivity.
  - rewrite trimStart_app by (rewrite E; discriminate).
    rewrite E. now apply trimEnd_whitespace.
Qed.

Lemma trim_idempotent s : trim (trim s) = trim s.
Proof.
  destruct (trim_split s) as (ws1 & ws2 & H1 & H2 & Hs).
  rewrite Hs at 2. now rewrite trim_whitespace.
Qed.

(** ** The matcher against what a pattern means *)

Lemma match_many_spec a k s :
  match_many a k s = true
  <-> exists c cs rest,
        s = c :: cs ++ rest /\ atom_matches a c = true
        /\ Forall (fun x => atom_matches a x = true) cs /\ k rest = true.
Proof.
  induction s as [|c r IH]; cbn [match_many].
  - split; [discriminate | intros (c & cs & rest & H & _); discriminate].
  - rewrite andb_true_iff, orb_true_iff, IH. split.
    + intros [Hc [(c' & cs & rest & -> & Hc' & Hcs & Hk) | Hk]].
      * exists c, (c' :: cs), rest. splits; auto.
      * exists c, [], r. splits; auto.
    + intros (c' & cs & rest & E & Hc & Hcs & Hk).
      injection E as -> ->. split; [exact Hc|].
      destruct cs as [|d cs]; [now right|].
      left. exists d, cs, rest. inversion Hcs; subst. splits; auto.
Qed.

Lemma match_sequence_spec items : forall s,
  match_sequence items s = true
  <-> exists w suf, s = w ++ suf /\ matches items w.
Proof.
  induction items as [|[a|a] rest IH]; intros s; cbn [match_sequence].
  - split; [|reflexivity]. intros _. exists [], s. split; [reflexivity | constructor].
  - destruct s as [|c r].
    + split; [discriminate|]. intros (w & suf & E & M). inversion M; subst.
      discriminate.
    + rewrite andb_true_iff, IH. split.
      * intros (Hc & w & suf & -> & M). exists (c :: w), suf.
        split; [reflexivity | now constructor].
      * intros (w & suf & E & M). inversion M; subst.
        injection E as -> ->. split; [assumption|]. eauto.
  - rewrite match_many_spec. split.
    + intros (c & cs & r & -> & Hc & Hcs & Hk).
      apply IH in Hk. destruct Hk as (w & suf & -> & M).
      exists (c :: cs ++ w), suf. split.
      * cbn [app]. now rewrite app_assoc.
      * now constructor.
    + intros (w & suf & E & M). inversion M; subst.
      exists c, cs, (w0 ++ suf). splits; auto.
      * cbn [app]. now rewrite app_assoc.
      * apply IH. eauto.
Qed.

Lemma regex_test_spec r s : regex_test r s = true <-> found r s.
Proof.
  unfold found. induction s as [|c t IH]; cbn [regex_test].
  - rewrite orb_false_r, existsb_exists. split.
    + intros (alt & Hin & M). apply match_sequence_spec in M.
      destruct M as (w & suf & E & M). exists alt, [], w, suf. auto.
    + intros (alt & pre & w & suf & Hin & E & M). exists alt. split; auto.
      apply match_sequence_spec.
      destruct pre; [|discriminate]. exists w, suf. auto.
  - rewrite orb_true_iff, existsb_exists, IH. split.
    + intros [(alt & Hin & M) | (alt & pre & w & suf & Hin & -> & M)].
      * apply match_sequence_spec in M. destruct M as (w & suf & E & M).
        exists alt, [], w, suf. auto.
      * exists alt, (c :: pre), w, suf. auto.
    + intros (alt & pre & w & suf & Hin & E & M). destruct pre as [|d pre].
      * left. exists alt. split; auto. apply match_sequence_spec.
        exists w, suf. auto.
      * injection E as -> ->. right. exists alt, pre, w, suf. auto.
Qed.

Lemma matches_literals l : forall w,
  matches (map (fun c => One (Lit c)) l) w
  <-> map fold_case w = map fold_case l.
Proof.
  induction l as [|p l IH]; intros w; cbn [map].
  - split.
    + intros M. now inversion M.
    + destruct w; [constructor | discriminate].
  - split.
    + intros M. inversion M; subst. cbn [map]. f_equal.
      * now apply N.eqb_eq.
      * now apply IH.
    + destruct w as [|c w]; [discriminate|]. cbn [map]. intros E.
      injection E as Ec Ew. constructor.
      * cbn [atom_matches]. now apply N.eqb_eq.
      * now apply IH.
Qed.

Lemma matches_word pat w : matches (word pat) w <-> same_word w pat.
Proof. apply matches_literals. Qed.

Lemma matches_app a : forall b w,
  matches (a ++ b) w
  <-> exists w1 w2, w = w1 ++ w2 /\ matches a w1 /\ matches b w2.
Proof.
  induction a as [|i a IH]; intros b w; cbn [app].
  - split.
    + intros M. exists [], w. splits; auto. constructor.
    + intros (w1 & w2 & -> & M1 & M2). now inversion M1.
  - split.
    + intros M. inversion M; subst.
      * apply IH in H3. destruct H3 as (w1 & w2 & -> & M1 & M2).
        exists (c :: w1), w2. splits; auto. now constructor.
      * apply IH in H4. destruct H4 as (w1 & w2 & -> & M1 & M2).
        exists (c :: cs ++ w1), w2. splits; auto.
        -- cbn [app]. now rewrite <- app_assoc.
        -- now constructor.
    + intros (w1 & w2 & -> & M1 & M2). inversion M1; subst.
      * cbn [app]. constructor; auto. apply IH. eauto.
      * cbn [app]. rewrite <- app_assoc. constructor; auto. apply IH. eauto.
Qed.

Lemma matches_spaces w : matches [Many Space] w <-> w <> [] /\ whitespace w.
Proof.
  split.
  - intros M. inversion M; subst. inversion H4; subst. rewrite app_nil_r.
    split; [discriminate|]. now constructor.
  - intros [Hn Hw]. destruct w as [|c cs]; [now elim Hn|].
    inversion Hw; subst. rewrite <- (app_nil_r cs).
    constructor; auto. constructor.
Qed.

Lemma found_cons alt alt' r s :
  found (alt :: alt' :: r) s <-> found [alt] s \/ found (alt' :: r) s.
Proof.
  unfold found. split.
  - intros (a & pre & w & suf & [<- | Hin] & E & M).
    + left. exists alt, pre, w, suf. splits; auto. now left.
    + right. exists a, pre, w, suf. auto.
  - intros [(a & pre & w & suf & [<- | []] & E & M)
           | (a & pre & w & suf & Hin & E & M)].
    + exists alt, pre, w, suf. splits; auto. now left.
    + exists a, pre, w, suf. splits; auto. now right.
Qed.

Lemma found_word pat s : found [word pat] s <-> contains_word s pat.
Proof.
  unfold found, contains_word. split.
  - intros (a & pre & w & suf & [<- | []] & E & M).
    exists pre, w, suf. split; auto. now apply matches_word.
  - intros (pre & w & suf & E & M). exists (word pat), pre, w, suf.
    splits; auto; [now left | now apply matches_word].
Qed.

Lemma found_words p1 p2 s :
  found [word p1 ++ [Many Space] ++ word p2] s <-> contains_words s p1 p2.
Proof.
  unfold found, contains_words. split.
  - intros (a & pre & w & suf & [<- | []] & E & M).
    apply matches_app in M. destruct M as (w1 & w' & -> & M1 & M).
    apply matches_app in M. destruct M as (ws & w2 & -> & Ms & M2).
    apply matches_spaces in Ms. destruct Ms as [Hn Hw].
    exists pre, w1, ws, w2, suf. splits; auto.
    + rewrite E. now rewrite <- !app_assoc.
    + now apply matches_word.
    + now apply matches_word.
  - intros (pre & w1 & ws & w2 & suf & E & M1 & Hn & Hw & M2).
    exists (word p1 ++ [Many Space] ++ word p2), pre, (w1 ++ ws ++ w2), suf.
    splits; [now left | rewrite E; now rewrite <- !app_assoc |].
    apply matches_app. exists w1, (ws ++ w2). splits; auto.
    + now apply matches_word.
    + apply matches_app. exists ws, w2. splits; auto.
      * now apply matches_spaces.
      * now apply matches_word.
Qed.

Lemma dangerous_unsafe s : regex_test dangerous s = true <-> unsafe s.
Proof.
  rewrite regex_test_spec. unfold dangerous, unsafe.
  rewrite !found_cons, !found_words, !found_word. tauto.
Qed.

(** ** Whitespace is no letter *)

Lemma whitespace_no_letter c p :
  isWhiteSpace c = true -> letter p = true ->
  N.eqb (fold_case c) (fold_case p) = false.
Proof.
  intros Hc Hp. unfold fold_case at 2. unfold letter in Hp. rewrite Hp.
  apply andb_prop in Hp. destruct Hp as [H1 H2].
  apply N.leb_le in H1, H2.
  unfold isWhiteSpace in Hc. apply existsb_exists in Hc.
  destruct Hc as (x & Hin & E). apply N.eqb_eq in E. subst x.
  apply N.eqb_neq.
  repeat (destruct Hin as [<- | Hin]; [cbv [fold_case N.leb N.compare Pos.compare Pos.compare_cont andb]; lia|]).
  destruct Hin.
Qed.

Lemma solid_no_whitespace i c :
  solid i = true -> isWhiteSpace c = true ->
  match i with One a | Many a => atom_matches a c end = false.
Proof.
  destruct i as [[p|]|]; try discriminate. cbn [solid atom_matches].
  intros Hp Hc. now apply whitespace_no_letter.
Qed.

Lemma match_sequence_solid_start items c s :
  solid_start items = true -> isWhiteSpace c = true ->
  match_sequence items (c :: s) = false.
Proof.
  destruct items as [|[[p|]|] rest]; try discriminate.
  cbn [solid_start solid match_sequence atom_matches]. intros Hp Hc.
  now rewrite whitespace_no_letter.
Qed.

Lemma regex_test_leading r ws s :
  forallb solid_start r = true -> whitespace ws ->
  regex_test r (ws ++ s) = regex_test r s.
Proof.
  intros Hr. induction 1 as [|c ws Hc _ IH]; [reflexivity|].
  cbn [app regex_test]. rewrite IH.
  replace (existsb _ r) with false; [reflexivity|].
  symmetry. apply not_true_is_false. intros E.
  apply existsb_exists in E. destruct E as (alt & Hin & M).
  rewrite forallb_forall in Hr.
  now rewrite match_sequence_solid_start in M by auto.
Qed.

Lemma match_many_whitespace a k ws :
  (forall ws', whitespace ws' -> k ws' = false) ->
  whitespace ws -> match_many a k ws = false.
Proof.
  intros Hk. induction 1 as [|c ws Hc Hws IH]; [reflexivity|].
  cbn [match_many]. rewrite IH, Hk by assumption.
  now rewrite andb_false_r.
Qed.

Lemma solid_end_cons i items :
  items <> [] -> solid_end (i :: items) = solid_end items.
Proof.
  intros H. unfold solid_end. cbn [rev].
  destruct (rev items) as [|j r] eqn:E; [|reflexivity].
  apply (f_equal (@rev item)) in E. rewrite rev_involutive in E. now elim H.
Qed.

(** A sequence that ends with a letter matches no whitespace, and is
    blind to whitespace after the text. *)
Lemma match_sequence_whitespace items : forall ws,
  solid_end items = true -> whitespace ws -> match_sequence items ws = false.
Proof.
  induction items as [|i rest IH]; intros ws He Hws; [discriminate|].
  destruct rest as [|j rest'].
  - unfold solid_end in He. cbn [rev app] in He.
    destruct i as [[p|]|]; try discriminate. cbn [solid] in He.
    cbn [match_sequence]. destruct Hws as [|c ws Hc _]; [reflexivity|].
    cbn [atom_matches]. now rewrite whitespace_no_letter.
  - rewrite solid_end_cons in He by discriminate.
    remember (j :: rest') as tail eqn:Et.
    destruct i as [a|a]; cbn [match_sequence].
    + destruct Hws as [|c ws Hc Hws]; [reflexivity|].
      rewrite (IH ws) by assumption. now rewrite andb_false_r.
    + apply match_many_whitespace; auto.
Qed.

Lemma match_many_trailing a k ws :
  whitespace ws ->
  (forall ws', whitespace ws' -> k ws' = false) ->
  (forall y, k (y ++ ws) = k y) ->
  forall y, match_many a k (y ++ ws) = match_many a k y.
Proof.
  intros Hws Hk Hy. induction y as [|c y IH].
  - cbn [app match_many]. now apply match_many_whitespace.
  - cbn [app match_many]. now rewrite IH, Hy.
Qed.

Lemma match_sequence_trailing items ws :
  whitespace ws -> solid_end items = true ->
  forall y, match_sequence items (y ++ ws) = match_sequence items y.
Proof.
  intros Hws. induction items as [|i rest IH]; intros He y; [discriminate|].
  destruct rest as [|j rest'].
  - unfold solid_end in He. cbn [rev app] in He.
    destruct i as [[p|]|]; try discriminate. cbn [solid] in He.
    cbn [match_sequence]. destruct y as [|c y]; [|reflexivity].
    cbn [app]. destruct Hws as [|c ws Hc _]; [reflexivity|].
    cbn [atom_matches]. now rewrite whitespace_no_letter.
  - rewrite solid_end_cons in He by discriminate.
    remember (j :: rest') as tail eqn:Et.
    destruct i as [a|a]; cbn [match_sequence].
    + destruct y as [|c y].
      * cbn [app]. destruct Hws as [|c ws Hc Hws]; [reflexivity|].
        rewrite (match_sequence_whitespace tail ws) by assumption.
        now rewrite andb_false_r.
      * cbn [app]. now rewrite IH.
    + apply match_many_trailing; auto.
      intros ws' Hws'. now apply match_sequence_whitespace.
Qed.

Lemma regex_test_trailing r ws :
  forallb solid_start r = true -> forallb solid_end r = true ->
  whitespace ws ->
  forall y, regex_test r (y ++ ws) = regex_test r y.
Proof.
  intros Hs He Hws. induction y as [|c y IH].
  - cbn [app]. rewrite <- (app_nil_r ws) at 1.
    now rewrite regex_test_leading.
  - cbn [app regex_test]. rewrite IH. f_equal.
    rewrite forallb_forall in He.
    clear IH. induction r as [|alt r IHr]; [reflexivity|].
    cbn [existsb]. rewrite IHr.
    + f_equal. change (c :: y ++ ws) with ((c :: y) ++ ws).
      apply match_sequence_trailing; auto. apply He. now left.
    + cbn [forallb] in Hs. now apply andb_prop in Hs.
    + intros x Hx. apply He. now right.
Qed.

Lemma dangerous_solid :
  forallb solid_start dangerous = true /\ forallb solid_end dangerous = true.
Proof. split; vm_compute; reflexivity. Qed.

(** The check sees the same in a question and in its trimmed form. *)
Lemma dangerous_trim q :
  regex_test dangerous (trim q) = regex_test dangerous q.
Proof.
  destruct (trim_split q) as (ws1 & ws2 & H1 & H2 & E).
  destruct dangerous_solid as [Hs He].
  rewrite E at 2.
  rewrite regex_test_leading by assumption.
  now rewrite regex_test_trailing.
Qed.

Lemma validateInput_question q :
  isValid (validateInput (Some (JStr q)) "question")
  = (Nat.leb 5 (List.length (trim q)) && Nat.leb (List.length (trim q)) 500
     && negb (regex_test dangerous (trim q)))%bool.
Proof.
  unfold validateInput. cbn [truthy].
  destruct q as [|c q].
  - reflexivity.
  - cbn [negb].
    change (String.eqb "question" "question") with true. cbv iota zeta.
    set (t := trim (c :: q)).
    destruct (Nat.ltb_spec (List.length t) 5) as [H5|H5].
    + cbn [isValid invalid]. apply Nat.leb_gt in H5. now rewrite H5.
    + apply Nat.leb_le in H5. rewrite H5.
      destruct (Nat.ltb_spec 500 (List.length t)) as [H500|H500].
      * cbn [isValid invalid]. apply Nat.leb_gt in H500. now rewrite H500.
      * apply Nat.leb_le in H500. rewrite H500.
        now destruct (regex_test dangerous t).
Qed.

(** [validateInput] accepts a question exactly when it is a string
    whose trimmed form has 5 to 500 characters and holds none of the
    dangerous patterns, in any letter case and with any whitespace between
    the two words of a pattern; the trimmed form holds such a pattern
    exactly when the question itself does; for a type other than
    ['question'] every truthy input is accepted. *)
Theorem validateInput_accepts_exactly_safe_questions :
  (forall input,
      isValid (validateInput input "question") = true
      <-> exists q, input = Some (JStr q)
                    /\ (5 <= List.length (trim q) <= 500)%nat
                    /\ ~ unsafe (trim q))
  /\ (forall q, unsafe (trim q) <-> unsafe q)
  /\ (forall input type,
        type <> "question"%string ->
        isValid (validateInput input type) = truthy input).
Proof.
  splits.
  - intros input. split.
    + intros H. destruct input as [[| | | |q| |]|];
        try (cbn in H; discriminate);
        try (unfold validateInput in H; cbn [truthy negb] in H;
             try destruct (negb _);
             cbn in H; discriminate).
      exists q. split; [reflexivity|].
      rewrite validateInput_question in H.
      apply andb_prop in H. destruct H as [H Hd].
      apply andb_prop in H. destruct H as [H5 H500].
      apply Nat.leb_le in H5, H500. split; [lia|].
      rewrite <- dangerous_unsafe. now destruct (regex_test dangerous (trim q)).
    + intros (q & -> & [H5 H500] & Hu).
      rewrite validateInput_question.
      apply Nat.leb_le in H5, H500. rewrite H5, H500.
      destruct (regex_test dangerous (trim q)) eqn:E; [|reflexivity].
      apply dangerous_unsafe in E. now elim Hu.
  - intros q. now rewrite <- !dangerous_unsafe, dangerous_trim.
  - intros input type Ht. unfold validateInput.
    destruct (truthy input); [|reflexivity]. cbn [negb].
    apply String.eqb_neq in Ht. now rewrite Ht.
Qed.

(** Whitespace around a question changes neither what [trim] makes
    of it nor the verdict of [validateInput]. *)
Theorem validateInput_ignores_surrounding_whitespace ws1 q ws2 :
  whitespace ws1 -> whitespace ws2 ->
  trim (ws1 ++ q ++ ws2) = trim q
  /\ isValid (validateInput (Some (JStr (ws1 ++ q ++ ws2))) "question")
     = isValid (validateInput (Some (JStr q)) "question").
Proof.
  intros H1 H2. split; [now apply trim_whitespace|].
  rewrite !validateInput_question. now rewrite trim_whitespace.
Qed.

Lemma validateInput_ignores_surrounding_whitespace_witness :
  trim (js "  " ++ js "Show me all active users" ++ [LF])
  = trim (js "Show me all active users")
  /\ isValid (validateInput
                (Some (JStr (js "  " ++ js "Show me all active users" ++ [LF])))
                "question")
     = isValid (validateInput (Some (JStr (js "Show me all active users")))
                  "question").
Proof.
  apply (validateInput_ignores_surrounding_whitespace
           (js "  ") (js "Show me all active users") [LF]).
  - repeat constructor.
  - repeat constructor.
Defined.

Lemma test_word a m : regex_test [word a] m = true <-> contains_word m a.
Proof. now rewrite regex_test_spec, found_word. Qed.

Lemma test_either a b m :
  regex_test [word a; word b] m = true
  <-> contains_word m a \/ contains_word m b.
Proof.
  rewrite regex_test_spec, found_cons, !found_word. reflexivity.
Qed.

(** [generateUserFriendlyError] answers with the text of the first
    pattern, in the order of the table, that occurs in the message in any
    letter case, and with the generic text around the message when none
    does; so the server's own timeout and exit rejections are reported as
    the timeout and the restarting text. *)
Theorem generateUserFriendlyError_first_match message :
  let m := errorMessage message in
  let text := generateUserFriendlyError message in
  let timed_out := contains_word m "timeout" in
  let connection := contains_word m "connection" \/ contains_word m "network" in
  let syntax :=
    contains_word m "syntax error" \/ contains_word m "invalid sql" in
  let permission :=
    contains_word m "permission" \/ contains_word m "access denied" in
  let missing :=
    contains_word m "not found" \/ contains_word m "doesn't exist" in
  let restarting := contains_word m "python process" in
  (timed_out -> text = js "Request timeout. Try simpler question or wait.")
  /\ (~ timed_out -> connection ->
      text = js "Connection issue. Please try again.")
  /\ (~ timed_out -> ~ connection -> syntax ->
      text = js "Query error. Please rephrase clearly.")
  /\ (~ timed_out -> ~ connection -> ~ syntax -> permission ->
      text = js "Access denied to requested data.")
  /\ (~ timed_out -> ~ connection -> ~ syntax -> ~ permission -> missing ->
      text = js "Requested data not found.")
  /\ (~ timed_out -> ~ connection -> ~ syntax -> ~ permission -> ~ missing ->
      restarting -> text = js "System restarting. Try again shortly.")
  /\ (~ timed_out -> ~ connection -> ~ syntax -> ~ permission -> ~ missing ->
      ~ restarting -> text = js "Error: " ++ m ++ advice)
  /\ (forall text', RequestTimedOut = Error text' ->
        generateUserFriendlyError (js text')
        = js "Request timeout. Try simpler question or wait.")
  /\ (forall text', ProcessExited = Error text' ->
        generateUserFriendlyError (js text')
        = js "System restarting. Try again shortly.").
Proof.
  cbv zeta. unfold generateUserFriendlyError, patterns.
  set (m := errorMessage message).
  rewrite <- (test_word "timeout" m), <- (test_either "connection" "network" m),
    <- (test_either "syntax error" "invalid sql" m),
    <- (test_either "permission" "access denied" m),
    <- (test_either "not found" "doesn't exist" m),
    <- (test_word "python process" m).
  cbn [find fst].
  do 7 (split;
        [destruct (regex_test [word "timeout"] m),
           (regex_test [word "connection"; word "network"] m),
           (regex_test [word "syntax error"; word "invalid sql"] m),
           (regex_test [word "permission"; word "access denied"] m),
           (regex_test [word "not found"; word "doesn't exist"] m),
           (regex_test [word "python process"] m);
         intros; first [reflexivity | congruence]|]).
  split; intros text' E; injection E as <-; vm_compute; reflexivity.
Qed.

(** ** The reply to an unknown tool *)

Lemma patterns_skip_prefix name :
  Forall (fun p => regex_test (fst p) (js "Unknown tool: " ++ name)
                   = regex_test (fst p) name) patterns.
Proof.
  unfold patterns.
  repeat (constructor; [cbn; reflexivity|]). constructor.
Qed.

(** The reply to a call of an unknown tool is built from the message
    [Unknown tool: ] followed by the name, and those words themselves
    match no pattern of [generateUserFriendlyError]: a name that holds
    none of the patterns is answered with the generic text naming the
    tool, and a name that holds one, such as a name with [timeout] in it,
    is answered with that pattern's text instead. *)
Theorem unknown_tool_reply_depends_on_the_name name :
  (Forall (fun p => regex_test (fst p) name = false) patterns ->
   unknown_tool_text name
   = js "Error: Unknown tool: " ++ name ++ advice)
  /\ (contains_word name "timeout" ->
      unknown_tool_text name
      = js "Request timeout. Try simpler question or wait.").
Proof.
  unfold unknown_tool_text, generateUserFriendlyError.
  change (errorMessage (js "Unknown tool: " ++ name))
    with (js "Unknown tool: " ++ name).
  pose proof (patterns_skip_prefix name) as S. split.
  - intros H.
    replace (find (fun p => regex_test (fst p) (js "Unknown tool: " ++ name))
               patterns) with (@None (regex * string)).
    + now rewrite <- app_assoc.
    + symmetry. induction patterns as [|p l IH]; [reflexivity|].
      inversion S; subst. inversion H; subst. cbn [find].
      rewrite H2, H4. now apply IH.
  - intros H. apply test_word in H.
    inversion S as [|p l Hp _]; subst. cbn [fst] in Hp.
    unfold patterns. cbn [find fst]. now rewrite Hp, H.
Qed.

(** ** The framer loses nothing *)

Lemma removelast_more {A : Type} (a : A) l :
  l <> [] -> removelast (a :: l) = a :: removelast l.
Proof. destruct l; [intros H; now elim H | reflexivity]. Qed.

Lemma last_more {A : Type} (a : A) l d : l <> [] -> last (a :: l) d = last l d.
Proof. destruct l; [intros H; now elim H | reflexivity]. Qed.

Lemma split_joined sep s :
  List.concat (map (fun l => l ++ [sep]) (removelast (split sep s)))
  ++ last (split sep s) [] = s.
Proof.
  induction s as [|c r IH]; [reflexivity|].
  pose proof (split_not_nil sep r) as Hn.
  cbn [split]. destruct (N.eqb_spec c sep) as [->|Hne].
  - rewrite removelast_more, last_more by assumption.
    cbn [map List.concat app]. now rewrite IH.
  - destruct (split sep r) as [|h t] eqn:E; [now elim Hn|].
    destruct t as [|h' t'].
    + cbn in IH |- *. now rewrite IH.
    + rewrite removelast_more, last_more by discriminate.
      rewrite removelast_more, last_more in IH by discriminate.
      cbn [map List.concat app] in IH |- *.
      rewrite <- !app_assoc in IH |- *. cbn [app] in IH |- *.
      now rewrite IH.
Qed.

Lemma In_removelast {A : Type} (x : A) l : In x (removelast l) -> In x l.
Proof.
  induction l as [|a l IH]; [auto|]. cbn [removelast].
  destruct l as [|b l]; [intros []|]. intros [->|H]; [now left|].
  right. now apply IH.
Qed.

(** One call of the stdout listener loses and invents nothing: the
    lines it hands on, each followed by a newline, and then the buffer it
    keeps, are the old buffer followed by the decoded chunk; no line and
    no buffer holds a newline. *)
Theorem frame_loses_nothing buffer data :
  let lines := fst (frame buffer data) in
  let rest := snd (frame buffer data) in
  List.concat (map (fun l => l ++ [LF]) lines) ++ rest = buffer ++ toString data
  /\ Forall (fun l => ~ In LF l) lines
  /\ ~ In LF rest.
Proof.
  cbv zeta. unfold frame, frame_string. cbn [fst snd]. splits.
  - apply split_joined.
  - apply Forall_forall. intros l Hl.
    apply (split_pieces_without_separator LF (buffer ++ toString data)).
    now apply In_removelast.
  - apply last_split_without_separator.
Qed.

(** ** The buffers over a run *)

Lemma settle_frame pr o s :
  pythonProcess (settle pr o s) = pythonProcess s
  /\ buffers (settle pr o s) = buffers s
  /\ hostExited (settle pr o s) = hostExited s
  /\ written (settle pr o s) = written s
  /\ signalled (settle pr o s) = signalled s
  /\ requestId (settle pr o s) = requestId s
  /\ issued (settle pr o s) = issued s
  /\ promises (settle pr o s) = promises s
  /\ pendingRequests (settle pr o s) = pendingRequests s.
Proof. destruct (settle_spec pr o s) as [c ->]. cbn. splits; reflexivity. Qed.

Lemma handle_line_frame JSON_parse line s :
  let s' := handle_line JSON_parse line s in
  pythonProcess s' = pythonProcess s
  /\ buffers s' = buffers s
  /\ hostExited s' = hostExited s
  /\ written s' = written s
  /\ signalled s' = signalled s
  /\ requestId s' = requestId s
  /\ issued s' = issued s
  /\ promises s' = promises s.
Proof.
  cbv zeta. rewrite handle_line_eq.
  destruct (classify JSON_parse line) as [| |response];
    try (cbn; splits; reflexivity).
  destruct (response_key response) as [k|]; [|splits; reflexivity].
  destruct (map_get k (pendingRequests s)) as [pr|]; [|splits; reflexivity].
  match goal with
  | |- context [settle ?p ?o ?s0] =>
      destruct (settle_frame p o s0) as (A & B & C & D & E & F & G & H & _)
  end.
  rewrite A, B, C, D, E, F, G, H. cbn. splits; reflexivity.
Qed.

Lemma handle_lines_frame JSON_parse lines : forall s,
  let s' := fold_left (fun s line => handle_line JSON_parse line s) lines s in
  pythonProcess s' = pythonProcess s
  /\ buffers s' = buffers s
  /\ hostExited s' = hostExited s
  /\ written s' = written s
  /\ signalled s' = signalled s
  /\ requestId s' = requestId s
  /\ issued s' = issued s
  /\ promises s' = promises s.
Proof.
  induction lines as [|line r IH]; intros s; cbn [fold_left]; cbv zeta.
  - splits; reflexivity.
  - destruct (IH (handle_line JSON_parse line s)) as (A & B & C & D & E & F & G & H).
    destruct (handle_line_frame JSON_parse line s)
      as (A' & B' & C' & D' & E' & F' & G' & H').
    splits; congruence.
Qed.

Lemma on_stdout_frame JSON_parse p data s :
  let s' := on_stdout JSON_parse p data s in
  pythonProcess s' = pythonProcess s
  /\ buffers s'
     = put_buffer p (snd (frame (get_buffer p (buffers s)) data)) (buffers s)
  /\ hostExited s' = hostExited s
  /\ written s' = written s
  /\ signalled s' = signalled s
  /\ requestId s' = requestId s
  /\ issued s' = issued s
  /\ promises s' = promises s.
Proof.
  cbv zeta. unfold on_stdout.
  destruct (frame (get_buffer p (buffers s)) data) as [lines buffer].
  destruct (handle_lines_frame JSON_parse lines
              (set_buffers (put_buffer p buffer (buffers s)) s))
    as (A & B & C & D & E & F & G & H).
  cbn [snd]. splits; assumption.
Qed.

Lemma sendToVanna_frame name args write_throws s :
  let '(request, s1) := next_request name args s in
  let s' := awaited (sendToVanna request write_throws s1) in
  pythonProcess s' = pythonProcess s
  /\ buffers s' = buffers s
  /\ hostExited s' = hostExited s
  /\ signalled s' = signalled s.
Proof.
  cbn [next_request]. unfold sendToVanna.
  cbn [pythonProcess isVannaReady set_issued set_requestId req_id promises].
  destruct (pythonProcess s) as [p|] eqn:Ep; [destruct (isVannaReady s) eqn:R|];
    cbn [awaited]; try (cbn; rewrite ?Ep; now auto).
  destruct write_throws; cbn [awaited].
  - unfold reject.
    match goal with
    | |- context [settle ?p ?o ?s0] =>
        destruct (settle_frame p o s0) as (A & B & C & _ & E & _)
    end.
    rewrite A, B, C, E. cbn. auto.
  - cbn. auto.
Qed.

Lemma callTool_frame call write_throws s :
  let s' := callTool call write_throws s in
  pythonProcess s' = pythonProcess s
  /\ buffers s' = buffers s
  /\ hostExited s' = hostExited s
  /\ signalled s' = signalled s.
Proof.
  destruct call as [question valid| | |limit| | |]; cbn [callTool]; cbv zeta;
    try (cbn; now auto).
  - unfold queryDatabase.
    destruct valid; cbn [negb]; [|cbn; now auto].
    destruct (isVannaReady s) eqn:R; cbn [negb]; [|cbn; now auto].
    apply (sendToVanna_frame "query_totara_db" (question_argument question)).
  - unfold testStatus.
    destruct (isVannaReady s) eqn:R; cbn [negb]; [|now auto].
    apply (sendToVanna_frame "test_vanna_status" no_arguments).
  - unfold listUsers.
    destruct (clamp_limit limit) as [l|]; [|cbn; now auto].
    apply (sendToVanna_frame "list_active_users" (limit_argument l)).
Qed.

Lemma on_exit_frame p code signal s :
  let s' := on_exit p code signal s in
  pythonProcess s' = pythonProcess s
  /\ buffers s' = buffers s
  /\ hostExited s' = hostExited s
  /\ written s' = written s
  /\ signalled s' = signalled s
  /\ requestId s' = requestId s
  /\ issued s' = issued s
  /\ promises s' = promises s
  /\ spawned s' = spawned s.
Proof.
  destruct (on_exit_spec p code signal s) as [c ->]. cbv zeta.
  destruct (negb (is_SIGTERM signal) && negb (is_zero code)
            && (initializationAttempts s <? maxAttempts));
    cbn; splits; reflexivity.
Qed.

Lemma on_requestTimer_frame id pr s :
  let s' := on_requestTimer id pr (fired (requestTimer id pr) s) in
  pythonProcess s' = pythonProcess s
  /\ buffers s' = buffers s
  /\ hostExited s' = hostExited s
  /\ written s' = written s
  /\ signalled s' = signalled s
  /\ requestId s' = requestId s
  /\ issued s' = issued s
  /\ promises s' = promises s
  /\ spawned s' = spawned s.
Proof.
  cbv zeta. unfold on_requestTimer. cbn [pendingRequests fired set_timers].
  destruct (map_has id (pendingRequests s)); [|cbn; splits; reflexivity].
  unfold reject.
  match goal with
  | |- context [settle ?p ?o ?s0] =>
      destruct (settle_frame p o s0) as (A & B & C & D & E & F & G & H & _);
      destruct (settle_supervision p o s0) as (_ & I & _)
  end.
  rewrite A, B, C, D, E, F, G, H, I. cbn. splits; reflexivity.
Qed.

Lemma get_buffer_put p q b l :
  get_buffer p (put_buffer q b l)
  = if Nat.eqb q p then b else get_buffer p l.
Proof.
  unfold put_buffer. cbn [get_buffer].
  destruct (Nat.eqb_spec q p) as [->|Hne]; [reflexivity|].
  induction l as [|[r c] l IH]; [reflexivity|].
  cbn [filter fst get_buffer].
  destruct (Nat.eqb_spec r q) as [->|Hrq]; cbn [negb].
  - apply Nat.eqb_neq in Hne. rewrite Hne. exact IH.
  - cbn [get_buffer]. destruct (Nat.eqb r p); [reflexivity | exact IH].
Qed.

(** What an event does to the buffer of worker [p]. *)
Lemma handle_buffer JSON_parse e s p :
  get_buffer p (buffers (handle JSON_parse e s))
  = match e with
    | StdoutData q data =>
        if Nat.ltb q (spawned s) && Nat.eqb q p
        then snd (frame (get_buffer p (buffers s)) data)
        else get_buffer p (buffers s)
    | _ => get_buffer p (buffers s)
    end.
Proof.
  destruct e as [call w|q data|q data|q|q status|q k|f|id pr|k]; cbn [handle].
  - destruct (callTool_frame call w s) as (_ & B & _). now rewrite B.
  - destruct (Nat.ltb q (spawned s)); [|reflexivity].
    unfold on_stderr.
    destruct (includes (toString data) (js "MCP_SERVER_READY")
              || includes (toString data) (js "ready")); reflexivity.
  - destruct (Nat.ltb q (spawned s)); [|reflexivity]. cbn [andb].
    destruct (on_stdout_frame JSON_parse q data s) as (_ & B & _).
    rewrite B, get_buffer_put.
    destruct (Nat.eqb_spec q p) as [->|Hne]; reflexivity.
  - destruct (Nat.ltb q (spawned s)); reflexivity.
  - destruct (Nat.ltb q (spawned s)); [|reflexivity].
    destruct (on_exit_frame q (code_of status) (signal_of status) s)
      as (_ & B & _). now rewrite B.
  - destruct (armed (initTimer q) s); [|reflexivity].
    unfold on_initTimer, killPython.
    cbn [pythonProcess logError fired set_timers set_errorCounts].
    destruct (pythonProcess s); [destruct k|]; reflexivity.
  - destruct (armed restartTimer s); [|reflexivity].
    unfold startPython. cbn [initializationAttempts fired set_timers].
    destruct (maxAttempts <=? initializationAttempts s); [reflexivity|].
    destruct f; reflexivity.
  - destruct (armed (requestTimer id pr) s); [|reflexivity].
    destruct (on_requestTimer_frame id pr s) as (_ & B & _). now rewrite B.
  - unfold killPython. destruct (pythonProcess s); [destruct k|]; reflexivity.
Qed.

Lemma spawned_grows JSON_parse e s :
  (spawned s <= spawned (step JSON_parse s e))%nat.
Proof.
  destruct (step_supervision JSON_parse e s) as ([E|[E _]] & _);
    rewrite E; lia.
Qed.

Lemma hostExited_run JSON_parse trace : forall s,
  hostExited (run JSON_parse s trace) = false -> hostExited s = false.
Proof.
  intros s H. destruct (hostExited s) eqn:E; [|reflexivity].
  rewrite run_hostExited in H by assumption. congruence.
Qed.

(** The buffer of a worker depends on that worker's stdout chunks
    alone: over any run in which the host does not exit, it is what the
    framer keeps after the chunks of that worker, in their order, whatever
    other workers write and whatever else happens in between. *)
Theorem buffer_follows_own_chunks JSON_parse trace : forall s p,
  (p < spawned s)%nat ->
  hostExited (run JSON_parse s trace) = false ->
  get_buffer p (buffers (run JSON_parse s trace))
  = snd (frame_all (get_buffer p (buffers s)) (stdout_of p trace)).
Proof.
  induction trace as [|e t IH]; intros s p Hp Hx; [reflexivity|].
  cbn [run fold_left] in Hx |- *. fold (run JSON_parse (step JSON_parse s e) t) in Hx |- *.
  pose proof (hostExited_run _ _ _ Hx) as Hx1.
  assert (Hx0 : hostExited s = false).
  { destruct (hostExited s) eqn:E; [|reflexivity].
    unfold step in Hx1. rewrite E in Hx1. congruence. }
  rewrite IH; [|pose proof (spawned_grows JSON_parse e s); lia|exact Hx].
  unfold step. rewrite Hx0. rewrite handle_buffer.
  destruct e as [call w|q data|q data|q|q status|q k|f|id pr|k];
    cbn [stdout_of]; try reflexivity.
  destruct (Nat.eqb_spec q p) as [->|Hne].
  - apply Nat.ltb_lt in Hp. rewrite Hp. cbn [andb frame_all].
    destruct (frame (get_buffer p (buffers s)) data) as [lines b].
    cbn [snd].
    destruct (frame_all b (stdout_of p t)) as [lines' b']. reflexivity.
  - now rewrite andb_false_r.
Qed.

Lemma buffer_follows_own_chunks_witness :
  get_buffer 0%nat
    (buffers (run JSON_parse_sample (boot true)
                [StdoutData 0%nat (bytes_of "{"); ProcessError 0%nat;
                 StdoutData 0%nat [x0a; x7b]]))
  = snd (frame_all (get_buffer 0%nat (buffers (boot true)))
           (stdout_of 0%nat
              [StdoutData 0%nat (bytes_of "{"); ProcessError 0%nat;
               StdoutData 0%nat [x0a; x7b]])).
Proof.
  apply (buffer_follows_own_chunks JSON_parse_sample
           [StdoutData 0%nat (bytes_of "{"); ProcessError 0%nat;
            StdoutData 0%nat [x0a; x7b]] (boot true) 0%nat).
  - vm_compute. lia.
  - vm_compute. reflexivity.
Defined.

Lemma buffer_without_newline JSON_parse trace : forall s,
  (forall p, ~ In LF (get_buffer p (buffers s))) ->
  forall p, ~ In LF (get_buffer p (buffers (run JSON_parse s trace))).
Proof.
  induction trace as [|e t IH]; intros s H p; [apply H|].
  cbn [run fold_left]. apply IH. clear p. intros p.
  unfold step. destruct (hostExited s); [apply H|].
  rewrite handle_buffer.
  destruct e as [call w|q data|q data|q|q status|q k|f|id pr|k];
    try apply H.
  destruct (Nat.ltb q (spawned s) && Nat.eqb q p); [|apply H].
  apply last_split_without_separator.
Qed.

(** In every state the server can reach, no worker's buffer holds a
    newline; so from there on, as from the empty buffer, the lines handed
    on over further decoded chunks and the buffer kept do not depend on how
    the text is cut into chunks. *)
Theorem buffers_hold_no_newline JSON_parse files_exist trace p :
  let buffer :=
    get_buffer p (buffers (run JSON_parse (boot files_exist) trace)) in
  ~ In LF buffer
  /\ forall chunks,
       frame_all_string buffer chunks
       = frame_string buffer (List.concat chunks).
Proof.
  cbv zeta.
  assert (H : ~ In LF (get_buffer p
                         (buffers (run JSON_parse (boot files_exist) trace)))).
  { apply buffer_without_newline. intros q.
    unfold boot, startPython. destruct files_exist; cbn; auto. }
  split; [exact H|]. intros chunks. now apply frame_all_string_concat.
Qed.

(** ** The error counts *)

Lemma logged_refl c : logged c c.
Proof. unfold logged, counts_le. lia. Qed.

Lemma logged_trans c1 c2 c3 : logged c1 c2 -> logged c2 c3 -> logged c1 c3.
Proof. unfold logged, counts_le. lia. Qed.

Lemma logged_count type c : logged c (count type c).
Proof. destruct type; unfold logged, counts_le; cbn; lia. Qed.

Lemma settle_logged pr o s :
  logged (errorCounts s) (errorCounts (settle pr o s)).
Proof.
  unfold settle. destruct o as [r|e]; [apply logged_refl|].
  destruct (settled_before pr s); [apply logged_refl|].
  apply (logged_count type_database).
Qed.

Lemma reject_each_logged e (l : list (Z * promise)) : forall s,
  logged (errorCounts s)
    (errorCounts (fold_left (fun s entry => reject (snd entry) e s) l s)).
Proof.
  induction l as [|x l IH]; intros s; cbn [fold_left]; [apply logged_refl|].
  eapply logged_trans; [|apply IH]. apply settle_logged.
Qed.

Lemma handle_line_logged JSON_parse line s :
  logged (errorCounts s) (errorCounts (handle_line JSON_parse line s)).
Proof.
  rewrite handle_line_eq.
  destruct (classify JSON_parse line) as [| |response];
    [apply logged_refl | apply (logged_count type_python) |].
  destruct (response_key response) as [k|]; [|apply logged_refl].
  destruct (map_get k (pendingRequests s)) as [pr|]; [|apply logged_refl].
  apply (settle_logged pr (response_outcome response)
           (set_pendingRequests (map_delete k (pendingRequests s)) s)).
Qed.

Lemma handle_lines_logged JSON_parse lines : forall s,
  logged (errorCounts s)
    (errorCounts
       (fold_left (fun s line => handle_line JSON_parse line s) lines s)).
Proof.
  induction lines as [|line r IH]; intros s; cbn [fold_left];
    [apply logged_refl|].
  eapply logged_trans; [|apply IH]. apply handle_line_logged.
Qed.

Lemma sendToVanna_logged name args write_throws s :
  let '(request, s1) := next_request name args s in
  logged (errorCounts s)
    (errorCounts (awaited (sendToVanna request write_throws s1))).
Proof.
  cbn [next_request]. unfold sendToVanna.
  cbn [pythonProcess isVannaReady set_issued set_requestId req_id promises].
  destruct (pythonProcess s) as [p|]; [destruct (isVannaReady s)|];
    cbn [awaited]; try apply (logged_count type_database).
  destruct write_throws; cbn [awaited]; [|apply logged_refl].
  unfold reject.
  eapply logged_trans; [|apply settle_logged].
  apply (logged_count type_python).
Qed.

Lemma callTool_logged call write_throws s :
  logged (errorCounts s) (errorCounts (callTool call write_throws s)).
Proof.
  destruct call as [question valid| | |limit| | |]; cbn [callTool];
    try apply logged_refl; try apply (logged_count type_validation).
  - unfold queryDatabase.
    destruct valid; cbn [negb]; [|apply (logged_count type_validation)].
    destruct (isVannaReady s); cbn [negb];
      [|apply (logged_count type_validation)].
    apply (sendToVanna_logged "query_totara_db" (question_argument question)).
  - unfold testStatus. destruct (isVannaReady s); cbn [negb];
      [|apply logged_refl].
    apply (sendToVanna_logged "test_vanna_status" no_arguments).
  - unfold listUsers.
    destruct (clamp_limit limit) as [l|];
      [|apply (logged_count type_database)].
    apply (sendToVanna_logged "list_active_users" (limit_argument l)).
Qed.

Lemma handle_logged JSON_parse e s :
  logged (errorCounts s) (errorCounts (handle JSON_parse e s)).
Proof.
  destruct e as [call w|q data|q data|q|q status|q k|f|id pr|k]; cbn [handle].
  - apply callTool_logged.
  - destruct (Nat.ltb q (spawned s)); [|apply logged_refl].
    unfold on_stderr.
    destruct (includes (toString data) (js "MCP_SERVER_READY")
              || includes (toString data) (js "ready")); apply logged_refl.
  - destruct (Nat.ltb q (spawned s)); [|apply logged_refl].
    unfold on_stdout.
    destruct (frame (get_buffer q (buffers s)) data) as [lines buffer].
    apply (handle_lines_logged JSON_parse lines
             (set_buffers (put_buffer q buffer (buffers s)) s)).
  - destruct (Nat.ltb q (spawned s)); [|apply logged_refl].
    apply (logged_count type_python).
  - destruct (Nat.ltb q (spawned s)); [|apply logged_refl].
    unfold on_exit. cbv zeta.
    match goal with
    | |- logged _ (errorCounts (if ?b then setTimeout _ ?x else _)) =>
        assert (H : logged (errorCounts s) (errorCounts x));
        [|destruct b; exact H]
    end.
    unfold reject_all.
    eapply logged_trans; [|apply reject_each_logged].
    apply (logged_count type_python).
  - destruct (armed (initTimer q) s); [|apply logged_refl].
    unfold on_initTimer, killPython.
    cbn [pythonProcess logError fired set_timers set_errorCounts].
    destruct (pythonProcess s); [destruct k|].
    + eapply logged_trans; [apply (logged_count type_timeout)|].
      apply (logged_count type_python).
    + apply (logged_count type_timeout).
    + apply (logged_count type_timeout).
  - destruct (armed restartTimer s); [|apply logged_refl].
    unfold startPython. cbn [initializationAttempts fired set_timers].
    destruct (maxAttempts <=? initializationAttempts s);
      [apply (logged_count type_python)|].
    destruct f; [apply logged_refl | apply (logged_count type_python)].
  - destruct (armed (requestTimer id pr) s); [|apply logged_refl].
    unfold on_requestTimer. cbn [pendingRequests fired set_timers].
    destruct (map_has id (pendingRequests s)); [|apply logged_refl].
    unfold reject. eapply logged_trans; [|apply settle_logged].
    apply (logged_count type_timeout).
  - unfold killPython. destruct (pythonProcess s); [destruct k|];
      try apply logged_refl. apply (logged_count type_python).
Qed.

Lemma run_logged JSON_parse trace : forall s,
  logged (errorCounts s) (errorCounts (run JSON_parse s trace)).
Proof.
  induction trace as [|e t IH]; intros s; [apply logged_refl|].
  cbn [run fold_left]. eapply logged_trans; [|apply IH].
  unfold step. destruct (hostExited s); [apply logged_refl|].
  apply handle_logged.
Qed.

(** Over any run no error count goes down and the total stays the
    sum of the four categories if it was; so the health line of
    [getErrorStats] never gets better.  From the start all counts are
    non-negative and the total is the sum of the categories. *)
Theorem error_counts_only_grow JSON_parse s trace :
  let c := errorCounts s in
  let c' := errorCounts (run JSON_parse s trace) in
  counts_le c c'
  /\ (balanced c -> balanced c')
  /\ (health c = "Needs Attention"%string -> health c' = "Needs Attention"%string)
  /\ (health c' = "Excellent"%string -> health c = "Excellent"%string)
  /\ (forall files_exist,
        s = boot files_exist -> balanced c' /\ counts_le (mkCounts 0 0 0 0 0) c').
Proof.
  cbv zeta. pose proof (run_logged JSON_parse trace s) as [L E].
  splits.
  - exact L.
  - unfold balanced. intros B. lia.
  - unfold health. destruct L as (T & _).
    destruct (Z.ltb_spec (total (errorCounts s)) 5); [discriminate|].
    destruct (Z.ltb_spec (total (errorCounts s)) 15); [discriminate|].
    intros _.
    destruct (Z.ltb_spec (total (errorCounts (run JSON_parse s trace))) 5);
      [lia|].
    destruct (Z.ltb_spec (total (errorCounts (run JSON_parse s trace))) 15);
      [lia|reflexivity].
  - unfold health. destruct L as (T & _).
    destruct (Z.ltb_spec (total (errorCounts (run JSON_parse s trace))) 5).
    + intros _. destruct (Z.ltb_spec (total (errorCounts s)) 5);
        [reflexivity|lia].
    + destruct (Z.ltb_spec (total (errorCounts (run JSON_parse s trace))) 15);
        discriminate.
  - intros files_exist ->.
    assert (B : balanced (errorCounts (boot files_exist))
                /\ counts_le (mkCounts 0 0 0 0 0)
                     (errorCounts (boot files_exist))).
    { destruct files_exist; vm_compute; splits; congruence. }
    destruct B as [B P]. unfold balanced, counts_le in *.
    unfold counts_le in L. cbn [total validation database python timeout] in P.
    split; [lia|]. cbn [total validation database python timeout]. lia.
Qed.

(** ** The launch budget *)

Lemma run_budget JSON_parse trace : forall s,
  0 <= initializationAttempts s <= maxAttempts ->
  let s' := run JSON_parse s trace in
  0 <= initializationAttempts s' <= maxAttempts
  /\ Z.of_nat (spawned s') - initializationAttempts s'
     <= Z.of_nat (spawned s) - initializationAttempts s
        + maxAttempts * Z.of_nat (ready_signals trace).
Proof.
  induction trace as [|e t IH]; intros s Ha; cbv zeta.
  - unfold ready_signals. cbn. lia.
  - cbn [run fold_left].
    destruct (step_supervision JSON_parse e s) as (Hs & Hi & _).
    cbv zeta in Hs, Hi.
    assert (Ha' : 0 <= initializationAttempts (step JSON_parse s e)
                  <= maxAttempts).
    { destruct Hi as [E|[[E L]|(_ & E & _)]]; rewrite E; unfold maxAttempts in *; lia. }
    destruct (IH _ Ha') as [A B]. cbv zeta in A, B. unfold run in A, B.
    split; [exact A|].
    eapply Z.le_trans; [exact B|].
    unfold ready_signals. cbn [filter].
    destruct Hi as [E|[[E L]|(R & E & _)]].
    + destruct Hs as [S0|[S1 E1]]; [|lia].
      rewrite S0, E. destruct (is_ready_signal e); cbn [List.length];
        unfold maxAttempts; lia.
    + destruct Hs as [S0|[S1 E1]].
      * rewrite S0, E. destruct (is_ready_signal e); cbn [List.length];
          unfold maxAttempts; lia.
      * rewrite S1, E. destruct (is_ready_signal e); cbn [List.length];
          unfold maxAttempts; lia.
    + rewrite R. cbn [List.length].
      destruct Hs as [S0|[S1 E1]]; [|lia].
      rewrite S0, E. unfold maxAttempts in *. lia.
Qed.

(** The attempt counter stays between 0 and [maxAttempts], and the
    workers launched over a run number at most [maxAttempts] for the
    start and [maxAttempts] more for every readiness signal received. *)
Theorem launches_bounded_by_readiness_signals JSON_parse files_exist trace :
  let s := run JSON_parse (boot files_exist) trace in
  0 <= initializationAttempts s <= maxAttempts
  /\ Z.of_nat (spawned s)
     <= maxAttempts * (1 + Z.of_nat (ready_signals trace)).
Proof.
  cbv zeta.
  assert (B : 0 <= initializationAttempts (boot files_exist) <= maxAttempts
              /\ Z.of_nat (spawned (boot files_exist))
                 - initializationAttempts (boot files_exist) <= 0).
  { destruct files_exist; vm_compute; splits; congruence. }
  destruct B as [B0 B1].
  destruct (run_budget JSON_parse trace (boot files_exist) B0) as [A B].
  cbv zeta in A, B. split; [exact A|]. unfold maxAttempts in *. lia.
Qed.

(** ** The worker handle and the signals sent *)

Lemma handle_process JSON_parse e s :
  let s' := handle JSON_parse e s in
  (pythonProcess s' = pythonProcess s /\ signalled s' = signalled s
   /\ spawned s' = spawned s)
  \/ (exists p, pythonProcess s = Some p /\ pythonProcess s' = None
                /\ signalled s' = signalled s ++ [p]
                /\ spawned s' = spawned s)
  \/ (pythonProcess s' = Some (spawned s) /\ spawned s' = S (spawned s)
      /\ signalled s' = signalled s).
Proof.
  cbv zeta.
  destruct e as [call w|q data|q data|q|q status|q k|f|id pr|k]; cbn [handle].
  - destruct (callTool_frame call w s) as (A & _ & _ & D).
    destruct (callTool_supervision call w s) as (_ & B & _).
    left. auto.
  - left. destruct (Nat.ltb q (spawned s)); [|auto].
    unfold on_stderr.
    destruct (includes (toString data) (js "MCP_SERVER_READY")
              || includes (toString data) (js "ready")); cbn; auto.
  - left. destruct (Nat.ltb q (spawned s)); [|auto].
    destruct (on_stdout_frame JSON_parse q data s) as (A & _ & _ & _ & E & _).
    destruct (on_stdout_supervision JSON_parse q data s) as (_ & B & _).
    auto.
  - left. destruct (Nat.ltb q (spawned s)); cbn; auto.
  - left. destruct (Nat.ltb q (spawned s)); [|auto].
    destruct (on_exit_frame q (code_of status) (signal_of status) s)
      as (A & _ & _ & _ & E & _ & _ & _ & I).
    auto.
  - destruct (armed (initTimer q) s); [|left; auto].
    unfold on_initTimer, killPython.
    cbn [pythonProcess logError fired set_timers set_errorCounts].
    destruct (pythonProcess s) as [p|] eqn:Ep; [destruct k|]; cbn;
      rewrite ?Ep; auto.
    right. left. exists p. auto.
  - destruct (armed restartTimer s); [|left; auto].
    unfold startPython. cbn [initializationAttempts fired set_timers].
    destruct (maxAttempts <=? initializationAttempts s); [left; cbn; auto|].
    destruct f; cbn; auto.
  - left. destruct (armed (requestTimer id pr) s); [|auto].
    destruct (on_requestTimer_frame id pr s)
      as (A & _ & _ & _ & E & _ & _ & _ & I).
    auto.
  - unfold killPython. destruct (pythonProcess s) as [p|] eqn:Ep;
      [destruct k|]; cbn; rewrite ?Ep; auto.
    right. left. exists p. auto.
Qed.

Lemma run_process JSON_parse trace : forall s,
  (forall p, pythonProcess s = Some p ->
             spawned s = S p /\ ~ In p (signalled s)) ->
  NoDup (signalled s) ->
  (forall p, In p (signalled s) -> (p < spawned s)%nat) ->
  let s' := run JSON_parse s trace in
  (forall p, pythonProcess s' = Some p ->
             spawned s' = S p /\ ~ In p (signalled s'))
  /\ NoDup (signalled s')
  /\ (forall p, In p (signalled s') -> (p < spawned s')%nat).
Proof.
  induction trace as [|e t IH]; intros s H1 H2 H3; cbv zeta; [auto|].
  cbn [run fold_left]. apply IH; unfold step; destruct (hostExited s); auto.
  - destruct (handle_process JSON_parse e s)
      as [(A & B & C)|[(p & Ep & A & B & C)|(A & C & B)]];
      cbv zeta in *; intros p' Hp'.
    + rewrite A in Hp'. rewrite B, C. now apply H1.
    + rewrite A in Hp'. discriminate.
    + rewrite A in Hp'. injection Hp' as <-. rewrite B, C.
      split; [reflexivity|]. intros Hin. apply H3 in Hin. lia.
  - destruct (handle_process JSON_parse e s)
      as [(A & B & C)|[(p & Ep & A & B & C)|(A & C & B)]];
      cbv zeta in *; rewrite B; auto.
    apply NoDup_app; splits; auto.
    + repeat constructor. intros [].
    + intros x Hx [<-|[]]. now apply (H1 _ Ep).
  - destruct (handle_process JSON_parse e s)
      as [(A & B & C)|[(p & Ep & A & B & C)|(A & C & B)]];
      cbv zeta in *; rewrite B, C; intros p' Hp'.
    + auto.
    + apply in_app_or in Hp'. destruct Hp' as [Hp'|[<-|[]]]; [auto|].
      destruct (H1 _ Ep) as [E _]. lia.
    + apply H3 in Hp'. lia.
Qed.

Lemma boot_process files_exist :
  let s := boot files_exist in
  (forall p, pythonProcess s = Some p ->
             spawned s = S p /\ ~ In p (signalled s))
  /\ NoDup (signalled s)
  /\ (forall p, In p (signalled s) -> (p < spawned s)%nat).
Proof.
  cbv zeta. destruct files_exist; cbn; splits.
  all: try (intros p E;
            first [discriminate
                  | injection E as <-; split; [reflexivity | intros []]]).
  all: try (now constructor).
  all: intros p [].
Qed.

(** The worker handle the server holds is always the worker spawned
    last, and no worker is sent SIGTERM twice: the signals sent went to
    different spawned workers, none of them the one now held. *)
Theorem worker_signalled_at_most_once JSON_parse files_exist trace :
  let s := run JSON_parse (boot files_exist) trace in
  NoDup (signalled s)
  /\ (forall p, In p (signalled s) ->
                (p < spawned s)%nat /\ pythonProcess s <> Some p)
  /\ (forall p, pythonProcess s = Some p -> spawned s = S p).
Proof.
  cbv zeta. destruct (boot_process files_exist) as (B1 & B2 & B3).
  destruct (run_process JSON_parse trace (boot files_exist) B1 B2 B3)
    as (H1 & H2 & H3).
  cbv zeta in *. splits; auto.
  - intros p Hp. split; [auto|]. intros E. now apply (H1 _ E).
  - intros p E. now apply H1.
Qed.

(** ** Before the first readiness signal *)

Lemma handle_lines_idle JSON_parse lines : forall s,
  pendingRequests s = [] ->
  let s' := fold_left (fun s line => handle_line JSON_parse line s) lines s in
  pendingRequests s' = [] /\ settlements s' = settlements s
  /\ isVannaReady s' = isVannaReady s.
Proof.
  induction lines as [|line r IH]; intros s Hp; cbv zeta; cbn [fold_left];
    [auto|].
  assert (H : pendingRequests (handle_line JSON_parse line s) = []
              /\ settlements (handle_line JSON_parse line s) = settlements s
              /\ isVannaReady (handle_line JSON_parse line s)
                 = isVannaReady s).
  { rewrite handle_line_eq.
    destruct (classify JSON_parse line) as [| |response]; cbn; auto.
    destruct (response_key response) as [k|]; auto.
    rewrite Hp. cbn [map_get]. auto. }
  destruct H as (A & B & C).
  destruct (IH _ A) as (A' & B' & C'). cbv zeta in *.
  splits; congruence.
Qed.

Lemma handle_idle JSON_parse e s :
  idle s -> is_ready_signal e = false -> idle (handle JSON_parse e s).
Proof.
  unfold idle. intros (R & P & W & S & N) He.
  destruct e as [call w|q data|q data|q|q status|q k|f|id pr|k]; cbn [handle].
  - destruct call as [question valid| | |limit| | |]; cbn [callTool];
      try (cbn; now auto).
    + unfold queryDatabase. destruct valid; cbn [negb]; [|cbn; now auto].
      rewrite R. cbn. auto.
    + unfold testStatus. rewrite R. cbn. auto.
    + unfold listUsers.
      destruct (clamp_limit limit) as [l|]; [|cbn; now auto].
      cbn [next_request].
      rewrite sendToVanna_not_ready by (right; exact R).
      cbn. auto.
  - destruct (Nat.ltb q (spawned s)); [|auto].
    unfold on_stderr. cbn [is_ready_signal] in He. rewrite He. auto.
  - destruct (Nat.ltb q (spawned s)); [|auto].
    unfold on_stdout.
    destruct (frame (get_buffer q (buffers s)) data) as [lines buffer].
    destruct (handle_lines_idle JSON_parse lines
                (set_buffers (put_buffer q buffer (buffers s)) s) P)
      as (A & B & C).
    destruct (handle_lines_frame JSON_parse lines
                (set_buffers (put_buffer q buffer (buffers s)) s))
      as (_ & _ & _ & D & _ & _ & _ & H).
    cbv zeta in *. rewrite A, B, C, D, H. cbn. auto.
  - destruct (Nat.ltb q (spawned s)); cbn; auto.
  - destruct (Nat.ltb q (spawned s)); [|auto].
    destruct (on_exit_spec q (code_of status) (signal_of status) s) as [c ->].
    cbv zeta. rewrite P.
    destruct (negb (is_SIGTERM (signal_of status))
              && negb (is_zero (code_of status))
              && (initializationAttempts s <? maxAttempts));
      cbn; rewrite ?app_nil_r; auto.
  - destruct (armed (initTimer q) s); [|auto].
    unfold on_initTimer, killPython.
    cbn [pythonProcess logError fired set_timers set_errorCounts].
    destruct (pythonProcess s) as [p|]; [destruct k|]; cbn; auto.
  - destruct (armed restartTimer s); [|auto].
    unfold startPython. cbn [initializationAttempts fired set_timers].
    destruct (maxAttempts <=? initializationAttempts s); [cbn; auto|].
    destruct f; cbn; auto.
  - destruct (armed (requestTimer id pr) s); [|auto].
    unfold on_requestTimer. cbn [pendingRequests fired set_timers].
    rewrite P. cbn. auto.
  - unfold killPython. destruct (pythonProcess s) as [p|]; [destruct k|];
      cbn; auto.
Qed.

(** Until a stderr chunk with a readiness signal arrives the server
    stays not ready and no request reaches a worker: over any run from
    the start that holds no such chunk, nothing is written to a worker's
    stdin, nothing is pending, no promise is made and nothing is
    settled. *)
Theorem nothing_sent_before_readiness JSON_parse files_exist trace :
  Forall (fun e => is_ready_signal e = false) trace ->
  let s := run JSON_parse (boot files_exist) trace in
  isVannaReady s = false /\ written s = [] /\ pendingRequests s = []
  /\ settlements s = [] /\ promises s = 0%nat.
Proof.
  intros H. cbv zeta.
  assert (I : idle (run JSON_parse (boot files_exist) trace)).
  { assert (B : idle (boot files_exist)).
    { unfold idle. destruct files_exist; cbn; auto. }
    revert B. generalize (boot files_exist).
    induction H as [|e t He _ IH]; intros s B; [exact B|].
    cbn [run fold_left]. apply IH. unfold step.
    destruct (hostExited s); [exact B|]. now apply handle_idle. }
  unfold idle in I. tauto.
Qed.

Lemma nothing_sent_before_readiness_witness :
  let s := run JSON_parse_sample (boot true)
             [ToolCall (list_active_users None) false;
              StdoutData 0%nat chunk_id_1;
              ToolCall (query_totara_db (js "Show me all active users") true)
                false] in
  isVannaReady s = false /\ written s = [] /\ pendingRequests s = []
  /\ settlements s = [] /\ promises s = 0%nat.
Proof.
  apply (nothing_sent_before_readiness JSON_parse_sample true
           [ToolCall (list_active_users None) false;
            StdoutData 0%nat chunk_id_1;
            ToolCall (query_totara_db (js "Show me all active users") true)
              false]).
  repeat constructor.
Defined.

(** ** What is written to the workers *)

Lemma In_map_set_inv k v m x : In x (map_set k v m) -> In x m \/ x = (k, v).
Proof.
  induction m as [|[k' v'] r IH]; cbn [map_set].
  - intros [<-|[]]. now right.
  - destruct (Z.eqb k' k).
    + intros [<-|H]; [now right | left; now right].
    + intros [<-|H]; [left; now left|].
      destruct (IH H) as [H'|H']; [left; now right | now right].
Qed.

Lemma In_map_delete_inv k m x : In x (map_delete k m) -> In x m.
Proof. unfold map_delete. intros H. now apply filter_In in H. Qed.

Lemma sendToVanna_traffic name args write_throws s :
  let '(request, s1) := next_request name args s in
  let s' := awaited (sendToVanna request write_throws s1) in
  requestId s' = requestId s + 1
  /\ issued s' = issued s ++ [requestId s]
  /\ ((written s' = written s
       /\ forall x, In x (pendingRequests s') -> In x (pendingRequests s))
      \/ (exists p,
            pythonProcess s = Some p /\ isVannaReady s = true
            /\ write_throws = false
            /\ written s'
               = written s ++ [(p, mkRequest (requestId s) name args)]
            /\ forall x, In x (pendingRequests s') ->
                         In x (pendingRequests s) \/ fst x = requestId s)).
Proof.
  cbn [next_request]. unfold sendToVanna.
  cbn [pythonProcess isVannaReady set_issued set_requestId req_id promises].
  destruct (pythonProcess s) as [p|] eqn:Ep;
    [destruct (isVannaReady s) eqn:R|];
    cbn [awaited];
    try (cbn; splits;
         [reflexivity | reflexivity | left; split; [reflexivity | now auto]]).
  destruct write_throws; cbn [awaited].
  - unfold reject.
    match goal with
    | |- context [settle ?p ?o ?s0] =>
        destruct (settle_frame p o s0) as (_ & _ & _ & D & _ & F & G & _ & I)
    end.
    rewrite D, F, G, I. cbn. splits; auto. left. split; [reflexivity|].
    intros [k v] H. apply In_map_delete in H. destruct H as [H Hne].
    apply In_map_set_inv in H. destruct H as [H|H]; [exact H|].
    injection H as -> ->. now elim Hne.
  - cbn. splits; auto. right. exists p. splits; auto.
    intros x H. apply In_map_set_inv in H. destruct H as [H| ->]; auto.
Qed.

Lemma callTool_traffic call write_throws s :
  let s' := callTool call write_throws s in
  requestId s <= requestId s'
  /\ (forall id, In id (issued s) -> In id (issued s'))
  /\ ((written s' = written s
       /\ forall x, In x (pendingRequests s') -> In x (pendingRequests s))
      \/ (exists p name args,
            request_of call = Some (name, args)
            /\ pythonProcess s = Some p /\ isVannaReady s = true
            /\ write_throws = false
            /\ written s'
               = written s ++ [(p, mkRequest (requestId s) name args)]
            /\ issued s' = issued s ++ [requestId s]
            /\ requestId s' = requestId s + 1
            /\ forall x, In x (pendingRequests s') ->
                         In x (pendingRequests s) \/ fst x = requestId s)).
Proof.
  assert (sends : forall name args,
             request_of call = Some (name, args) ->
             let '(request, s1) := next_request name args s in
             let s' := awaited (sendToVanna request write_throws s1) in
             requestId s <= requestId s'
             /\ (forall id, In id (issued s) -> In id (issued s'))
             /\ ((written s' = written s
                  /\ forall x, In x (pendingRequests s') ->
                               In x (pendingRequests s))
                 \/ (exists p name args,
                       request_of call = Some (name, args)
                       /\ pythonProcess s = Some p /\ isVannaReady s = true
                       /\ write_throws = false
                       /\ written s'
                          = written s
                            ++ [(p, mkRequest (requestId s) name args)]
                       /\ issued s' = issued s ++ [requestId s]
                       /\ requestId s' = requestId s + 1
                       /\ forall x, In x (pendingRequests s') ->
                                    In x (pendingRequests s)
                                    \/ fst x = requestId s))).
  { intros name args Hr.
    pose proof (sendToVanna_traffic name args write_throws s) as H.
    cbn [next_request] in H |- *. cbv zeta in H.
    destruct H as (A & B & C). splits.
    - lia.
    - intros id Hid. rewrite B. apply in_or_app. now left.
    - destruct C as [C|(p & Ep & R & W & Hw & Hp)]; [now left|].
      right. exists p, name, args. splits; auto. }
  cbv zeta.
  destruct call as [question valid| | |limit| | |]; cbn [callTool];
    try (cbn; splits; [lia | auto | left; auto]).
  - unfold queryDatabase.
    destruct valid; cbn [negb]; [|cbn; splits; [lia | auto | left; auto]].
    destruct (isVannaReady s) eqn:R; cbn [negb];
      [|cbn; splits; [lia | auto | left; auto]].
    pose proof (sends "query_totara_db"%string (question_argument question)
                  eq_refl) as H.
    cbn [next_request] in H. exact H.
  - unfold testStatus.
    destruct (isVannaReady s) eqn:R; cbn [negb];
      [|splits; [lia | auto | left; auto]].
    pose proof (sends "test_vanna_status"%string no_arguments eq_refl) as H.
    cbn [next_request] in H. exact H.
  - unfold listUsers.
    destruct (clamp_limit limit) as [l|] eqn:El;
      [|cbn; splits; [lia | auto | left; auto]].
    apply (sends "list_active_users"%string (limit_argument l)).
    cbn [request_of]. now rewrite El.
Qed.

Lemma handle_lines_pending JSON_parse lines : forall s x,
  In x (pendingRequests
          (fold_left (fun s line => handle_line JSON_parse line s) lines s)) ->
  In x (pendingRequests s).
Proof.
  induction lines as [|line r IH]; intros s x; cbn [fold_left]; [auto|].
  intros H. apply IH in H. revert H. rewrite handle_line_eq.
  destruct (classify JSON_parse line) as [| |response]; cbn; auto.
  destruct (response_key response) as [k|]; auto.
  destruct (map_get k (pendingRequests s)) as [pr|]; auto.
  match goal with
  | |- context [settle ?p ?o ?s0] =>
      destruct (settle_frame p o s0) as (_ & _ & _ & _ & _ & _ & _ & _ & I)
  end.
  rewrite I. cbn. apply In_map_delete_inv.
Qed.

(** What an event does to the requests: a tool call may write one, with
    the identifier just issued; nothing else writes, and apart from that
    request the table only loses entries. *)
Lemma handle_traffic JSON_parse e s :
  let s' := handle JSON_parse e s in
  requestId s <= requestId s'
  /\ (forall id, In id (issued s) -> In id (issued s'))
  /\ ((written s' = written s
       /\ forall x, In x (pendingRequests s') -> In x (pendingRequests s))
      \/ (exists call p name args,
            e = ToolCall call false
            /\ request_of call = Some (name, args)
            /\ pythonProcess s = Some p /\ isVannaReady s = true
            /\ written s'
               = written s ++ [(p, mkRequest (requestId s) name args)]
            /\ issued s' = issued s ++ [requestId s]
            /\ requestId s' = requestId s + 1
            /\ forall x, In x (pendingRequests s') ->
                         In x (pendingRequests s) \/ fst x = requestId s)).
Proof.
  cbv zeta.
  assert (same : forall s' : state,
             requestId s' = requestId s -> issued s' = issued s ->
             written s' = written s ->
             (forall x, In x (pendingRequests s') -> In x (pendingRequests s)) ->
             requestId s <= requestId s'
             /\ (forall id, In id (issued s) -> In id (issued s'))
             /\ ((written s' = written s
                  /\ forall x, In x (pendingRequests s') ->
                               In x (pendingRequests s))
                 \/ (exists call p name args,
                       e = ToolCall call false
                       /\ request_of call = Some (name, args)
                       /\ pythonProcess s = Some p /\ isVannaReady s = true
                       /\ written s'
                          = written s
                            ++ [(p, mkRequest (requestId s) name args)]
                       /\ issued s' = issued s ++ [requestId s]
                       /\ requestId s' = requestId s + 1
                       /\ forall x, In x (pendingRequests s') ->
                                    In x (pendingRequests s)
                                    \/ fst x = requestId s))).
  { intros s' A B C D. rewrite A, B. splits; [lia | auto | left; auto]. }
  destruct e as [call w|q data|q data|q|q status|q k|f|id pr|k]; cbn [handle].
  - clear same.
    destruct (callTool_traffic call w s) as (A & B & C). cbv zeta in *.
    splits; auto.
    destruct C as [C|(p & name & args & Hr & Ep & R & -> & Hw & Hi & Hq & Hp)];
      [now left|].
    right. exists call, p, name, args. splits; auto.
  - destruct (Nat.ltb q (spawned s)); [|apply same; auto].
    unfold on_stderr.
    destruct (includes (toString data) (js "MCP_SERVER_READY")
              || includes (toString data) (js "ready")); apply same; auto.
  - destruct (Nat.ltb q (spawned s)); [|apply same; auto].
    destruct (on_stdout_frame JSON_parse q data s)
      as (_ & _ & _ & D & _ & F & G & _).
    apply same; auto.
    unfold on_stdout.
    destruct (frame (get_buffer q (buffers s)) data) as [lines buffer].
    intros x H. now apply handle_lines_pending in H.
  - destruct (Nat.ltb q (spawned s)); apply same; auto.
  - destruct (Nat.ltb q (spawned s)); [|apply same; auto].
    destruct (on_exit_frame q (code_of status) (signal_of status) s)
      as (_ & _ & _ & D & _ & F & G & _).
    apply same; auto.
    destruct (on_exit_spec q (code_of status) (signal_of status) s) as [c ->].
    cbv zeta.
    destruct (negb (is_SIGTERM (signal_of status))
              && negb (is_zero (code_of status))
              && (initializationAttempts s <? maxAttempts));
      cbn; intros x [].
  - destruct (armed (initTimer q) s); [|apply same; auto].
    unfold on_initTimer, killPython.
    cbn [pythonProcess logError fired set_timers set_errorCounts].
    destruct (pythonProcess s) as [p|]; [destruct k|]; apply same; auto.
  - destruct (armed restartTimer s); [|apply same; auto].
    unfold startPython. cbn [initializationAttempts fired set_timers].
    destruct (maxAttempts <=? initializationAttempts s); [apply same; auto|].
    destruct f; apply same; auto.
  - destruct (armed (requestTimer id pr) s); [|apply same; auto].
    destruct (on_requestTimer_frame id pr s)
      as (_ & _ & _ & D & _ & F & G & _).
    apply same; auto.
    unfold on_requestTimer. cbn [pendingRequests fired set_timers].
    destruct (map_has id (pendingRequests s)); [|auto].
    unfold reject.
    match goal with
    | |- context [settle ?p ?o ?s0] =>
        destruct (settle_frame p o s0) as (_ & _ & _ & _ & _ & _ & _ & _ & I)
    end.
    rewrite I. cbn. intros x. apply In_map_delete_inv.
  - unfold killPython. destruct (pythonProcess s) as [p|]; [destruct k|];
      apply same; auto.
Qed.

Lemma Math_clamped x : clamped (Math_max 1 (Math_min 50 x)).
Proof.
  unfold clamped. destruct x as [q| |[|]].
  - cbn [Math_min integer]. destruct (Qle_bool (inject_Z 50) q) eqn:E50.
    + right. exists (inject_Z 50). split; [reflexivity|].
      split; [discriminate | apply Qle_refl].
    + cbn [Math_max integer]. destruct (Qle_bool (inject_Z 1) q) eqn:E1.
      * right. exists q. split; [reflexivity|].
        apply Qle_bool_iff in E1. split; [exact E1|].
        destruct (Qlt_le_dec q (inject_Z 50)) as [L|L].
        -- now apply Qlt_le_weak.
        -- apply Qle_bool_iff in L. congruence.
      * right. exists (inject_Z 1). split; [reflexivity|].
        split; [apply Qle_refl | discriminate].
  - now left.
  - right. exists (inject_Z 1). split; [reflexivity|].
    split; [apply Qle_refl | discriminate].
  - right. exists (inject_Z 50). split; [reflexivity|].
    split; [discriminate | apply Qle_refl].
Qed.

Lemma clamp_limit_range limit l : clamp_limit limit = Some l -> clamped l.
Proof.
  unfold clamp_limit.
  destruct (match limit with
            | Some v => if truthy limit then ToNumber v else Some (integer 10)
            | None => Some (integer 10)
            end) as [x|]; [|discriminate].
  intros E. assert (El : l = Math_max 1 (Math_min 50 x)) by congruence.
  rewrite El. apply Math_clamped.
Qed.

Lemma request_of_well_formed call name args id :
  request_of call = Some (name, args) -> well_formed (mkRequest id name args).
Proof.
  unfold well_formed. destruct call as [question valid| | |limit| | |];
    cbn [request_of req_name req_arguments]; try discriminate.
  - destruct valid; [|discriminate]. intros E. injection E as <- <-.
    right. right. eauto.
  - intros E. injection E as <- <-. now left.
  - destruct (clamp_limit limit) as [l|] eqn:El; [|discriminate].
    intros E. injection E as <- <-. right. left. split; [reflexivity|].
    exists l. split; [reflexivity|]. now apply (clamp_limit_range limit).
Qed.

Lemma StronglySorted_map_snoc {A : Type} (f : A -> Z) l a :
  StronglySorted Z.lt (map f l) -> (forall x, In x l -> f x < f a) ->
  StronglySorted Z.lt (map f (l ++ [a])).
Proof.
  intros S H. rewrite map_app. cbn [map]. apply StronglySorted_snoc; auto.
  intros x Hx. apply in_map_iff in Hx. destruct Hx as (y & <- & Hy). auto.
Qed.

Lemma run_snoc JSON_parse s trace e :
  run JSON_parse s (trace ++ [e])
  = step JSON_parse (run JSON_parse s trace) e.
Proof. unfold run. now rewrite fold_left_app. Qed.

(** Over every run the requests written to the workers carry strictly
    increasing identifiers, each one issued by [requestId++] and written
    to a worker that was spawned; each is one of the three requests the
    tool functions build, a user list with a limit that is NaN or between
    1 and 50; and every request in the pending table was written. *)
Theorem written_requests_are_ordered_and_well_formed
    JSON_parse files_exist trace :
  let s := run JSON_parse (boot files_exist) trace in
  StronglySorted Z.lt (map (fun w => req_id (snd w)) (written s))
  /\ (forall p r, In (p, r) (written s) ->
                  In (req_id r) (issued s) /\ (p < spawned s)%nat
                  /\ well_formed r)
  /\ (forall id pr, In (id, pr) (pendingRequests s) ->
                    exists p r, In (p, r) (written s) /\ req_id r = id).
Proof.
  cbv zeta. induction trace as [|e t IH] using rev_ind.
  - destruct files_exist; cbn; splits;
      first [intros ? ? [] | constructor].
  - rewrite run_snoc.
    set (s := run JSON_parse (boot files_exist) t) in *.
    destruct IH as (Sd & W & P).
    pose proof (run_Inv JSON_parse files_exist t) as I. fold s in I.
    destruct (boot_process files_exist) as (B1 & B2 & B3).
    destruct (run_process JSON_parse t (boot files_exist) B1 B2 B3)
      as (H1 & _). cbv zeta in H1. fold s in H1.
    pose proof (spawned_grows JSON_parse e s) as G.
    unfold step in *. destruct (hostExited s); [splits; auto|].
    destruct (handle_traffic JSON_parse e s) as (Q & Hi & T).
    cbv zeta in *.
    destruct T as [[Tw Tp]
                  |(call & p & name & args & -> & Hr & Ep & R & Tw & Ti & Tq & Tp)].
    + rewrite Tw. splits; auto.
      * intros p r H. destruct (W p r H) as (A & B & C). splits; auto. lia.
      * intros id pr H. apply Tp in H. now apply (P id pr).
    + rewrite Tw. splits.
      * apply StronglySorted_map_snoc; auto.
        intros [p' r'] H. cbn [snd req_id].
        destruct (W p' r' H) as (A & _). now apply (inv_issued_bound I).
      * intros p' r' H. apply in_app_or in H.
        destruct H as [H|[H|[]]].
        -- destruct (W p' r' H) as (A & B & C). splits; auto. lia.
        -- injection H as <- <-. cbn [req_id]. splits.
           ++ rewrite Ti. apply in_or_app. right. now left.
           ++ destruct (H1 _ Ep) as [E _]. lia.
           ++ now apply (request_of_well_formed call).
      * intros id pr H. apply Tp in H. destruct H as [H|H].
        -- destruct (P id pr H) as (p' & r' & Hw & E).
           exists p', r'. split; [|exact E]. apply in_or_app. now left.
        -- cbn [fst] in H. subst id.
           exists p, (mkRequest (requestId s) name args).
           split; [|reflexivity]. apply in_or_app. right. now left.
Qed.

(** ** The identifiers of the requests (lines 21, 411-416, 438-443, 493-498) *)

Lemma run_written_ids JSON_parse files_exist trace :
  let s := run JSON_parse (boot files_exist) trace in
  StronglySorted Z.lt (map (fun w => req_id (snd w)) (written s))
  /\ (forall p r, In (p, r) (written s) -> In (req_id r) (issued s))
  /\ (forall id pr, In (id, pr) (pendingRequests s) ->
                    exists p r, In (p, r) (written s) /\ req_id r = id).
Proof.
  cbv zeta. induction trace as [|e t IH] using rev_ind.
  - destruct files_exist; cbn; splits;
      first [intros ? ? [] | constructor].
  - rewrite run_snoc.
    set (s := run JSON_parse (boot files_exist) t) in *.
    destruct IH as (Sd & W & P).
    pose proof (run_Inv JSON_parse files_exist t) as I. fold s in I.
    unfold step. destruct (hostExited s); [splits; auto|].
    destruct (handle_traffic JSON_parse e s) as (_ & Hi & T).
    cbv zeta in *.
    destruct T as [[Tw Tp]
                  |(call & p & name & args & -> & _ & _ & _ & Tw & Ti & _ & Tp)].
    + rewrite Tw. splits.
      * exact Sd.
      * intros p r H. apply Hi. now apply (W p r).
      * intros id pr H. apply Tp in H. now apply (P id pr).
    + rewrite Tw. splits.
      * apply StronglySorted_map_snoc; auto.
        intros [p' r'] H. cbn [snd req_id].
        apply (inv_issued_bound I). now apply (W p' r').
      * intros p' r' H. apply in_app_or in H.
        destruct H as [H|[H|[]]]; [apply Hi; now apply (W p' r')|].
        injection H as <- <-. cbn [req_id]. rewrite Ti.
        apply in_or_app. right. now left.
      * intros id pr H. apply Tp in H. destruct H as [H|H].
        -- destruct (P id pr H) as (p' & r' & Hw & E).
           exists p', r'. split; [|exact E]. apply in_or_app. now left.
        -- cbn [fst] in H. subst id.
           exists p, (mkRequest (requestId s) name args).
           split; [|reflexivity]. apply in_or_app. right. now left.
Qed.

(** C2: in every state the server can reach, the identifiers handed out
    by [requestId++] are strictly increasing in the order they were issued
    (so none is used twice) and all below [requestId]; the table holds at
    most one entry per identifier, each an issued one; whatever happens
    later, restarts included, every identifier issued later is greater
    than every one issued before; [startPython] and the exit listener
    leave [requestId] alone.  The identifier issued is the one the request
    carries: the request a tool function builds has the value of
    [requestId] as its [id], and that value is the one logged as issued;
    a step writes at most one request, with the identifier issued in that
    step, and a new key of the table is that identifier; so the requests
    written carry strictly increasing identifiers, no two the same, each
    an issued one, and every key of the table is the identifier of a
    request that was written. *)
Theorem request_identifiers_strictly_increase JSON_parse files_exist trace :
  let s := run JSON_parse (boot files_exist) trace in
  StronglySorted Z.lt (issued s)
  /\ NoDup (issued s)
  /\ (forall id, In id (issued s) -> id < requestId s)
  /\ NoDup (map fst (pendingRequests s))
  /\ (forall id pr, In (id, pr) (pendingRequests s) -> In id (issued s))
  /\ (forall later,
        exists new,
          issued (run JSON_parse s later) = issued s ++ new
          /\ forall old_id new_id,
               In old_id (issued s) -> In new_id new -> old_id < new_id)
  /\ (forall files p code signal,
        requestId (startPython files s) = requestId s
        /\ requestId (on_exit p code signal s) = requestId s
        /\ issued (startPython files s) = issued s
        /\ issued (on_exit p code signal s) = issued s)
  /\ (forall name args,
        let r := next_request name args s in
        req_id (fst r) = requestId s
        /\ req_name (fst r) = name
        /\ req_arguments (fst r) = args
        /\ issued (snd r) = issued s ++ [requestId s]
        /\ requestId (snd r) = requestId s + 1)
  /\ (forall e,
        let s' := step JSON_parse s e in
        written s' = written s
        \/ exists p r,
             written s' = written s ++ [(p, r)]
             /\ req_id r = requestId s
             /\ issued s' = issued s ++ [requestId s]
             /\ requestId s' = requestId s + 1
             /\ forall id pr,
                  In (id, pr) (pendingRequests s') ->
                  In (id, pr) (pendingRequests s) \/ id = req_id r)
  /\ StronglySorted Z.lt (map (fun w => req_id (snd w)) (written s))
  /\ NoDup (map (fun w => req_id (snd w)) (written s))
  /\ (forall p r, In (p, r) (written s) -> In (req_id r) (issued s))
  /\ (forall id pr, In (id, pr) (pendingRequests s) ->
                    exists p r, In (p, r) (written s) /\ req_id r = id).
Proof.
  intros s.
  assert (I : Inv s) by apply run_Inv.
  destruct (run_written_ids JSON_parse files_exist trace) as (Ws & Wi & Wp).
  cbv zeta in Ws, Wi, Wp. fold s in Ws, Wi, Wp.
  split; [apply I|].
  split; [apply StronglySorted_lt_NoDup, I|].
  split; [apply (inv_issued_bound I)|].
  split; [apply I|].
  split; [intros id pr H; now apply (inv_pending I) in H|].
  split.
  { intros later.
    destruct (request_steps_issued _ _ (run_steps JSON_parse later s I))
      as [new E].
    exists new. split; [exact E|].
    intros old_id new_id Ho Hn.
    apply (StronglySorted_app_lt (issued s) new); auto.
    rewrite <- E. subst s. rewrite <- run_app. apply run_Inv. }
  split.
  { intros files p code signal.
    destruct (on_exit_spec p code signal s) as [c ->]. cbv zeta.
    unfold startPython.
    destruct (maxAttempts <=? initializationAttempts s);
      destruct files;
      destruct (negb (is_SIGTERM signal) && negb (is_zero code)
                && (initializationAttempts s <? maxAttempts));
      cbn; auto. }
  split.
  { intros name args. cbn. splits; reflexivity. }
  split.
  { intros e. cbv zeta. unfold step. destruct (hostExited s); [now left|].
    destruct (handle_traffic JSON_parse e s) as (_ & _ & T). cbv zeta in T.
    destruct T as [[Tw _]
                  |(call & p & name & args & _ & _ & _ & _ & Tw & Ti & Tq & Tp)];
      [now left|].
    right. exists p, (mkRequest (requestId s) name args).
    cbn [req_id]. splits; [exact Tw | reflexivity | exact Ti | exact Tq |].
    intros id pr H. apply Tp in H. cbn [fst] in H. exact H. }
  split; [exact Ws|].
  split; [now apply StronglySorted_lt_NoDup|].
  split; [exact Wi | exact Wp].
Qed.

Lemma written_provenance JSON_parse trace : forall s x,
  In x (written (run JSON_parse s trace)) ->
  In x (written s)
  \/ exists call w,
       In (ToolCall call w) trace
       /\ request_of call = Some (req_name (snd x), req_arguments (snd x)).
Proof.
  induction trace as [|e t IH]; intros s x H; [now left|].
  cbn [run fold_left] in H. apply IH in H.
  destruct H as [H|(call & w & Hin & Hr)];
    [|right; exists call, w; split; [now right | exact Hr]].
  unfold step in H. destruct (hostExited s); [now left|].
  destruct (handle_traffic JSON_parse e s) as (_ & _ & T). cbv zeta in T.
  destruct T as [[Tw _]|(call & p & name & args & -> & Hr & _ & _ & Tw & _)].
  - rewrite Tw in H. now left.
  - rewrite Tw in H. apply in_app_or in H. destruct H as [H|[<-|[]]];
      [now left|].
    right. exists call, false. split; [now left | exact Hr].
Qed.

(** When every query call carries the verdict of [validateInput] on
    its question, as [queryDatabase] computes it, only validated questions
    reach a worker: every question written has a trimmed form of 5 to 500
    characters and holds none of the dangerous patterns, trimmed or not. *)
Theorem only_validated_questions_are_written
    JSON_parse files_exist trace p r q :
  Forall validated trace ->
  In (p, r) (written (run JSON_parse (boot files_exist) trace)) ->
  req_arguments r = question_argument q ->
  req_name r = "query_totara_db"%string
  /\ isValid (validateInput (Some (JStr q)) "question") = true
  /\ (5 <= List.length (trim q) <= 500)%nat
  /\ ~ unsafe q.
Proof.
  intros V H Ea.
  apply written_provenance in H.
  destruct H as [H|(call & w & Hin & Hr)].
  - exfalso. destruct files_exist; cbn in H; exact H.
  - rewrite Forall_forall in V. apply V in Hin.
    cbn [snd] in Hr. rewrite Ea in Hr.
    destruct call as [question valid| | |limit| | |];
      cbn [request_of] in Hr; try discriminate;
      try (destruct (clamp_limit limit); discriminate).
    destruct valid; [|discriminate]. injection Hr as En <-.
    cbn [validated] in Hin. symmetry in Hin.
    split; [now symmetry|]. split; [exact Hin|].
    rewrite validateInput_question in Hin.
    apply andb_prop in Hin. destruct Hin as [Hin Hd].
    apply andb_prop in Hin. destruct Hin as [H5 H500].
    apply Nat.leb_le in H5, H500. split; [lia|].
    rewrite <- dangerous_unsafe, <- dangerous_trim.
    now destruct (regex_test dangerous (trim question)).
Qed.

Lemma only_validated_questions_are_written_witness :
  req_name (mkRequest 1 "query_totara_db"
              (question_argument (js "Show me all active users")))
  = "query_totara_db"%string
  /\ isValid (validateInput (Some (JStr (js "Show me all active users")))
                "question") = true
  /\ (5 <= List.length (trim (js "Show me all active users")) <= 500)%nat
  /\ ~ unsafe (js "Show me all active users").
Proof.
  apply (only_validated_questions_are_written JSON_parse_sample true
           (ready_trace
            ++ [ToolCall (query_totara_db (js "Show me all active users") true)
                  false])
           0%nat
           (mkRequest 1 "query_totara_db"
              (question_argument (js "Show me all active users")))
           (js "Show me all active users")).
  - repeat constructor.
  - vm_compute. left. reflexivity.
  - reflexivity.
Defined.

(** ** Where settlements come from *)

Lemma handle_line_settled JSON_parse line s :
  exists new,
    settlements (handle_line JSON_parse line s) = settlements s ++ new
    /\ (forall x, In x new -> settled_by s x)
    /\ forall x, In x (pendingRequests (handle_line JSON_parse line s)) ->
                 In x (pendingRequests s).
Proof.
  rewrite handle_line_eq.
  destruct (classify JSON_parse line) as [| |response];
    try (exists []; cbn; rewrite app_nil_r; splits; [reflexivity | intros ? [] | auto]).
  destruct (response_key response) as [k|] eqn:Ek;
    [|exists []; rewrite app_nil_r; splits; [reflexivity | intros ? [] | auto]].
  destruct (map_get k (pendingRequests s)) as [pr|] eqn:Eg;
    [|exists []; rewrite app_nil_r; splits; [reflexivity | intros ? [] | auto]].
  exists [(pr, response_outcome response)].
  destruct (settle_spec pr (response_outcome response)
              (set_pendingRequests (map_delete k (pendingRequests s)) s))
    as [c ->].
  cbn. splits; [reflexivity | |].
  - intros x [<-|[]]. right. right. right. exists response, k.
    splits; auto. cbn [fst]. now apply map_get_In.
  - intros x. apply In_map_delete_inv.
Qed.

Lemma handle_lines_settled JSON_parse lines : forall s,
  exists new,
    settlements
      (fold_left (fun s line => handle_line JSON_parse line s) lines s)
    = settlements s ++ new
    /\ forall x, In x new -> settled_by s x.
Proof.
  induction lines as [|line r IH]; intros s; cbn [fold_left].
  - exists []. rewrite app_nil_r. split; [reflexivity | intros ? []].
  - destruct (handle_line_settled JSON_parse line s) as (n1 & E1 & H1 & P1).
    destruct (IH (handle_line JSON_parse line s)) as (n2 & E2 & H2).
    exists (n1 ++ n2). rewrite E2, E1, app_assoc. split; [reflexivity|].
    intros x Hx. apply in_app_or in Hx. destruct Hx as [Hx|Hx]; [auto|].
    destruct (H2 x Hx) as [A|[A|[A|(response & id & A & B & C)]]];
      unfold settled_by; auto.
    right. right. right. exists response, id. auto.
Qed.

Lemma handle_settled JSON_parse e s :
  exists new,
    settlements (handle JSON_parse e s) = settlements s ++ new
    /\ forall x, In x new -> settled_by s x.
Proof.
  assert (none : forall s' : state,
             settlements s' = settlements s ->
             exists new,
               settlements s' = settlements s ++ new
               /\ forall x, In x new -> settled_by s x).
  { intros s' E. exists []. rewrite app_nil_r. split; [exact E | intros ? []]. }
  assert (sends : forall name args w,
             let '(request, s1) := next_request name args s in
             exists new,
               settlements (awaited (sendToVanna request w s1))
               = settlements s ++ new
               /\ forall x, In x new -> settled_by s x).
  { intros name args w. cbn [next_request]. unfold sendToVanna.
    cbn [pythonProcess isVannaReady set_issued set_requestId req_id promises].
    destruct (pythonProcess s) as [p|]; [destruct (isVannaReady s)|];
      cbn [awaited]; try (apply none; reflexivity).
    destruct w; cbn [awaited]; [|apply none; reflexivity].
    unfold reject.
    match goal with
    | |- context [settle ?p ?o ?s0] => destruct (settle_spec p o s0) as [c ->]
    end.
    cbn. eexists. split; [reflexivity|].
    intros x [<-|[]]. right. right. now left. }
  destruct e as [call w|q data|q data|q|q status|q k|f|id pr|k]; cbn [handle].
  - destruct call as [question valid| | |limit| | |]; cbn [callTool];
      try (apply none; reflexivity).
    + unfold queryDatabase. destruct valid; cbn [negb];
        [|apply none; reflexivity].
      destruct (isVannaReady s) eqn:R; cbn [negb]; [|apply none; reflexivity].
      pose proof (sends "query_totara_db"%string (question_argument question) w)
        as H.
      cbn [next_request] in H. exact H.
    + unfold testStatus. destruct (isVannaReady s) eqn:R; cbn [negb];
        [|apply none; reflexivity].
      pose proof (sends "test_vanna_status"%string no_arguments w) as H.
      cbn [next_request] in H. exact H.
    + unfold listUsers.
      destruct (clamp_limit limit) as [l|]; [|apply none; reflexivity].
      apply (sends "list_active_users"%string (limit_argument l) w).
  - destruct (Nat.ltb q (spawned s)); [|apply none; reflexivity].
    unfold on_stderr.
    destruct (includes (toString data) (js "MCP_SERVER_READY")
              || includes (toString data) (js "ready"));
      apply none; reflexivity.
  - destruct (Nat.ltb q (spawned s)); [|apply none; reflexivity].
    unfold on_stdout.
    destruct (frame (get_buffer q (buffers s)) data) as [lines buffer].
    apply (handle_lines_settled JSON_parse lines
             (set_buffers (put_buffer q buffer (buffers s)) s)).
  - destruct (Nat.ltb q (spawned s)); apply none; reflexivity.
  - destruct (Nat.ltb q (spawned s)); [|apply none; reflexivity].
    destruct (on_exit_spec q (code_of status) (signal_of status) s) as [c ->].
    cbv zeta.
    exists (map (fun x : Z * promise => (snd x, Rejected ProcessExited))
              (pendingRequests s)).
    split.
    + destruct (negb (is_SIGTERM (signal_of status))
                && negb (is_zero (code_of status))
                && (initializationAttempts s <? maxAttempts)); reflexivity.
    + intros x Hx. apply in_map_iff in Hx. destruct Hx as (y & <- & _).
      right. now left.
  - destruct (armed (initTimer q) s); [|apply none; reflexivity].
    unfold on_initTimer, killPython.
    cbn [pythonProcess logError fired set_timers set_errorCounts].
    destruct (pythonProcess s) as [p|]; [destruct k|]; apply none; reflexivity.
  - destruct (armed restartTimer s); [|apply none; reflexivity].
    unfold startPython. cbn [initializationAttempts fired set_timers].
    destruct (maxAttempts <=? initializationAttempts s);
      [apply none; reflexivity|].
    destruct f; apply none; reflexivity.
  - destruct (armed (requestTimer id pr) s); [|apply none; reflexivity].
    unfold on_requestTimer. cbn [pendingRequests fired set_timers].
    destruct (map_has id (pendingRequests s)); [|apply none; reflexivity].
    unfold reject.
    match goal with
    | |- context [settle ?p ?o ?s0] => destruct (settle_spec p o s0) as [c ->]
    end.
    cbn. eexists. split; [reflexivity|]. intros x [<-|[]]. now left.
  - unfold killPython. destruct (pythonProcess s) as [p|]; [destruct k|];
      apply none; reflexivity.
Qed.

(** Every call of [resolve] or [reject] over a run has one of four
    causes: the timeout of the request, the exit of the worker, a failed
    write, or a response line that carries the identifier of a request
    that was issued; a promise is resolved only by such a line, with an
    error field that is absent or falsy, and the not-ready refusal is
    never a settlement. *)
Theorem settlements_have_a_cause JSON_parse files_exist trace :
  let s := run JSON_parse (boot files_exist) trace in
  Forall (explained s) (settlements s)
  /\ (forall pr response,
        In (pr, Resolved response) (settlements s) ->
        response_outcome response = Resolved response
        /\ exists id, response_key response = Some id /\ In id (issued s))
  /\ (forall pr, ~ In (pr, Rejected NotReady) (settlements s))
  /\ forall e, exists new,
       settlements (step JSON_parse s e) = settlements s ++ new
       /\ forall x, In x new -> settled_by s x.
Proof.
  cbv zeta.
  assert (F : Forall (explained (run JSON_parse (boot files_exist) trace))
                (settlements (run JSON_parse (boot files_exist) trace))).
  { induction trace as [|e t IH] using rev_ind.
    - destruct files_exist; cbn; constructor.
    - rewrite run_snoc.
      set (s := run JSON_parse (boot files_exist) t) in *.
      pose proof (run_Inv JSON_parse files_exist t) as I. fold s in I.
      unfold step. destruct (hostExited s); [exact IH|].
      destruct (handle_settled JSON_parse e s) as (new & E & H).
      destruct (handle_traffic JSON_parse e s) as (_ & Hi & _).
      cbv zeta in Hi. rewrite E. apply Forall_app. split.
      + eapply Forall_impl; [|exact IH].
        intros x [A|[A|[A|(response & id & A & B & C)]]];
          unfold explained; auto.
        right. right. right. exists response, id. auto.
      + apply Forall_forall. intros x Hx.
        destruct (H x Hx) as [A|[A|[A|(response & id & A & B & C)]]];
          unfold explained; auto.
        right. right. right. exists response, id. splits; auto.
        apply Hi. now apply (inv_pending I id (fst x)). }
  rewrite Forall_forall in F. splits.
  - now apply Forall_forall.
  - intros pr response H.
    destruct (F _ H) as [A|[A|[A|(r & id & A & B & C)]]];
      cbn [snd] in *; try discriminate.
    assert (Er : r = response).
    { unfold response_outcome in A.
      destruct (prop (js "error") r) as [e|];
        [destruct (truthy (Some e))|]; congruence. }
    subst r. split; [now symmetry|]. eauto.
  - intros pr H.
    destruct (F _ H) as [A|[A|[A|(r & id & A & B & C)]]];
      cbn [snd] in *; try discriminate.
    unfold response_outcome in A.
    destruct (prop (js "error") r) as [e|];
      [destruct (truthy (Some e))|]; discriminate.
  - intros e. unfold step.
    destruct (hostExited (run JSON_parse (boot files_exist) trace)).
    + exists []. rewrite app_nil_r. split; [reflexivity | intros ? []].
    + apply handle_settled.
Qed.

(** ** The limit of [listUsers] *)

Example clamp_limit_examples :
  clamp_limit None = Some (integer 10)
  /\ clamp_limit (Some JNull) = Some (integer 10)
  /\ clamp_limit (Some (JNum (5 # 2))) = Some (Finite (5 # 2))
  /\ clamp_limit (Some (JBool true)) = Some (integer 1)
  /\ clamp_limit (Some (JStr (js "7"))) = Some (integer 7)
  /\ clamp_limit (Some (JStr (js " "))) = Some (integer 1)
  /\ clamp_limit (Some (JStr (js "0x40"))) = Some (integer 50)
  /\ clamp_limit (Some (JStr (js "abc"))) = Some NaN
  /\ clamp_limit (Some (JArr [JNum (20 # 1)])) = Some (integer 20)
  /\ clamp_limit (Some (JArr [JNum 1; JNum 2])) = Some NaN
  /\ clamp_limit (Some (JObj [])) = Some NaN
  /\ clamp_limit (Some (JObj [(js "toString", JNull)])) = None.
Proof. vm_compute. repeat split; reflexivity. Qed.



(** ** Providing the worker's files *)

Lemma ensureFile_spec f copy_throws d s :
  let '(d', s') := ensureFile f copy_throws (d, s) in
  (forall p c, d p = Some c -> d' p = Some c)
  /\ (forall p, p <> target f -> d' p = d p)
  /\ (copy_throws = false -> d (target f) = None ->
      d' (target f) = d (source f))
  /\ (s' = s \/ (copy_throws = true /\ s' = logError type_python s))
  /\ (copy_throws = false -> s' = s).
Proof.
  unfold ensureFile, existsSync.
  destruct (d (target f)) as [c|] eqn:Et; cbn [negb andb].
  - splits; auto. discriminate.
  - destruct (d (source f)) as [c|] eqn:Es.
    + destruct copy_throws.
      * splits; auto; discriminate.
      * unfold copyFileSync. splits; auto.
        -- intros p c' Hp. destruct (String.eqb_spec p (target f)) as [->|];
             [congruence | exact Hp].
        -- intros p Hp. apply String.eqb_neq in Hp. now rewrite Hp.
        -- intros _ _. rewrite String.eqb_refl. congruence.
    + splits; auto.
Qed.

Lemma ensureFile_state f copy_throws d s :
  let attempted := negb (existsSync d (target f)) && existsSync d (source f) in
  snd (ensureFile f copy_throws (d, s))
  = (if attempted && copy_throws then logError type_python s else s)
  /\ (copy_throws = true -> fst (ensureFile f copy_throws (d, s)) = d).
Proof.
  cbv zeta. unfold ensureFile.
  destruct (negb (existsSync d (target f)) && existsSync d (source f));
    destruct copy_throws; cbn; split; auto; discriminate.
Qed.

(** [ensureFiles] never overwrites or removes a file: what the disk
    held it still holds, and only the two target paths can change.  When
    a target is missing, its source is there and the copy does not throw,
    the target gets the content of the source.  A copy is tried when the
    target is missing and the source is there; each copy that is tried and
    throws leaves its target as it was and is logged as one python error,
    and nothing else in the server's state changes: the python count and
    the total go up by the number of such copies, the other counts stay.
    The two targets are different paths and the target of the script is
    not the source of the environment file, as their file names make
    them. *)
Theorem ensureFiles_provides_without_overwriting
    scriptPath envPath script_throws env_throws d s :
  scriptPath <> envPath ->
  scriptPath <> env_source ->
  let d' := fst (ensureFiles scriptPath envPath script_throws env_throws (d, s)) in
  let s' := snd (ensureFiles scriptPath envPath script_throws env_throws (d, s)) in
  let script_failed :=
    negb (existsSync d scriptPath) && existsSync d script_source
    && script_throws in
  let env_failed :=
    negb (existsSync d envPath) && existsSync d env_source && env_throws in
  (forall p c, d p = Some c -> d' p = Some c)
  /\ (forall p, p <> scriptPath -> p <> envPath -> d' p = d p)
  /\ (forall c, script_throws = false -> d scriptPath = None ->
                d script_source = Some c -> d' scriptPath = Some c)
  /\ (forall c, env_throws = false -> d envPath = None ->
                d env_source = Some c -> d' envPath = Some c)
  /\ (script_throws = true -> d' scriptPath = d scriptPath)
  /\ (env_throws = true -> d' envPath = d envPath)
  /\ s' = (let s1 := if script_failed then logError type_python s else s in
           if env_failed then logError type_python s1 else s1)
  /\ python (errorCounts s')
     = python (errorCounts s)
       + (if script_failed then 1 else 0) + (if env_failed then 1 else 0)
  /\ total (errorCounts s')
     = total (errorCounts s)
       + (if script_failed then 1 else 0) + (if env_failed then 1 else 0)
  /\ validation (errorCounts s') = validation (errorCounts s)
  /\ database (errorCounts s') = database (errorCounts s)
  /\ timeout (errorCounts s') = timeout (errorCounts s).
Proof.
  intros Hne Hns. cbv zeta. unfold ensureFiles.
  pose proof (ensureFile_spec (mkFile script_source scriptPath) script_throws
                d s) as H1.
  pose proof (ensureFile_state (mkFile script_source scriptPath) script_throws
                d s) as [E1 T1].
  destruct (ensureFile (mkFile script_source scriptPath) script_throws (d, s))
    as [d1 s1].
  pose proof (ensureFile_spec (mkFile env_source envPath) env_throws d1 s1)
    as H2.
  pose proof (ensureFile_state (mkFile env_source envPath) env_throws d1 s1)
    as [E2 T2].
  destruct (ensureFile (mkFile env_source envPath) env_throws (d1, s1))
    as [d2 s2].
  cbn [fst snd source target] in *.
  destruct H1 as (K1 & O1 & C1 & _ & _).
  destruct H2 as (K2 & O2 & C2 & _ & _).
  assert (X1 : existsSync d1 envPath = existsSync d envPath).
  { unfold existsSync. rewrite O1; auto. }
  assert (X2 : existsSync d1 env_source = existsSync d env_source).
  { unfold existsSync. rewrite O1; auto. }
  rewrite X1, X2 in E2.
  assert (Es : s2
               = (if negb (existsSync d envPath) && existsSync d env_source
                     && env_throws
                  then logError type_python
                         (if negb (existsSync d scriptPath)
                             && existsSync d script_source && script_throws
                          then logError type_python s else s)
                  else if negb (existsSync d scriptPath)
                          && existsSync d script_source && script_throws
                       then logError type_python s else s)).
  { rewrite E2, E1. reflexivity. }
  splits.
  - auto.
  - intros p Hs He. rewrite O2, O1; auto.
  - intros c T N Hc. apply K2. rewrite C1; auto.
  - intros c T N Hc.
    rewrite C2; [now apply K1 | exact T | rewrite O1; auto].
  - intros T. rewrite O2 by exact Hne. now rewrite (T1 T).
  - intros T. rewrite (T2 T). rewrite O1; auto.
  - exact Es.
  - rewrite Es.
    destruct (negb (existsSync d envPath) && existsSync d env_source
              && env_throws);
      destruct (negb (existsSync d scriptPath) && existsSync d script_source
                && script_throws); cbn; lia.
  - rewrite Es.
    destruct (negb (existsSync d envPath) && existsSync d env_source
              && env_throws);
      destruct (negb (existsSync d scriptPath) && existsSync d script_source
                && script_throws); cbn; lia.
  - rewrite Es.
    destruct (negb (existsSync d envPath) && existsSync d env_source
              && env_throws);
      destruct (negb (existsSync d scriptPath) && existsSync d script_source
                && script_throws); reflexivity.
  - rewrite Es.
    destruct (negb (existsSync d envPath) && existsSync d env_source
              && env_throws);
      destruct (negb (existsSync d scriptPath) && existsSync d script_source
                && script_throws); reflexivity.
  - rewrite Es.
    destruct (negb (existsSync d envPath) && existsSync d env_source
              && env_throws);
      destruct (negb (existsSync d scriptPath) && existsSync d script_source
                && script_throws); reflexivity.
Qed.

(** The source of the script and that of the environment file are there,
    neither target is; the copy of the script throws, the other does
    not. *)
Lemma ensureFiles_provides_without_overwriting_witness :
  let d : disk :=
    fun p => if String.eqb p script_source then Some [x23]
             else if String.eqb p env_source then Some [x41]
             else None in
  let scriptPath : path := "/srv/vanna/minimal_mcp_server.py"%string in
  let envPath : path := "/srv/vanna/.env"%string in
  let d' := fst (ensureFiles scriptPath envPath true false (d, constructed)) in
  let s' := snd (ensureFiles scriptPath envPath true false (d, constructed)) in
  d' scriptPath = None
  /\ d' envPath = Some [x41]
  /\ s' = logError type_python constructed
  /\ python (errorCounts s') = 1
  /\ total (errorCounts s') = 1.
Proof.
  cbv zeta.
  destruct (ensureFiles_provides_without_overwriting
              "/srv/vanna/minimal_mcp_server.py"%string
              "/srv/vanna/.env"%string true false
              (fun p => if String.eqb p script_source then Some [x23]
                        else if String.eqb p env_source then Some [x41]
                        else None)
              constructed)
    as (_ & _ & _ & C & T & _ & E & P & Tt & _);
    [discriminate | discriminate |].
  cbv zeta in *. splits.
  - rewrite (T eq_refl). reflexivity.
  - apply C; reflexivity.
  - exact E.
  - exact P.
  - exact Tt.
Defined.

(** [initializeVanna] leaves the server as [startPython] on the
    fresh object does, up to the python errors of failed copies.  With
    the interpreter in place, and the script in place or its source there
    and the copy not throwing, the first worker is launched; with the
    script missing afterwards, or the interpreter, no worker is launched
    and one attempt is used up. *)
Theorem initializeVanna_launches_when_files_are_there
    scriptPath envPath script_throws env_throws d :
  let d' := fst (initializeVanna scriptPath envPath script_throws env_throws d) in
  let s := snd (initializeVanna scriptPath envPath script_throws env_throws d) in
  let there := existsSync d' scriptPath && existsSync d' pythonPath in
  (exists c, s = set_errorCounts c (boot there))
  /\ (existsSync d pythonPath = true ->
      existsSync d scriptPath = true
      \/ (existsSync d script_source = true /\ script_throws = false) ->
      there = true)
  /\ (there = true ->
      pythonProcess s = Some 0%nat /\ spawned s = 1%nat
      /\ timers s = [initTimer 0%nat] /\ initializationAttempts s = 1)
  /\ (there = false ->
      pythonProcess s = None /\ spawned s = 0%nat /\ timers s = []
      /\ initializationAttempts s = 1).
Proof.
  cbv zeta. unfold initializeVanna, ensureFiles.
  pose proof (ensureFile_spec (mkFile script_source scriptPath) script_throws
                d constructed) as H1.
  destruct (ensureFile (mkFile script_source scriptPath) script_throws
              (d, constructed)) as [d1 s1].
  pose proof (ensureFile_spec (mkFile env_source envPath) env_throws d1 s1)
    as H2.
  destruct (ensureFile (mkFile env_source envPath) env_throws (d1, s1))
    as [d2 s2].
  cbn [fst snd source target] in *.
  destruct H1 as (K1 & O1 & C1 & S1 & Q1).
  destruct H2 as (K2 & O2 & C2 & S2 & Q2).
  assert (E : exists c, s2 = set_errorCounts c constructed).
  { destruct S1 as [->|[_ ->]]; destruct S2 as [->|[_ ->]]; eexists;
      reflexivity. }
  destruct E as [c ->].
  splits.
  - unfold boot, startPython. cbn.
    destruct (existsSync d2 scriptPath && existsSync d2 pythonPath); cbn;
      eexists; reflexivity.
  - unfold existsSync. intros Hp Hs.
    destruct (d pythonPath) as [cp|] eqn:Ep; [|discriminate].
    rewrite (K2 _ _ (K1 _ _ Ep)). rewrite andb_true_r.
    destruct (d scriptPath) as [cs|] eqn:Es.
    + now rewrite (K2 _ _ (K1 _ _ Es)).
    + destruct Hs as [Hs|[Hs T]]; [discriminate|].
      destruct (d script_source) as [cc|] eqn:Ec; [|discriminate].
      specialize (C1 T eq_refl). now rewrite (K2 _ _ C1).
  - intros ->. cbn. auto.
  - intros ->. cbn. auto.
Qed.
